(** * Codebase Genius: the code analysis core of [agents/code-analyzer/main.py]

    A shallow embedding of [CodeAnalyzerAgent]: the structured (tree-sitter)
    extractors, the regex fallback extractors, the complexity scorers and
    the parsing of one file, followed by the properties of the specification
    that concern them. The first part holds the definitions, the second
    part the proofs.

    Conventions of the model.
    - A tree-sitter node is a value of [Node]; the field name under which a
      node hangs below its parent is stored in the node ([field_name]).
    - Python [str] is [string]; a character is a code point below 256.
    - Python [float] values of this program are sums of 1.0 and 0.5 (exact in
      binary64), quotients of such sums, or literals that are only stored;
      they are modelled by their rational value in [Q].
    - A Python exception is a value of [exn]; code that may raise returns a
      [result].
    - [list(set(names))] lists the distinct names in the iteration order of
      a Python set, which follows the hash values of the strings and
      changes from one run of the interpreter to the next. [list_of_set]
      lists them in one fixed order that stands for all of them: what is
      proved of such a list speaks of its members, never of positions.
    - Two limits of the interpreter are outside the model: trees and
      directory nestings are taken to be shallower than its recursion
      limit, and text written with [print] is taken to reach the console. *)

From Stdlib Require Import String Ascii List Arith ZArith QArith Lia Lqa Bool.
From Stdlib Require Import DecimalString.
Import ListNotations.

Local Close Scope Q_scope.
Local Open Scope list_scope.
Local Open Scope string_scope.

(** ** Exceptions and results *)

Inductive exn : Type :=
| Exception (msg : string).

(** [str(e)] *)
Definition str_exn (e : exn) : string :=
  match e with Exception msg => msg end.

Inductive result (A : Type) : Type :=
| Ok (a : A)
| Raise (e : exn).

Arguments Ok {A} a.
Arguments Raise {A} e.

Definition bind {A B : Type} (m : result A) (f : A -> result B) : result B :=
  match m with
  | Ok a => f a
  | Raise e => Raise e
  end.

Notation "x <- m ;; k" := (bind m (fun x => k))
  (at level 61, m at next level, right associativity).

(** Attribute access on [None]. *)
Definition none_has_no_attribute (attr : string) : exn :=
  Exception ("'NoneType' object has no attribute '" ++ attr ++ "'").

(** ** Small string helpers *)

(** [x in [a, b, ...]] for strings. *)
Definition str_in (x : string) (l : list string) : bool :=
  existsb (String.eqb x) l.

(** [str(n)] for a non-negative integer. *)
Definition str_of_nat (n : nat) : string :=
  NilEmpty.string_of_uint (Nat.to_uint n).

(** [sep.join(l)] *)
Definition join (sep : string) (l : list string) : string :=
  String.concat sep l.

(** Truth value of a Python string: non-empty. *)
Definition truthy (s : string) : bool :=
  match s with EmptyString => false | _ => true end.

(** ** Syntax trees (tree-sitter nodes) *)

Unset Elimination Schemes.
Inductive Node : Type := mkNode {
  type : string;                 (* node.type *)
  field_name : option string;    (* field of the parent this child fills *)
  text : string;                 (* node.text.decode() *)
  start_point : nat * nat;       (* (row, column), zero-based *)
  end_point : nat * nat;
  children : list Node           (* node.children, anonymous tokens included *)
}.
Set Elimination Schemes.

Section NodeInduction.
Variable P : Node -> Prop.
Hypothesis step : forall ty fn tx sp ep ch,
    Forall P ch -> P (mkNode ty fn tx sp ep ch).

Fixpoint Node_tree_ind (n : Node) : P n :=
  match n with
  | mkNode ty fn tx sp ep ch =>
      step ty fn tx sp ep ch
        ((fix all (l : list Node) : Forall P l :=
            match l with
            | [] => Forall_nil P
            | c :: l' => Forall_cons c (Node_tree_ind c) (all l')
            end) ch)
  end.
End NodeInduction.

(** [node.child_by_field_name(name)]: the first child filling that field. *)
Definition child_by_field_name (node : Node) (name : string) : option Node :=
  find (fun c => match field_name c with
                 | Some f => String.eqb f name
                 | None => false
                 end) (children node).

(** [node.child(i)]: [None] when there is no such child. *)
Definition child (node : Node) (i : nat) : option Node :=
  nth_error (children node) i.

(** ** Complexity scorer, structured mode *)

Definition q_of_nat (n : nat) : Q := inject_Z (Z.of_nat n).

(** The inner function of [calculate_python_complexity]; the [nonlocal]
    accumulator [complexity] is passed in and returned. *)
Fixpoint count_complexity_constructs (node : Node) (complexity : Q) : Q :=
  match node with
  | mkNode ty _ _ _ _ ch =>
      let complexity :=
        if str_in ty ["if_statement"; "for_statement"; "while_statement"; "try_statement"]
        then (complexity + 1)%Q
        else if String.eqb ty "elif_clause" then (complexity + (1 # 2))%Q
        else if String.eqb ty "except_clause" then (complexity + 1)%Q
        else if str_in ty ["and_expression"; "or_expression"] then (complexity + 1)%Q
        else complexity in
      fold_left (fun acc c => count_complexity_constructs c acc) ch complexity
  end.

Definition calculate_python_complexity (node : option Node) : Q :=
  match node with
  | None => 1%Q
  | Some node => count_complexity_constructs node 1%Q
  end.

(** The inner function of [calculate_js_complexity]. *)
Fixpoint count_js_complexity (node : Node) (complexity : Q) : Q :=
  match node with
  | mkNode ty _ _ _ _ ch =>
      let complexity :=
        if str_in ty ["if_statement"; "for_statement"; "while_statement"; "switch_statement"]
        then (complexity + 1)%Q
        else if String.eqb ty "case_clause" then (complexity + (1 # 2))%Q
        else if str_in ty ["binary_expression"; "logical_expression"] then (complexity + 1)%Q
        else complexity in
      fold_left (fun acc c => count_js_complexity c acc) ch complexity
  end.

Definition calculate_js_complexity (node : option Node) : Q :=
  match node with
  | None => 1%Q
  | Some node => count_js_complexity node 1%Q
  end.

(** Number of nodes of a subtree, the root included, whose type satisfies
    [p]: the count the specification speaks of. *)
Fixpoint count_nodes (p : string -> bool) (node : Node) : nat :=
  match node with
  | mkNode ty _ _ _ _ ch =>
      (if p ty then 1 else 0)
      + fold_right (fun c acc => count_nodes p c + acc) 0 ch
  end.

Definition is_control_flow (ty : string) : bool :=
  str_in ty ["if_statement"; "for_statement"; "while_statement"; "try_statement"].
Definition is_elif (ty : string) : bool := String.eqb ty "elif_clause".
Definition is_except (ty : string) : bool := String.eqb ty "except_clause".
Definition is_bool_op (ty : string) : bool :=
  str_in ty ["and_expression"; "or_expression"].

(** The type the Python grammar gives [x and y] and [x or y]: one node
    type for both, the operator being a child token. The grammar has no
    node type [and_expression] or [or_expression]. *)
Definition is_boolean_operator (ty : string) : bool :=
  String.eqb ty "boolean_operator".

(** A node type the Python scorer counts at all. *)
Definition is_counted (ty : string) : bool :=
  is_control_flow ty || is_elif ty || is_except ty || is_bool_op ty.

Definition sum_counts (p : string -> bool) (ch : list Node) : nat :=
  fold_right (fun c acc => count_nodes p c + acc) 0 ch.

(** What one node adds to the accumulator of the Python scorer. *)
Definition python_weight (ty : string) : Q :=
  ((if is_control_flow ty then 1 else 0)
   + (1 # 2) * (if is_elif ty then 1 else 0)
   + (if is_except ty then 1 else 0)
   + (if is_bool_op ty then 1 else 0))%Q.

(** The additive count of the specification, without the base 1.0. *)
Definition python_formula (n : Node) : Q :=
  (q_of_nat (count_nodes is_control_flow n)
   + (1 # 2) * q_of_nat (count_nodes is_elif n)
   + q_of_nat (count_nodes is_except n)
   + q_of_nat (count_nodes is_bool_op n))%Q.

(** ** Extracted records *)

(** The dictionary built for one code element. *)
Record CodeElement : Type := mkElement {
  e_id : string;
  e_type : string;
  e_name : string;
  e_start_line : nat;
  e_end_line : nat;
  e_signature : string;
  e_documentation : string;
  e_complexity : Q;
  e_dependencies : list string;
  e_parameters : list string;
  e_return_type : string;
  e_decorators : list string;
  e_visibility : string;
  e_is_async : bool;
  e_is_deprecated : bool;
  e_source_code : string
}.

(** The dictionary built for one relationship; [r_source] is [None] for the
    Python value [None]. *)
Record CodeRelationship : Type := mkRelationship {
  r_type : string;
  r_source : option string;
  r_target : string;
  r_line : nat;
  r_context : string;
  r_confidence : Q;
  r_is_direct : bool
}.

(** ** Sets of names *)

(** [x] put into a list before the first name greater than it. *)
Fixpoint insert_sorted (x : string) (s : list string) : list string :=
  match s with
  | [] => [x]
  | y :: s' =>
      if String.ltb x y then x :: y :: s' else y :: insert_sorted x s'
  end.

(** [s.add(x)] on a set kept as the increasing list of its members. *)
Definition set_add (s : list string) (x : string) : list string :=
  if str_in x s then s else insert_sorted x s.

(** [list(set(names))]: every name of [names] once. Python leaves the order
    to the hash values of the names; the members are listed here in
    increasing order, whatever the order and the repetitions of [names]. *)
Definition list_of_set (names : list string) : list string :=
  fold_left set_add names [].

(** ** Helpers of the structured extractors *)

(** [extract_python_docstring] *)
Definition extract_python_docstring (node : Node) : result string :=
  match child_by_field_name node "body" with
  | Some body_node =>
      match children body_node with
      | first_stmt :: _ =>
          if String.eqb (type first_stmt) "expression_statement" then
            match child first_stmt 0 with
            | Some expr =>
                if String.eqb (type expr) "string" then Ok (text expr) else Ok EmptyString
            | None => Raise (none_has_no_attribute "type")
            end
          else Ok EmptyString
      | [] => Ok EmptyString
      end
  | None => Ok EmptyString
  end.

(** [extract_call_name] *)
Definition extract_call_name (node : Node) : result string :=
  match child node 0 with
  | None => Raise (none_has_no_attribute "type")
  | Some func_node =>
      if String.eqb (type func_node) "attribute" then
        match child func_node 0 with
        | None => Raise (none_has_no_attribute "text")
        | Some obj =>
            match child func_node 1 with
            | None => Raise (none_has_no_attribute "text")
            | Some meth => Ok (text obj ++ "." ++ text meth)
            end
        end
      else if String.eqb (type func_node) "identifier" then Ok (text func_node)
      else Ok EmptyString
  end.

(** [extract_import_module] *)
Definition extract_import_module (node : Node) : result string :=
  match child node 0 with
  | None => Raise (none_has_no_attribute "type")
  | Some c0 =>
      if String.eqb (type c0) "dotted_name" then Ok (text c0)
      else if String.eqb (type c0) "identifier" then Ok (text c0)
      else Ok EmptyString
  end.

(** [extract_attribute_name] *)
Definition extract_attribute_name (node : Node) : result string :=
  match child node 1 with
  | None => Raise (none_has_no_attribute "type")
  | Some c1 =>
      if String.eqb (type c1) "identifier" then Ok (text c1) else Ok EmptyString
  end.

(** The inner function [find_calls] of [extract_python_dependencies]; the
    list [dependencies] it appends to is passed in and returned. *)
Fixpoint find_calls (node : Node) (dependencies : list string)
  : result (list string) :=
  match node with
  | mkNode ty fn tx sp ep ch =>
      dependencies <-
        (if String.eqb ty "call" then
           func_name <- extract_call_name (mkNode ty fn tx sp ep ch) ;;
           Ok (if truthy func_name then (dependencies ++ [func_name])%list
               else dependencies)
         else Ok dependencies) ;;
      fold_left (fun acc c => deps <- acc ;; find_calls c deps) ch
        (Ok dependencies)
  end.

(** [extract_python_dependencies]: the names collected by [find_calls], as
    [list(set(dependencies))] lists them. *)
Definition extract_python_dependencies (node : Node) : result (list string) :=
  dependencies <- find_calls node [] ;;
  Ok (list_of_set dependencies).

(** [extract_js_docstring] *)
Definition extract_js_docstring (node : Node) : string := EmptyString.

(** [extract_js_call_name] *)
Definition extract_js_call_name (node : Node) : string :=
  match child_by_field_name node "function" with
  | Some callee => text callee
  | None => EmptyString
  end.

(** The inner function [find_js_calls] of [extract_js_dependencies]. *)
Fixpoint find_js_calls (node : Node) (dependencies : list string)
  : list string :=
  match node with
  | mkNode ty fn tx sp ep ch =>
      let dependencies :=
        if String.eqb ty "call_expression" then
          let func_name := extract_js_call_name (mkNode ty fn tx sp ep ch) in
          if truthy func_name then (dependencies ++ [func_name])%list
          else dependencies
        else dependencies in
      fold_left (fun acc c => find_js_calls c acc) ch dependencies
  end.

(** [extract_js_dependencies]: again [list(set(dependencies))]. *)
Definition extract_js_dependencies (node : Node) : list string :=
  list_of_set (find_js_calls node []).

(** Identifier-typed children of a parameter list. *)
Definition identifier_texts (params_node : option Node) : list string :=
  match params_node with
  | Some p =>
      map text (filter (fun c => String.eqb (type c) "identifier") (children p))
  | None => []
  end.

(** [name_node.text.decode() if name_node else "anonymous"] *)
Definition name_or_anonymous (name_node : option Node) : string :=
  match name_node with
  | Some n => text n
  | None => "anonymous"
  end.

(** [node.start_point[0] + 1] and [node.end_point[0] + 1] *)
Definition start_line (node : Node) : nat := fst (start_point node) + 1.
Definition end_line (node : Node) : nat := fst (end_point node) + 1.

(** ** Characters and strings as Python sees them *)

Definition code (c : ascii) : nat := nat_of_ascii c.

Definition between (lo hi n : nat) : bool := (lo <=? n)%nat && (n <=? hi)%nat.

(** [str.isspace] on one character, which is also the class [\s] of [re]
    for [str] patterns: tab, newline, vertical tab, form feed, carriage
    return, the separators 0x1c-0x1f, space, NEL and the no-break space. *)
Definition is_space (c : ascii) : bool :=
  let n := code c in
  between 9 13 n || between 28 31 n || (Nat.eqb n 32) || (Nat.eqb n 133) || (Nat.eqb n 160).

(** The class [\w] of [re] for [str] patterns: alphanumeric or underscore. *)
Definition is_word (c : ascii) : bool :=
  let n := code c in
  between 48 57 n || between 65 90 n || (Nat.eqb n 95) || between 97 122 n
  || (Nat.eqb n 170) || (Nat.eqb n 178) || (Nat.eqb n 179) || (Nat.eqb n 181)
  || (Nat.eqb n 185) || (Nat.eqb n 186) || between 188 190 n
  || between 192 214 n || between 216 246 n || between 248 255 n.

Definition chars (s : string) : list ascii := list_ascii_of_string s.
Definition str (l : list ascii) : string := string_of_list_ascii l.

Fixpoint drop_while (p : ascii -> bool) (l : list ascii) : list ascii :=
  match l with
  | [] => []
  | c :: l' => if p c then drop_while p l' else l
  end.

(** [s.lstrip(...)], [s.rstrip(...)], [s.strip(...)] for a set of characters
    given as a predicate. *)
Definition lstrip_by (p : ascii -> bool) (s : string) : string :=
  str (drop_while p (chars s)).
Definition rstrip_by (p : ascii -> bool) (s : string) : string :=
  str (rev (drop_while p (rev (chars s)))).
Definition strip_by (p : ascii -> bool) (s : string) : string :=
  rstrip_by p (lstrip_by p s).

(** [s.strip()] *)
Definition strip (s : string) : string := strip_by is_space s.

(** [s.rstrip(c)] and [s.strip(c)] for a one-character argument. *)
Definition rstrip_char (c : ascii) (s : string) : string :=
  rstrip_by (Ascii.eqb c) s.
Definition strip_char (c : ascii) (s : string) : string :=
  strip_by (Ascii.eqb c) s.

(** [s.count('\n')] on a list of characters. *)
Definition newline : ascii := ascii_of_nat 10.
Definition double_quote : ascii := ascii_of_nat 34.
Definition count_newlines (l : list ascii) : nat :=
  length (filter (Ascii.eqb newline) l).

(** [len(s.splitlines())]: a line ends at a line boundary character (CR LF
    counting as one boundary) or at the end of the text. *)
Definition is_line_boundary (c : ascii) : bool :=
  let n := code c in
  between 10 13 n || between 28 30 n || (Nat.eqb n 133).

Fixpoint count_lines (l : list ascii) (in_line : bool) : nat :=
  match l with
  | [] => if in_line then 1 else 0
  | c :: l' =>
      if is_line_boundary c then
        match l' with
        | d :: l'' =>
            if Nat.eqb (code c) 13 && Nat.eqb (code d) 10
            then S (count_lines l'' false)
            else S (count_lines l' false)
        | [] => 1
        end
      else count_lines l' true
  end.

Definition splitlines_len (s : string) : nat := count_lines (chars s) false.

(** [extract_js_import_module] *)
Definition extract_js_import_module (node : Node) : string :=
  match child_by_field_name node "source" with
  | Some source_node =>
      strip_char "'"%char (strip_char double_quote (text source_node))
  | None => EmptyString
  end.

(** ** Element extractor, structured mode *)

Definition extract_python_function (node : Node) (file_path : string)
  (element_id : nat) : result CodeElement :=
  let function_name := name_or_anonymous (child_by_field_name node "name") in
  let parameters := identifier_texts (child_by_field_name node "parameters") in
  let body_node := child_by_field_name node "body" in
  let complexity := calculate_python_complexity body_node in
  let decorators := [] in
  documentation <- extract_python_docstring node ;;
  dependencies <- extract_python_dependencies node ;;
  Ok {| e_id := "func_" ++ str_of_nat element_id ++ "_" ++ file_path;
        e_type := "function";
        e_name := function_name;
        e_start_line := start_line node;
        e_end_line := end_line node;
        e_signature := "def " ++ function_name ++ "(" ++ join ", " parameters ++ ")";
        e_documentation := documentation;
        e_complexity := complexity;
        e_dependencies := dependencies;
        e_parameters := parameters;
        e_return_type := "Any";
        e_decorators := decorators;
        e_visibility := "public";
        e_is_async := false;
        e_is_deprecated := false;
        e_source_code := text node |}.

Definition extract_python_class (node : Node) (file_path : string)
  (element_id : nat) : result CodeElement :=
  let class_name := name_or_anonymous (child_by_field_name node "name") in
  let inheritance := identifier_texts (child_by_field_name node "bases") in
  let body_node := child_by_field_name node "body" in
  let complexity := calculate_python_complexity body_node in
  documentation <- extract_python_docstring node ;;
  Ok {| e_id := "class_" ++ str_of_nat element_id ++ "_" ++ file_path;
        e_type := "class";
        e_name := class_name;
        e_start_line := start_line node;
        e_end_line := end_line node;
        e_signature := "class " ++ class_name ++ "(" ++ join ", " inheritance ++ ")";
        e_documentation := documentation;
        e_complexity := complexity;
        e_dependencies := inheritance;
        e_parameters := [];
        e_return_type := "class";
        e_decorators := [];
        e_visibility := "public";
        e_is_async := false;
        e_is_deprecated := false;
        e_source_code := text node |}.

Definition extract_python_variable (node : Node) (file_path : string)
  (element_id : nat) : CodeElement :=
  let var_name :=
    match child_by_field_name node "targets" with
    | Some targets =>
        match children targets with
        | target :: _ =>
            if String.eqb (type target) "identifier" then text target
            else "unknown"
        | [] => "unknown"
        end
    | None => "unknown"
    end in
  {| e_id := "var_" ++ str_of_nat element_id ++ "_" ++ file_path;
     e_type := "variable";
     e_name := var_name;
     e_start_line := start_line node;
     e_end_line := end_line node;
     e_signature := var_name ++ " = ...";
     e_documentation := EmptyString;
     e_complexity := 1%Q;
     e_dependencies := [];
     e_parameters := [];
     e_return_type := "Any";
     e_decorators := [];
     e_visibility := "public";
     e_is_async := false;
     e_is_deprecated := false;
     e_source_code := text node |}.

Definition extract_js_function (node : Node) (file_path : string)
  (element_id : nat) : CodeElement :=
  let function_name := name_or_anonymous (child_by_field_name node "name") in
  let parameters := identifier_texts (child_by_field_name node "parameters") in
  let body_node := child_by_field_name node "body" in
  let complexity := calculate_js_complexity body_node in
  {| e_id := "func_" ++ str_of_nat element_id ++ "_" ++ file_path;
     e_type := "function";
     e_name := function_name;
     e_start_line := start_line node;
     e_end_line := end_line node;
     e_signature := "function " ++ function_name ++ "(" ++ join ", " parameters ++ ")";
     e_documentation := extract_js_docstring node;
     e_complexity := complexity;
     e_dependencies := extract_js_dependencies node;
     e_parameters := parameters;
     e_return_type := "any";
     e_decorators := [];
     e_visibility := "public";
     e_is_async := false;
     e_is_deprecated := false;
     e_source_code := text node |}.

Definition extract_js_class (node : Node) (file_path : string)
  (element_id : nat) : CodeElement :=
  let class_name := name_or_anonymous (child_by_field_name node "name") in
  {| e_id := "class_" ++ str_of_nat element_id ++ "_" ++ file_path;
     e_type := "class";
     e_name := class_name;
     e_start_line := start_line node;
     e_end_line := end_line node;
     e_signature := "class " ++ class_name;
     e_documentation := extract_js_docstring node;
     e_complexity := 1%Q;
     e_dependencies := [];
     e_parameters := [];
     e_return_type := "class";
     e_decorators := [];
     e_visibility := "public";
     e_is_async := false;
     e_is_deprecated := false;
     e_source_code := text node |}.

Definition extract_js_variable (node : Node) (file_path : string)
  (element_id : nat) : CodeElement :=
  let var_name :=
    match child_by_field_name node "declarations" with
    | Some declarations =>
        match children declarations with
        | declarator :: _ =>
            match child_by_field_name declarator "name" with
            | Some name_node => text name_node
            | None => "unknown"
            end
        | [] => "unknown"
        end
    | None => "unknown"
    end in
  {| e_id := "var_" ++ str_of_nat element_id ++ "_" ++ file_path;
     e_type := "variable";
     e_name := var_name;
     e_start_line := start_line node;
     e_end_line := end_line node;
     e_signature := "let " ++ var_name ++ " = ...";
     e_documentation := EmptyString;
     e_complexity := 1%Q;
     e_dependencies := [];
     e_parameters := [];
     e_return_type := "any";
     e_decorators := [];
     e_visibility := "public";
     e_is_async := false;
     e_is_deprecated := false;
     e_source_code := text node |}.

(** The inner function [traverse_tree] of [extract_code_elements]. The list
    [elements] and the [nonlocal] counter [element_counter] are the state. *)
Fixpoint traverse_tree (language file_path : string) (node : Node)
  (st : list CodeElement * nat) : result (list CodeElement * nat) :=
  match node with
  | mkNode ty fn tx sp ep ch =>
      let node := mkNode ty fn tx sp ep ch in
      let '(elements, element_counter) := st in
      st <-
        (if String.eqb language "python" then
           if String.eqb ty "function_definition" then
             el <- extract_python_function node file_path element_counter ;;
             Ok ((elements ++ [el])%list, S element_counter)
           else if String.eqb ty "class_definition" then
             el <- extract_python_class node file_path element_counter ;;
             Ok ((elements ++ [el])%list, S element_counter)
           else if String.eqb ty "assignment" then
             Ok ((elements ++ [extract_python_variable node file_path element_counter])%list,
                 S element_counter)
           else Ok st
         else if String.eqb language "javascript" then
           if String.eqb ty "function_declaration" then
             Ok ((elements ++ [extract_js_function node file_path element_counter])%list,
                 S element_counter)
           else if String.eqb ty "class_declaration" then
             Ok ((elements ++ [extract_js_class node file_path element_counter])%list,
                 S element_counter)
           else if String.eqb ty "variable_declaration" then
             Ok ((elements ++ [extract_js_variable node file_path element_counter])%list,
                 S element_counter)
           else Ok st
         else Ok st) ;;
      fold_left (fun acc c => st <- acc ;; traverse_tree language file_path c st)
        ch (Ok st)
  end.

Definition extract_code_elements (tree_node : Node) (language file_path : string)
  : result (list CodeElement) :=
  st <- traverse_tree language file_path tree_node ([], 0) ;;
  Ok (fst st).

(** ** Relationship extractor, structured mode *)

(** Truth value of [current_element]: neither [None] nor empty. *)
Definition truthy_opt (o : option string) : bool :=
  match o with
  | Some s => truthy s
  | None => false
  end.

Definition confidence_calls : Q := (8 # 10)%Q.
Definition confidence_imports : Q := (9 # 10)%Q.
Definition confidence_uses : Q := (7 # 10)%Q.

(** The inner function [traverse_for_relationships] of
    [extract_relationships]; the list [relationships] is the state, and
    [current_element] is the argument every recursive call hands on. *)
Fixpoint traverse_for_relationships (language file_path : string) (node : Node)
  (current_element : option string) (relationships : list CodeRelationship)
  : result (list CodeRelationship) :=
  match node with
  | mkNode ty fn tx sp ep ch =>
      let node := mkNode ty fn tx sp ep ch in
      let rel kind source target confidence :=
        {| r_type := kind; r_source := source; r_target := target;
           r_line := start_line node; r_context := text node;
           r_confidence := confidence; r_is_direct := true |} in
      relationships <-
        (if String.eqb language "python" then
           if String.eqb ty "call" then
             func_name <- extract_call_name node ;;
             Ok (if truthy func_name
                 then (relationships ++ [rel "calls" current_element func_name confidence_calls])%list
                 else relationships)
           else if String.eqb ty "import_from_statement" then
             module_name <- extract_import_module node ;;
             Ok (if truthy module_name
                 then (relationships ++ [rel "imports" (Some file_path) module_name confidence_imports])%list
                 else relationships)
           else if String.eqb ty "attribute" then
             attr_name <- extract_attribute_name node ;;
             Ok (if truthy attr_name && truthy_opt current_element
                 then (relationships ++ [rel "uses" current_element attr_name confidence_uses])%list
                 else relationships)
           else Ok relationships
         else if String.eqb language "javascript" then
           if String.eqb ty "call_expression" then
             let func_name := extract_js_call_name node in
             Ok (if truthy func_name
                 then (relationships ++ [rel "calls" current_element func_name confidence_calls])%list
                 else relationships)
           else if String.eqb ty "import_statement" then
             let module_name := extract_js_import_module node in
             Ok (if truthy module_name
                 then (relationships ++ [rel "imports" (Some file_path) module_name confidence_imports])%list
                 else relationships)
           else Ok relationships
         else Ok relationships) ;;
      fold_left
        (fun acc c =>
           rels <- acc ;;
           traverse_for_relationships language file_path c current_element rels)
        ch (Ok relationships)
  end.

Definition extract_relationships (tree_node : Node) (language file_path : string)
  : result (list CodeRelationship) :=
  traverse_for_relationships language file_path tree_node None [].

(** ** File-level complexity, structured mode *)

(** The inner function [analyze_node] of [calculate_complexity_score]; the
    state is the pair of [total_complexity] and [element_count]. *)
Fixpoint analyze_node (node : Node) (st : Q * nat) : Q * nat :=
  match node with
  | mkNode ty fn tx sp ep ch =>
      let node := mkNode ty fn tx sp ep ch in
      let '(total_complexity, element_count) := st in
      let st :=
        if str_in ty ["function_definition"; "class_definition"; "method_definition"] then
          let element_count := S element_count in
          if String.eqb ty "function_definition" then
            ((total_complexity
              + calculate_python_complexity (child_by_field_name node "body"))%Q,
             element_count)
          else if String.eqb ty "class_definition" then
            ((total_complexity
              + calculate_python_complexity (child_by_field_name node "body"))%Q,
             element_count)
          else (total_complexity, element_count)
        else st in
      fold_left (fun acc c => analyze_node c acc) ch st
  end.

Definition calculate_complexity_score (tree_root : option Node) : Q :=
  match tree_root with
  | None => 0%Q
  | Some root =>
      let '(total_complexity, element_count) := analyze_node root (0%Q, 0) in
      (total_complexity / q_of_nat (Nat.max element_count 1))%Q
  end.

(** ** Regular expressions of Python's [re], as far as the program uses them

    A backtracking matcher with the priorities of [re]: a repetition takes
    as many rounds as it can before it gives one back, an alternation tries
    its left branch first, and the first success is the match. *)

Inductive regex : Type :=
| Eps                              (* the empty pattern *)
| Chr (p : ascii -> bool)          (* one character of a class *)
| Seq (r1 r2 : regex)              (* r1 r2 *)
| Alt (r1 r2 : regex)              (* r1|r2 *)
| Star (r : regex)                 (* r*, greedy *)
| Group (n : nat) (r : regex)      (* capturing group number n *)
| WordB.                           (* \b *)

(** r+ and r? *)
Definition Plus (r : regex) : regex := Seq r (Star r).
Definition Opt (r : regex) : regex := Alt r Eps.

(** A literal character and a literal string. *)
Definition Lit1 (c : ascii) : regex := Chr (Ascii.eqb c).
Fixpoint LitL (l : list ascii) : regex :=
  match l with
  | [] => Eps
  | c :: l' => Seq (Lit1 c) (LitL l')
  end.
Definition Lit (s : string) : regex := LitL (chars s).

(** [r1 r2 ... rn] *)
Definition Cat (l : list regex) : regex := fold_right Seq Eps l.

(** [\s], [\S], [\w], and the negated set [[^...]]. *)
Definition Space : regex := Chr is_space.
Definition NonSpace : regex := Chr (fun c => negb (is_space c)).
Definition Word : regex := Chr is_word.
Definition NoneOf (s : string) : regex :=
  Chr (fun c => negb (existsb (Ascii.eqb c) (chars s))).

(** The state of a match attempt: the text read so far (last character
    first), the text ahead, and the groups closed so far (latest first). *)
Record mstate : Type := mkState {
  before : list ascii;
  after : list ascii;
  groups : list (nat * string)
}.

(** Is the position between a [\w] character and something else? *)
Definition word_behind (b : list ascii) : bool :=
  match b with c :: _ => is_word c | [] => false end.
Definition word_ahead (a : list ascii) : bool :=
  match a with c :: _ => is_word c | [] => false end.
Definition at_boundary (s : mstate) : bool :=
  xorb (word_behind (before s)) (word_ahead (after s)).

(** The text read between an earlier position (given by its offset) and the
    current one. *)
Definition read_since (start : nat) (s : mstate) : string :=
  str (rev (firstn (length (before s) - start) (before s))).

(** The rounds of a greedy repetition whose body is matched by [body]: try
    one more round, which must read at least one character, and only when
    that leads nowhere go on with [k]. [n] bounds the number of rounds. *)
Fixpoint star_rounds
  (body : mstate -> (mstate -> option mstate) -> option mstate)
  (k : mstate -> option mstate) (n : nat) (s : mstate) {struct n}
  : option mstate :=
  match n with
  | O => k s
  | S n' =>
      match body s
              (fun s1 =>
                 if (length (after s1) <? length (after s))%nat
                 then star_rounds body k n' s1 else None) with
      | Some s' => Some s'
      | None => k s
      end
  end.

(** [mtch r s k]: match [r] at state [s], then continue with [k]; [None]
    makes the matcher backtrack. Every round of a repetition reads at least
    one character, so [length (after s)] rounds are always enough. *)
Fixpoint mtch (r : regex) (s : mstate) (k : mstate -> option mstate)
  {struct r} : option mstate :=
  match r with
  | Eps => k s
  | Chr p =>
      match after s with
      | c :: rest =>
          if p c then k (mkState (c :: before s) rest (groups s)) else None
      | [] => None
      end
  | Seq r1 r2 => mtch r1 s (fun s1 => mtch r2 s1 k)
  | Alt r1 r2 =>
      match mtch r1 s k with
      | Some s' => Some s'
      | None => mtch r2 s k
      end
  | Star r1 => star_rounds (mtch r1) k (length (after s)) s
  | Group n r1 =>
      let start := length (before s) in
      mtch r1 s
        (fun s1 =>
           k (mkState (before s1) (after s1)
                ((n, read_since start s1) :: groups s1)))
  | WordB => if at_boundary s then k s else None
  end.

(** A match object. *)
Record rmatch : Type := mkMatch {
  m_start : nat;                   (* match.start() *)
  m_end : nat;                     (* match.end() *)
  m_group0 : string;               (* match.group(0) *)
  m_groups : list (nat * string)
}.

(** [match.group(n)] for n > 0; [None] when the group took no part. *)
Definition group (m : rmatch) (n : nat) : option string :=
  match find (fun g => Nat.eqb (fst g) n) (m_groups m) with
  | Some g => Some (snd g)
  | None => None
  end.

Definition group_or_empty (m : rmatch) (n : nat) : string :=
  match group m n with
  | Some s => s
  | None => EmptyString
  end.

(** One attempt at the position that has [b] behind and [a] ahead. *)
Definition match_here (r : regex) (b a : list ascii) : option rmatch :=
  match mtch r (mkState b a []) Some with
  | Some s =>
      Some (mkMatch (length b) (length (before s))
              (read_since (length b) s) (groups s))
  | None => None
  end.

(** The scan of [re.finditer]: attempts from left to right; after a match
    the next attempt starts where the match ended ([skip] counts the
    characters of the match still to pass), after an empty match or a
    failure one character further. *)
Fixpoint scan (r : regex) (b a : list ascii) (skip : nat) {struct a}
  : list rmatch :=
  match skip with
  | S skip' =>
      match a with
      | c :: a' => scan r (c :: b) a' skip'
      | [] => []
      end
  | O =>
      match match_here r b a with
      | Some m =>
          m :: match a with
               | c :: a' => scan r (c :: b) a' (Nat.pred (m_end m - m_start m))
               | [] => []
               end
      | None =>
          match a with
          | c :: a' => scan r (c :: b) a' 0
          | [] => []
          end
      end
  end.

(** [re.finditer(pattern, s)] *)
Definition finditer (r : regex) (s : string) : list rmatch :=
  scan r [] (chars s) 0.

(** [len(re.findall(pattern, s))] *)
Definition findall_len (r : regex) (s : string) : nat :=
  length (finditer r s).

(** ** The patterns of the regex fallback *)

(** [def\s+(\w+)\s*\([^)]*\):] *)
Definition py_func_pattern : regex :=
  Cat [Lit "def"; Plus Space; Group 1 (Plus Word); Star Space;
       Lit "("; Star (NoneOf ")"); Lit ")"; Lit ":"].

(** [class\s+(\w+)\s*(\([^)]*\))?:] *)
Definition py_class_pattern : regex :=
  Cat [Lit "class"; Plus Space; Group 1 (Plus Word); Star Space;
       Opt (Group 2 (Cat [Lit "("; Star (NoneOf ")"); Lit ")"])); Lit ":"].

(** [function\s+(\w+)\s*\([^)]*\)\s*{] *)
Definition js_func_pattern : regex :=
  Cat [Lit "function"; Plus Space; Group 1 (Plus Word); Star Space;
       Lit "("; Star (NoneOf ")"); Lit ")"; Star Space; Lit "{"].

(** [class\s+(\w+)\s*{] *)
Definition js_class_pattern : regex :=
  Cat [Lit "class"; Plus Space; Group 1 (Plus Word); Star Space; Lit "{"].

(** [(?:from\s+(\S+)\s+)?import\s+([^\n#]+)] *)
Definition py_import_pattern : regex :=
  Cat [Opt (Cat [Lit "from"; Plus Space; Group 1 (Plus NonSpace); Plus Space]);
       Lit "import"; Plus Space;
       Group 2 (Plus (Chr (fun c => negb (Ascii.eqb c newline || Ascii.eqb c "#"%char))))].

(** [import\s+(?:{[^}]+}|[\w*\s,]+)\s+from\s+Q([^Q]+)Q], where Q stands for
    the set of the single and the double quote. *)
Definition is_quote (c : ascii) : bool :=
  Ascii.eqb c "'"%char || Ascii.eqb c double_quote.
Definition js_import_pattern : regex :=
  Cat [Lit "import"; Plus Space;
       Alt (Cat [Lit "{"; Plus (NoneOf "}"); Lit "}"])
           (Plus (Chr (fun c => is_word c || Ascii.eqb c "*"%char
                                || is_space c || Ascii.eqb c ","%char)));
       Plus Space; Lit "from"; Plus Space;
       Chr is_quote; Group 1 (Plus (Chr (fun c => negb (is_quote c))));
       Chr is_quote].

(** [\bword\b] *)
Definition keyword_pattern (w : string) : regex :=
  Seq WordB (Seq (Lit w) WordB).

(** ** Regex fallback extractor *)

(** [source_code[:match.start()].count('\n') + 1] *)
Definition line_of_match (source_code : string) (m : rmatch) : nat :=
  count_newlines (firstn (m_start m) (chars source_code)) + 1.

(** An element dictionary of the regex fallback. Group 1 takes part in every
    match of the four element patterns. *)
Definition regex_element (prefix kind return_type : string) (trailer : ascii)
  (source_code file_path : string) (elements : list CodeElement) (m : rmatch)
  : CodeElement :=
  {| e_id := prefix ++ str_of_nat (length elements) ++ "_" ++ file_path;
     e_type := kind;
     e_name := group_or_empty m 1;
     e_start_line := line_of_match source_code m;
     e_end_line := 0;
     e_signature := rstrip_char trailer (m_group0 m);
     e_documentation := EmptyString;
     e_complexity := 1%Q;
     e_dependencies := [];
     e_parameters := [];
     e_return_type := return_type;
     e_decorators := [];
     e_visibility := "public";
     e_is_async := false;
     e_is_deprecated := false;
     e_source_code := m_group0 m |}.

(** One [for match in re.finditer(...)] loop appending to [elements]. *)
Definition append_matches (prefix kind return_type : string) (trailer : ascii)
  (pattern : regex) (source_code file_path : string)
  (elements : list CodeElement) : list CodeElement :=
  fold_left
    (fun elements m =>
       (elements ++ [regex_element prefix kind return_type trailer
                       source_code file_path elements m])%list)
    (finditer pattern source_code) elements.

Definition extract_elements_with_regex (source_code language file_path : string)
  : list CodeElement :=
  let elements := [] in
  if String.eqb language "python" then
    let elements :=
      append_matches "func_" "function" "Any" ":"%char py_func_pattern
        source_code file_path elements in
    append_matches "class_" "class" "class" ":"%char py_class_pattern
      source_code file_path elements
  else if String.eqb language "javascript" then
    let elements :=
      append_matches "func_" "function" "any" "{"%char js_func_pattern
        source_code file_path elements in
    append_matches "class_" "class" "class" "{"%char js_class_pattern
      source_code file_path elements
  else elements.

(** [match.group(1) or match.group(2)] *)
Definition group1_or_group2 (m : rmatch) : string :=
  match group m 1 with
  | Some s => if truthy s then s else group_or_empty m 2
  | None => group_or_empty m 2
  end.

Definition regex_import (source_code file_path target : string) (m : rmatch)
  : CodeRelationship :=
  {| r_type := "imports";
     r_source := Some file_path;
     r_target := target;
     r_line := line_of_match source_code m;
     r_context := m_group0 m;
     r_confidence := confidence_imports;
     r_is_direct := true |}.

Definition extract_relationships_with_regex
  (source_code language file_path : string) : list CodeRelationship :=
  if String.eqb language "python" then
    map (fun m => regex_import source_code file_path
                    (strip (group1_or_group2 m)) m)
      (finditer py_import_pattern source_code)
  else if String.eqb language "javascript" then
    map (fun m => regex_import source_code file_path (group_or_empty m 1) m)
      (finditer js_import_pattern source_code)
  else [].

(** ** Complexity scorer, regex mode *)

Definition calculate_complexity_with_regex (source_code : string) : Q :=
  let complexity := 1%Q in
  let if_count := findall_len (keyword_pattern "if") source_code in
  let for_count := findall_len (keyword_pattern "for") source_code in
  let while_count := findall_len (keyword_pattern "while") source_code in
  let try_count := findall_len (keyword_pattern "try") source_code in
  let complexity :=
    (complexity + q_of_nat (if_count + for_count + while_count + try_count))%Q in
  let and_count := findall_len (keyword_pattern "and") source_code in
  let or_count := findall_len (keyword_pattern "or") source_code in
  (complexity + q_of_nat (and_count + or_count))%Q.

(** Whole-word occurrences, as the specification counts them: the word
    stands at offset [i] of the text, with no [\w] character right before it
    and none right after it. *)
Fixpoint starts_with (w l : list ascii) : bool :=
  match w, l with
  | [], _ => true
  | c :: w', d :: l' => Ascii.eqb c d && starts_with w' l'
  | _ :: _, [] => false
  end.

Definition word_char_at (l : list ascii) (i : nat) : bool :=
  match nth_error l i with
  | Some c => is_word c
  | None => false
  end.

Definition whole_word_at (w l : list ascii) (i : nat) : bool :=
  starts_with w (skipn i l)
  && negb (match i with O => false | S j => word_char_at l j end)
  && negb (word_char_at l (i + length w)).

Definition count_whole_word (w text : string) : nat :=
  length (filter (whole_word_at (chars w) (chars text))
            (seq 0 (length (chars text)))).

Definition complexity_keywords : list string :=
  ["if"; "for"; "while"; "try"; "and"; "or"].

(** The same test and the same count along the scan: [b] is the text behind
    the position (last character first), [a] the text ahead. *)
Definition whole_word_here (w b a : list ascii) : bool :=
  starts_with w a && negb (word_behind b)
  && negb (word_ahead (skipn (length w) a)).

Fixpoint occurrences_from (w b a : list ascii) : nat :=
  match a with
  | [] => 0
  | c :: a' =>
      (if whole_word_here w b a then 1 else 0) + occurrences_from w (c :: b) a'
  end.

(** ** Parsing one file *)

Record FileAnalysis : Type := mkFileAnalysis {
  fa_file_path : string;
  fa_language : string;
  fa_parsing_status : string;
  fa_error_message : string;
  fa_elements_found : nat;
  fa_relationships_found : nat;
  fa_complexity_score : Q;
  fa_lines_of_code : nat;
  fa_parsed_at : nat;
  fa_tree_sitter_tree : string
}.

(** The dictionary a parse returns: the success form or the error form. *)
Inductive ParseResult : Type :=
| Success (file_path language : string) (file_analysis : FileAnalysis)
    (elements : list CodeElement) (relationships : list CodeRelationship)
    (complexity_score : Q)
| Error (file_path error : string).


(** A parser handle: [parser.parse(source)] gives the root node of a tree or
    raises. *)
Definition Parser : Type := string -> result Node.

(** The languages [initialize_parsers] sets up a parser for, with the names
    of their grammars, in the order of the source. *)
Definition parser_grammars : list (string * string) :=
  [("python", "tree-sitter-python"); ("javascript", "tree-sitter-javascript");
   ("typescript", "tree-sitter-typescript"); ("java", "tree-sitter-java");
   ("cpp", "tree-sitter-cpp"); ("c", "tree-sitter-c")].

Definition parser_languages : list string := map fst parser_grammars.

(** [language in self.language_parsers] and [self.language_parsers[language]] *)
Definition lookup_parser (language_parsers : list (string * Parser))
  (language : string) : option Parser :=
  match find (fun kv => String.eqb (fst kv) language) language_parsers with
  | Some kv => Some (snd kv)
  | None => None
  end.

Definition has_parser (language_parsers : list (string * Parser))
  (language : string) : bool :=
  match lookup_parser language_parsers language with
  | Some _ => true
  | None => false
  end.

(** [initialize_parsers]: every language is tried on its own, a failure
    leaves that language out. [make_parser grammar language] stands for
    [tree_sitter.Parser(tree_sitter.Language(grammar, language))]. The
    result is the new [language_parsers] and the reported status. *)
Definition initialize_parsers (TREE_SITTER_AVAILABLE : bool)
  (make_parser : string -> string -> result Parser)
  (language_parsers : list (string * Parser))
  : list (string * Parser) * string :=
  if negb TREE_SITTER_AVAILABLE then (language_parsers, "warning")
  else
    (fold_left
       (fun acc lg =>
          match make_parser (snd lg) (fst lg) with
          | Ok p => (acc ++ [(fst lg, p)])%list
          | Raise _ => acc
          end)
       parser_grammars [],
     "success").

Section Agent.
(** What the agent and its surroundings hold when a file is parsed. *)
Variable TREE_SITTER_AVAILABLE : bool.
Variable language_parsers : list (string * Parser).
Variable sexp : Node -> string.           (* tree.root_node.sexp() *)
Variable now : nat.                       (* datetime.datetime.now() *)
Variable read_file : string -> result string.   (* open(...).read() *)

Definition _parse_with_tree_sitter (file_path language source_code : string)
  : ParseResult :=
  let attempt :=
    parser <-
      match lookup_parser language_parsers language with
      | Some p => Ok p
      | None => Raise (Exception ("'" ++ language ++ "'"))
      end ;;
    root_node <- parser source_code ;;
    elements <- extract_code_elements root_node language file_path ;;
    relationships <- extract_relationships root_node language file_path ;;
    let complexity := calculate_complexity_score (Some root_node) in
    let file_analysis :=
      {| fa_file_path := file_path;
         fa_language := language;
         fa_parsing_status := "success";
         fa_error_message := EmptyString;
         fa_elements_found := length elements;
         fa_relationships_found := length relationships;
         fa_complexity_score := complexity;
         fa_lines_of_code := splitlines_len source_code;
         fa_parsed_at := now;
         fa_tree_sitter_tree := sexp root_node |} in
    Ok (Success file_path language file_analysis elements relationships
          complexity) in
  match attempt with
  | Ok r => r
  | Raise e => Error file_path ("Tree-sitter parsing failed: " ++ str_exn e)
  end.

(** Nothing inside the [try] of [_parse_with_fallback] raises, so its
    handler is never entered. *)
Definition _parse_with_fallback (file_path language source_code : string)
  : ParseResult :=
  let elements := extract_elements_with_regex source_code language file_path in
  let relationships :=
    extract_relationships_with_regex source_code language file_path in
  let complexity := calculate_complexity_with_regex source_code in
  let file_analysis :=
    {| fa_file_path := file_path;
       fa_language := language;
       fa_parsing_status := "success";
       fa_error_message := EmptyString;
       fa_elements_found := length elements;
       fa_relationships_found := length relationships;
       fa_complexity_score := complexity;
       fa_lines_of_code := splitlines_len source_code;
       fa_parsed_at := now;
       fa_tree_sitter_tree := EmptyString |} in
  Success file_path language file_analysis elements relationships complexity.

Definition parse_file (file_path language : string) : ParseResult :=
  match read_file file_path with
  | Ok source_code =>
      if TREE_SITTER_AVAILABLE && has_parser language_parsers language
      then _parse_with_tree_sitter file_path language source_code
      else _parse_with_fallback file_path language source_code
  | Raise e => Error file_path (str_exn e)
  end.
End Agent.

(** ** Language detection ([agents/repository-mapper/main.py]) *)

(** [c.lower()] for one character. *)
Definition lower_char (c : ascii) : ascii :=
  let n := code c in
  if between 65 90 n || (between 192 222 n && negb (Nat.eqb n 215))
  then ascii_of_nat (n + 32) else c.

(** [s.lower()] *)
Definition lower (s : string) : string := str (map lower_char (chars s)).

Definition language_map : list (string * string) :=
  [(".py", "Python"); (".js", "JavaScript"); (".ts", "TypeScript");
   (".java", "Java"); (".cpp", "C++"); (".c", "C"); (".h", "C/C++ Header");
   (".cc", "C++"); (".cs", "C#"); (".php", "PHP"); (".rb", "Ruby");
   (".go", "Go"); (".rs", "Rust"); (".swift", "Swift"); (".kt", "Kotlin");
   (".scala", "Scala"); (".sh", "Shell"); (".bat", "Batch");
   (".ps1", "PowerShell"); (".html", "HTML"); (".css", "CSS");
   (".scss", "SCSS"); (".less", "LESS"); (".vue", "Vue.js");
   (".jsx", "React JSX"); (".tsx", "React TSX"); (".md", "Markdown");
   (".txt", "Plain Text"); (".yml", "YAML"); (".yaml", "YAML");
   (".json", "JSON"); (".xml", "XML"); (".toml", "TOML"); (".ini", "INI");
   (".cfg", "Configuration"); (".conf", "Configuration")].

(** [language_map.get(ext.lower(), "Unknown")] *)
Definition detect_language_from_extension (ext : string) : string :=
  match find (fun kv => String.eqb (fst kv) (lower ext)) language_map with
  | Some kv => snd kv
  | None => "Unknown"
  end.

(** ** The mean the specification asks of the file-level score *)

(** Elements of type function, class or method. *)
Definition is_scored_element (e : CodeElement) : bool :=
  str_in (e_type e) ["function"; "class"; "method"].

(** Arithmetic mean of their complexity, the denominator floored at 1. *)
Definition mean_complexity (elements : list CodeElement) : Q :=
  let scored := filter is_scored_element elements in
  (fold_right Qplus 0 (map e_complexity scored)
   / q_of_nat (Nat.max (length scored) 1))%Q.

(** ** Predicates on the extracted records *)

(** What the relationship traversal guarantees of every relationship it
    records when it was started with [current_element = cur]. *)
Definition source_as_recorded (file_path : string) (cur : option string)
  (r : CodeRelationship) : Prop :=
  (r_type r = "calls" -> r_source r = cur)
  /\ (r_type r = "imports" -> r_source r = Some file_path)
  /\ (r_type r = "uses" -> r_source r = cur).

(** [r["type"] == "imports"] *)
Definition is_imports (r : CodeRelationship) : bool :=
  String.eqb (r_type r) "imports".
Definition count_imports (rels : list CodeRelationship) : nat :=
  length (filter is_imports rels).

(** Sum and number of the complexities that enter [mean_complexity]. *)
Definition scored_total (elements : list CodeElement) : Q :=
  fold_right Qplus 0%Q (map e_complexity (filter is_scored_element elements)).
Definition scored_count (elements : list CodeElement) : nat :=
  length (filter is_scored_element elements).

(** The state of [analyze_node] agrees with a list of elements. *)
Definition agrees (elements : list CodeElement) (st : Q * nat) : Prop :=
  (fst st == scored_total elements)%Q /\ snd st = scored_count elements.

(** ** Sample sources and their syntax trees

    The trees are written out node by node as the tree-sitter grammars of
    Python and JavaScript shape them: keyword and punctuation tokens are
    children like any other, and named fields label some children. *)

Definition nl : string := String newline EmptyString.

(** An anonymous token on one row; its text is its type. *)
Definition token (ty : string) (row c0 c1 : nat) : Node :=
  mkNode ty None ty (row, c0) (row, c1) [].

(** A named node without children on one row. *)
Definition leaf (ty : string) (fld : option string) (tx : string)
  (row c0 c1 : nat) : Node :=
  mkNode ty fld tx (row, c0) (row, c1) [].

(** [import os] followed by [from sys import path]. *)
Definition imports_source : string :=
  "import os" ++ nl ++ "from sys import path".

Definition imports_tree : Node :=
  mkNode "module" None imports_source (0, 0) (1, 20)
    [ mkNode "import_statement" None "import os" (0, 0) (0, 9)
        [ token "import" 0 0 6;
          mkNode "dotted_name" (Some "name") "os" (0, 7) (0, 9)
            [ leaf "identifier" None "os" 0 7 9 ] ];
      mkNode "import_from_statement" None "from sys import path" (1, 0) (1, 20)
        [ token "from" 1 0 4;
          mkNode "dotted_name" (Some "module_name") "sys" (1, 5) (1, 8)
            [ leaf "identifier" None "sys" 1 5 8 ];
          token "import" 1 9 15;
          mkNode "dotted_name" (Some "name") "path" (1, 16) (1, 20)
            [ leaf "identifier" None "path" 1 16 20 ] ] ].

(** [def f():] with the body [g()]. *)
Definition call_source : string := "def f():" ++ nl ++ "    g()".

Definition call_tree : Node :=
  mkNode "module" None call_source (0, 0) (1, 7)
    [ mkNode "function_definition" None call_source (0, 0) (1, 7)
        [ token "def" 0 0 3;
          leaf "identifier" (Some "name") "f" 0 4 5;
          mkNode "parameters" (Some "parameters") "()" (0, 5) (0, 7)
            [ token "(" 0 5 6; token ")" 0 6 7 ];
          token ":" 0 7 8;
          mkNode "block" (Some "body") "g()" (1, 4) (1, 7)
            [ mkNode "expression_statement" None "g()" (1, 4) (1, 7)
                [ mkNode "call" None "g()" (1, 4) (1, 7)
                    [ leaf "identifier" (Some "function") "g" 1 4 5;
                      mkNode "argument_list" (Some "arguments") "()" (1, 5) (1, 7)
                        [ token "(" 1 5 6; token ")" 1 6 7 ] ] ] ] ] ].

(** [function foo() { if (x) {} }] *)
Definition js_source : string := "function foo() { if (x) {} }".

Definition js_body : Node :=
  mkNode "statement_block" (Some "body") "{ if (x) {} }" (0, 15) (0, 28)
    [ token "{" 0 15 16;
      mkNode "if_statement" None "if (x) {}" (0, 17) (0, 26)
        [ token "if" 0 17 19;
          mkNode "parenthesized_expression" (Some "condition") "(x)" (0, 20) (0, 23)
            [ token "(" 0 20 21; leaf "identifier" None "x" 0 21 22;
              token ")" 0 22 23 ];
          mkNode "statement_block" (Some "consequence") "{}" (0, 24) (0, 26)
            [ token "{" 0 24 25; token "}" 0 25 26 ] ];
      token "}" 0 27 28 ].

Definition js_tree : Node :=
  mkNode "program" None js_source (0, 0) (0, 28)
    [ mkNode "function_declaration" None js_source (0, 0) (0, 28)
        [ token "function" 0 0 8;
          leaf "identifier" (Some "name") "foo" 0 9 12;
          mkNode "formal_parameters" (Some "parameters") "()" (0, 12) (0, 14)
            [ token "(" 0 12 13; token ")" 0 13 14 ];
          js_body ] ].

(** [class A { m() { if (x) {} } }] *)
Definition js_class_source : string := "class A { m() { if (x) {} } }".

Definition js_class_tree : Node :=
  mkNode "program" None js_class_source (0, 0) (0, 29)
    [ mkNode "class_declaration" None js_class_source (0, 0) (0, 29)
        [ token "class" 0 0 5;
          leaf "identifier" (Some "name") "A" 0 6 7;
          mkNode "class_body" (Some "body") "{ m() { if (x) {} } }" (0, 8) (0, 29)
            [ token "{" 0 8 9;
              mkNode "method_definition" None "m() { if (x) {} }" (0, 10) (0, 27)
                [ leaf "property_identifier" (Some "name") "m" 0 10 11;
                  mkNode "formal_parameters" (Some "parameters") "()" (0, 11) (0, 13)
                    [ token "(" 0 11 12; token ")" 0 12 13 ];
                  mkNode "statement_block" (Some "body") "{ if (x) {} }" (0, 14) (0, 27)
                    [ token "{" 0 14 15;
                      mkNode "if_statement" None "if (x) {}" (0, 16) (0, 25)
                        [ token "if" 0 16 18;
                          mkNode "parenthesized_expression" (Some "condition") "(x)"
                            (0, 19) (0, 22)
                            [ token "(" 0 19 20; leaf "identifier" None "x" 0 20 21;
                              token ")" 0 21 22 ];
                          mkNode "statement_block" (Some "consequence") "{}"
                            (0, 23) (0, 25)
                            [ token "{" 0 23 24; token "}" 0 24 25 ] ];
                      token "}" 0 26 27 ] ];
              token "}" 0 28 29 ] ] ].

(** A function [def f(x, y):] whose body is [if x and y: pass]. The
    condition is a [boolean_operator] node. *)
Definition branch_source : string :=
  "def f(x, y):" ++ nl ++ "    if x and y:" ++ nl ++ "        pass".

Definition branch_body : Node :=
  mkNode "block" (Some "body") ("if x and y:" ++ nl ++ "        pass")
    (1, 4) (2, 12)
    [ mkNode "if_statement" None ("if x and y:" ++ nl ++ "        pass")
        (1, 4) (2, 12)
        [ token "if" 1 4 6;
          mkNode "boolean_operator" (Some "condition") "x and y" (1, 7) (1, 14)
            [ leaf "identifier" (Some "left") "x" 1 7 8;
              mkNode "and" (Some "operator") "and" (1, 9) (1, 12) [];
              leaf "identifier" (Some "right") "y" 1 13 14 ];
          token ":" 1 14 15;
          mkNode "block" (Some "consequence") "pass" (2, 8) (2, 12)
            [ mkNode "pass_statement" None "pass" (2, 8) (2, 12)
                [ token "pass" 2 8 12 ] ] ] ].

Definition branch_function : Node :=
  mkNode "function_definition" None branch_source (0, 0) (2, 12)
    [ token "def" 0 0 3;
      leaf "identifier" (Some "name") "f" 0 4 5;
      mkNode "parameters" (Some "parameters") "(x, y)" (0, 5) (0, 11)
        [ token "(" 0 5 6; leaf "identifier" None "x" 0 6 7;
          token "," 0 7 8; leaf "identifier" None "y" 0 9 10;
          token ")" 0 10 11 ];
      token ":" 0 11 12;
      branch_body ].

(** [total = 0] followed by [class A:] with the body [limit = 1]: two
    assignments, one of them inside a class. *)
Definition assignments_source : string :=
  "total = 0" ++ nl ++ "class A:" ++ nl ++ "    limit = 1".

Definition assignments_tree : Node :=
  mkNode "module" None assignments_source (0, 0) (2, 13)
    [ mkNode "expression_statement" None "total = 0" (0, 0) (0, 9)
        [ mkNode "assignment" None "total = 0" (0, 0) (0, 9)
            [ leaf "identifier" (Some "left") "total" 0 0 5;
              token "=" 0 6 7;
              leaf "integer" (Some "right") "0" 0 8 9 ] ];
      mkNode "class_definition" None ("class A:" ++ nl ++ "    limit = 1")
        (1, 0) (2, 13)
        [ token "class" 1 0 5;
          leaf "identifier" (Some "name") "A" 1 6 7;
          token ":" 1 7 8;
          mkNode "block" (Some "body") "limit = 1" (2, 4) (2, 13)
            [ mkNode "expression_statement" None "limit = 1" (2, 4) (2, 13)
                [ mkNode "assignment" None "limit = 1" (2, 4) (2, 13)
                    [ leaf "identifier" (Some "left") "limit" 2 4 9;
                      token "=" 2 10 11;
                      leaf "integer" (Some "right") "1" 2 12 13 ] ] ] ] ].

(** [def foo(a, b):] followed by an indented [pass]. *)
Definition foo_source : string := "def foo(a, b):" ++ nl ++ "    pass".


(** A stand-in for [sexp] in examples. *)
Definition sample_sexp (n : Node) : string := "(" ++ type n ++ ")".

From Stdlib Require Import DecimalNat Sorted.

(** ** Further predicates and counts used by the properties *)

(** The head of an element id, by element type. *)
Definition id_prefix (kind : string) : string :=
  if String.eqb kind "function" then "func_"
  else if String.eqb kind "class" then "class_"
  else "var_".

(** The id the [i]-th element of a file gets. *)
Definition id_at (file_path : string) (i : nat) (e : CodeElement) : string :=
  id_prefix (e_type e) ++ str_of_nat i ++ "_" ++ file_path.

(** Every element of the list has the id of its position. *)
Definition ids_by_position (file_path : string) (elements : list CodeElement)
  : Prop :=
  forall (i : nat) (e : CodeElement),
    nth_error elements i = Some e ->
    e_id e = id_at file_path i e
    /\ In (e_type e) ["function"; "class"; "variable"].

(** Node types that make an element, per language. *)
Definition is_python_declaration (ty : string) : bool :=
  str_in ty ["function_definition"; "class_definition"; "assignment"].
Definition is_js_declaration (ty : string) : bool :=
  str_in ty ["function_declaration"; "class_declaration"; "variable_declaration"].

(** Node types the JavaScript scorer counts. *)
Definition is_js_control_flow (ty : string) : bool :=
  str_in ty ["if_statement"; "for_statement"; "while_statement"; "switch_statement"].
Definition is_js_case (ty : string) : bool := String.eqb ty "case_clause".
Definition is_js_operator (ty : string) : bool :=
  str_in ty ["binary_expression"; "logical_expression"].

Definition js_weight (ty : string) : Q :=
  ((if is_js_control_flow ty then 1 else 0)
   + (1 # 2) * (if is_js_case ty then 1 else 0)
   + (if is_js_operator ty then 1 else 0))%Q.

Definition js_formula (n : Node) : Q :=
  (q_of_nat (count_nodes is_js_control_flow n)
   + (1 # 2) * q_of_nat (count_nodes is_js_case n)
   + q_of_nat (count_nodes is_js_operator n))%Q.

(** [r["type"] == "calls"] and the targets of the calls of a list. *)
Definition is_calls (r : CodeRelationship) : bool :=
  String.eqb (r_type r) "calls".
Definition call_targets (rels : list CodeRelationship) : list string :=
  map r_target (filter is_calls rels).

(** What a relationship of structured mode looks like. *)
Definition structured_shape (file_path : string) (r : CodeRelationship) : Prop :=
  r_is_direct r = true /\ 1 <= r_line r /\ truthy (r_target r) = true
  /\ ((r_type r = "calls" /\ r_source r = None
       /\ r_confidence r = confidence_calls)
      \/ (r_type r = "imports" /\ r_source r = Some file_path
          /\ r_confidence r = confidence_imports)).

(** What a relationship of regex mode looks like. *)
Definition regex_shape (file_path : string) (r : CodeRelationship) : Prop :=
  r_is_direct r = true /\ 1 <= r_line r
  /\ r_type r = "imports" /\ r_source r = Some file_path
  /\ r_confidence r = confidence_imports.

(** What an element of regex mode looks like. *)
Definition regex_element_shape (e : CodeElement) : Prop :=
  e_end_line e = 0 /\ 1 <= e_start_line e /\ e_complexity e = 1%Q
  /\ e_parameters e = [] /\ e_dependencies e = []
  /\ e_documentation e = EmptyString.

(** The node itself and all nodes below it, in document order. *)
Fixpoint subtree_nodes (n : Node) : list Node :=
  match n with
  | mkNode ty fn tx sp ep ch =>
      mkNode ty fn tx sp ep ch :: flat_map subtree_nodes ch
  end.

(** Did a call succeed? *)
Definition is_ok {A : Type} (r : result A) : bool :=
  match r with Ok _ => true | Raise _ => false end.

(** ** Module hierarchy ([build_module_hierarchy])

    What the walk sees of the file system: for every directory its listing
    in the order [iterdir] yields it, or the exception [iterdir] raises;
    for every entry what [is_file] and [is_dir] answer, or the exception
    [is_file] raises when the entry cannot be examined (a [stat] failure
    that [pathlib] passes on, such as a permission error inside a directory
    that may be listed but not searched). Relative paths are joined with a
    slash. *)

Unset Elimination Schemes.
Inductive FsItem : Type :=
| FsFile (name : string)                         (* item.is_file() *)
| FsDir (name : string) (items : list FsItem)    (* item.is_dir(), listable *)
| FsUnreadable (name : string) (e : exn)         (* item.is_dir(), iterdir raises *)
| FsOther (name : string)                        (* neither *)
| FsDenied (name : string) (e : exn).            (* item.is_file() raises *)
Set Elimination Schemes.

Section FsItemInduction.
Variable P : FsItem -> Prop.
Hypothesis on_file : forall name, P (FsFile name).
Hypothesis on_dir : forall name items, Forall P items -> P (FsDir name items).
Hypothesis on_unreadable : forall name e, P (FsUnreadable name e).
Hypothesis on_other : forall name, P (FsOther name).
Hypothesis on_denied : forall name e, P (FsDenied name e).

Fixpoint FsItem_tree_ind (item : FsItem) : P item :=
  match item with
  | FsFile name => on_file name
  | FsDir name items =>
      on_dir name items
        ((fix all (l : list FsItem) : Forall P l :=
            match l with
            | [] => Forall_nil P
            | x :: l' => Forall_cons x (FsItem_tree_ind x) (all l')
            end) items)
  | FsUnreadable name e => on_unreadable name e
  | FsOther name => on_other name
  | FsDenied name e => on_denied name e
  end.
End FsItemInduction.

(** The name split at its last dot: the part before it and the part after
    it. *)
Fixpoint split_last_dot (l : list ascii) : option (list ascii * list ascii) :=
  match l with
  | [] => None
  | c :: l' =>
      match split_last_dot l' with
      | Some (pre, post) => Some (c :: pre, post)
      | None => if Ascii.eqb c "."%char then Some ([], l') else None
      end
  end.

(** A name has a suffix when its last dot is neither its first nor its last
    character. *)
Definition suffix_parts (name : string) : option (list ascii * list ascii) :=
  match split_last_dot (chars name) with
  | Some (c :: pre, d :: post) => Some (c :: pre, d :: post)
  | _ => None
  end.

(** [item.suffix] *)
Definition path_suffix (name : string) : string :=
  match suffix_parts name with
  | Some (_, post) => str ("."%char :: post)
  | None => EmptyString
  end.

(** [item.stem] *)
Definition path_stem (name : string) : string :=
  match suffix_parts name with
  | Some (pre, _) => str pre
  | None => name
  end.

(** [s.count(".")] and ["." in s] *)
Definition count_dots (s : string) : nat :=
  length (filter (Ascii.eqb "."%char) (chars s)).
Definition has_dot (s : string) : bool :=
  existsb (Ascii.eqb "."%char) (chars s).

Definition source_suffixes : list string :=
  [".py"; ".js"; ".ts"; ".java"; ".cpp"; ".c"].
Definition ignored_directories : list string :=
  [".git"; "__pycache__"; "node_modules"].

(** The dictionary stored for one module. *)
Record ModuleInfo : Type := mkModuleInfo {
  mi_name : string;
  mi_path : string;
  mi_is_package : bool;
  mi_level : nat;
  mi_parent : option string;
  mi_children : list string
}.

(** The dictionary [modules], in insertion order. *)
Definition Modules : Type := list (string * ModuleInfo).

(** [key in modules] *)
Definition has_module (modules : Modules) (key : string) : bool :=
  existsb (fun kv => String.eqb (fst kv) key) modules.

(** [modules[key]["children"].append(child)] *)
Definition append_child (modules : Modules) (key child : string) : Modules :=
  map (fun kv =>
         if String.eqb (fst kv) key
         then (fst kv,
               mkModuleInfo (mi_name (snd kv)) (mi_path (snd kv))
                 (mi_is_package (snd kv)) (mi_level (snd kv))
                 (mi_parent (snd kv)) (mi_children (snd kv) ++ [child]))
         else kv)
    modules.

(** [str(item.relative_to(repository_path))] for an item called [name] in
    the directory whose relative path is [rel]. *)
Definition relative_path (rel name : string) : string :=
  if truthy rel then rel ++ "/" ++ name else name.

(** The body of the loop of [process_directory] for a source file. *)
Definition add_file (name rel current_module : string) (modules : Modules)
  : Modules :=
  let module_name := path_stem name in
  let full_module_path := relative_path rel name in
  let module_name :=
    if truthy current_module then current_module ++ "." ++ module_name
    else module_name in
  let modules :=
    if has_module modules module_name then modules
    else (modules
          ++ [(module_name,
               {| mi_name := module_name;
                  mi_path := full_module_path;
                  mi_is_package := false;
                  mi_level := count_dots module_name;
                  mi_parent := if has_dot module_name
                               then Some current_module else None;
                  mi_children := [] |})])%list in
  if truthy current_module && has_module modules current_module
  then append_child modules current_module module_name
  else modules.

(** One round of the loop of [process_directory], for the item [item] of
    the directory with relative path [rel] and module name
    [current_module]; a directory is walked in turn. [item.is_file()] is
    asked of every entry first, whatever its name, so an entry that cannot
    be examined ends the walk even if its name is an ignored one. *)
Fixpoint process_item (item : FsItem) (rel current_module : string)
  (modules : Modules) : result Modules :=
  match item with
  | FsFile name =>
      Ok (if str_in (path_suffix name) source_suffixes
          then add_file name rel current_module modules
          else modules)
  | FsDir name items =>
      if str_in name ignored_directories then Ok modules
      else
        let sub_module :=
          if truthy current_module then current_module ++ "." ++ name
          else name in
        fold_left
          (fun acc it =>
             modules <- acc ;;
             process_item it (relative_path rel name) sub_module modules)
          items (Ok modules)
  | FsUnreadable name e =>
      if str_in name ignored_directories then Ok modules else Raise e
  | FsOther _ => Ok modules
  | FsDenied _ e => Raise e
  end.

(** [process_directory(repository_path)] on the listing of the root. *)
Definition process_directory (items : list FsItem) (rel current_module : string)
  (modules : Modules) : result Modules :=
  fold_left
    (fun acc it => modules <- acc ;; process_item it rel current_module modules)
    items (Ok modules).

(** A [Module] object. *)
Record ModuleObject : Type := mkModuleObject {
  module_name : string;
  module_path : string;
  is_package : bool;
  level : nat;
  parent_module : option string;
  submodules : list string
}.

Definition module_object (kv : string * ModuleInfo) : ModuleObject :=
  {| module_name := fst kv;
     module_path := mi_path (snd kv);
     is_package := (0 <? length (mi_children (snd kv)))%nat;
     level := mi_level (snd kv);
     parent_module := mi_parent (snd kv);
     submodules := mi_children (snd kv) |}.

Inductive HierarchyResult : Type :=
| HierarchySuccess (modules_created : nat) (module_hierarchy : Modules)
| HierarchyError (error : string).

(** [build_module_hierarchy]; [root] is the listing of the repository path,
    or the exception raised when it cannot be listed. *)
Definition build_module_hierarchy (root : result (list FsItem))
  : HierarchyResult :=
  match (items <- root ;; process_directory items EmptyString EmptyString []) with
  | Ok modules =>
      let module_objects := map module_object modules in
      HierarchySuccess (length module_objects) modules
  | Raise e =>
      HierarchyError ("Module hierarchy construction failed: " ++ str_exn e)
  end.

(** ** Repository metrics and the analysis of a repository *)

Record Metrics : Type := mkMetrics {
  total_files : nat;
  total_elements : nat;
  total_relationships : nat;
  complexity_distribution : list (string * nat);
  language_distribution : list (string * nat);
  circular_dependencies : list string;
  orphaned_modules : list string;
  core_modules : list string;
  avg_complexity : Q;
  max_complexity : Q;
  documentation_coverage : Q;
  test_coverage : Q
}.

(** [calculate_repository_metrics]: the metrics of its success result. *)
Definition calculate_repository_metrics : Metrics :=
  {| total_files := 0; total_elements := 0; total_relationships := 0;
     complexity_distribution := []; language_distribution := [];
     circular_dependencies := []; orphaned_modules := []; core_modules := [];
     avg_complexity := 0%Q; max_complexity := 0%Q;
     documentation_coverage := 0%Q; test_coverage := 0%Q |}.

Inductive AnalysisResult : Type :=
| AnalysisFailed (error details : string)
| AnalysisDone (repository_path : string) (parser_status : string)
    (supported_languages : list string) (modules_created : nat)
    (module_hierarchy : Modules) (metrics : Metrics) (timestamp : nat).

(** [analyze_repository]. The parser report never has the status error, so
    the first early return is never taken. *)
Definition analyze_repository (TREE_SITTER_AVAILABLE : bool)
  (make_parser : string -> string -> result Parser) (now : nat)
  (repository_path : string) (root : result (list FsItem)) : AnalysisResult :=
  let parser_result := initialize_parsers TREE_SITTER_AVAILABLE make_parser [] in
  if String.eqb (snd parser_result) "error"
  then AnalysisFailed "Parser initialization failed" EmptyString
  else
    match build_module_hierarchy root with
    | HierarchyError error =>
        AnalysisFailed "Module hierarchy construction failed" error
    | HierarchySuccess modules_created module_hierarchy =>
        AnalysisDone repository_path (snd parser_result)
          (if TREE_SITTER_AVAILABLE then map fst (fst parser_result) else [])
          modules_created module_hierarchy calculate_repository_metrics now
    end.

(** The exception that ends the walk: the one of the first entry, in the
    order of the walk, that cannot be examined or is a directory that is
    not ignored and cannot be listed. *)
Fixpoint walk_failure (item : FsItem) : option exn :=
  match item with
  | FsDir name items =>
      if str_in name ignored_directories then None
      else
        fold_left
          (fun acc it => match acc with Some e => Some e | None => walk_failure it end)
          items None
  | FsUnreadable name e =>
      if str_in name ignored_directories then None else Some e
  | FsDenied _ e => Some e
  | FsFile _ | FsOther _ => None
  end.

Definition first_failure (items : list FsItem) : option exn :=
  fold_left
    (fun acc it => match acc with Some e => Some e | None => walk_failure it end)
    items None.

Definition root_failure (root : result (list FsItem)) : option exn :=
  match root with
  | Ok items => first_failure items
  | Raise e => Some e
  end.

(** What [process_directory] keeps true of [modules]. *)
Definition module_entry_ok (kv : string * ModuleInfo) : Prop :=
  mi_name (snd kv) = fst kv
  /\ mi_level (snd kv) = count_dots (fst kv)
  /\ mi_is_package (snd kv) = false
  /\ (mi_parent (snd kv) = None <-> has_dot (fst kv) = false).

Definition modules_ok (modules : Modules) : Prop :=
  NoDup (map fst modules) /\ Forall module_entry_ok modules.

(** A small repository: sources at the top, a package directory with a
    source of the same name beside it, an ignored directory and one that
    cannot be listed but is ignored. *)
Definition sample_repository : list FsItem :=
  [ FsFile "setup.py"; FsFile "README.md"; FsFile "pkg.py";
    FsDir "pkg"
      [ FsFile "a.py"; FsFile "a.js"; FsFile ".py"; FsFile "x.tar.c";
        FsDir "sub" [ FsFile "m.ts" ] ];
    FsDir ".git" [ FsFile "hook.py" ];
    FsUnreadable "node_modules" (Exception "permission denied") ].

(** A repository with a directory that may be listed but not searched:
    its entry cannot be examined. *)
Definition locked_repository : list FsItem :=
  [ FsFile "a.py";
    FsDir "locked" [ FsDenied "b.py" (Exception "[Errno 13] Permission denied") ];
    FsFile "c.py" ].

(** ** Elements and the nodes they come from *)

(** Does a node of this type make an element in this language? *)
Definition makes_element (language ty : string) : bool :=
  String.eqb language "python" && is_python_declaration ty
  || String.eqb language "javascript" && is_js_declaration ty.

(** The nodes that make elements, in document order. *)
Definition declaration_nodes (language : string) (tree : Node) : list Node :=
  filter (fun n => makes_element language (type n)) (subtree_nodes tree).

(** What [traverse_tree] appends for one node: the result of the extractor
    it calls for the node's type in the language, or nothing when the node
    makes no element. *)
Definition element_of (language file_path : string) (node : Node)
  (element_id : nat) : option (result CodeElement) :=
  if String.eqb language "python" then
    if String.eqb (type node) "function_definition"
    then Some (extract_python_function node file_path element_id)
    else if String.eqb (type node) "class_definition"
    then Some (extract_python_class node file_path element_id)
    else if String.eqb (type node) "assignment"
    then Some (Ok (extract_python_variable node file_path element_id))
    else None
  else if String.eqb language "javascript" then
    if String.eqb (type node) "function_declaration"
    then Some (Ok (extract_js_function node file_path element_id))
    else if String.eqb (type node) "class_declaration"
    then Some (Ok (extract_js_class node file_path element_id))
    else if String.eqb (type node) "variable_declaration"
    then Some (Ok (extract_js_variable node file_path element_id))
    else None
  else None.

(** The node [node] of the tree was handed to its extractor, which
    returned [e]. *)
Definition made_from (language file_path : string) (node : Node)
  (e : CodeElement) : Prop :=
  exists element_id : nat,
    element_of language file_path node element_id = Some (Ok e).

(** The element type a node type stands for. *)
Definition element_kind (ty : string) : string :=
  if str_in ty ["function_definition"; "function_declaration"] then "function"
  else if str_in ty ["class_definition"; "class_declaration"] then "class"
  else "variable".

(** Type, first line, last line and source text: of an element, and as a
    node gives them. *)
Definition element_place (e : CodeElement) : string * nat * nat * string :=
  (e_type e, e_start_line e, e_end_line e, e_source_code e).
Definition node_place (n : Node) : string * nat * nat * string :=
  (element_kind (type n), start_line n, end_line n, text n).

(** The start lines of the elements of one type, in the order of the list. *)
Definition start_lines_of (kind : string) (elements : list CodeElement)
  : list nat :=
  map e_start_line (filter (fun e => String.eqb (e_type e) kind) elements).

(** [def f():] with the body [g()], [h()], [g()]: the same function called
    twice. *)
Definition call_statement (name : string) (row : nat) : Node :=
  mkNode "expression_statement" None (name ++ "()") (row, 4) (row, 7)
    [ mkNode "call" None (name ++ "()") (row, 4) (row, 7)
        [ leaf "identifier" (Some "function") name row 4 5;
          mkNode "argument_list" (Some "arguments") "()" (row, 5) (row, 7)
            [ token "(" row 5 6; token ")" row 6 7 ] ] ].

Definition repeated_calls_source : string :=
  "def f():" ++ nl ++ "    g()" ++ nl ++ "    h()" ++ nl ++ "    g()".

Definition repeated_calls_tree : Node :=
  mkNode "module" None repeated_calls_source (0, 0) (3, 7)
    [ mkNode "function_definition" None repeated_calls_source (0, 0) (3, 7)
        [ token "def" 0 0 3;
          leaf "identifier" (Some "name") "f" 0 4 5;
          mkNode "parameters" (Some "parameters") "()" (0, 5) (0, 7)
            [ token "(" 0 5 6; token ")" 0 6 7 ];
          token ":" 0 7 8;
          mkNode "block" (Some "body")
            ("g()" ++ nl ++ "    h()" ++ nl ++ "    g()") (1, 4) (3, 7)
            [ call_statement "g" 1; call_statement "h" 2;
              call_statement "g" 3 ] ] ].

(** [function f() { g(); h(); g(); }] *)
Definition js_call_statement (name : string) (c0 : nat) : Node :=
  mkNode "expression_statement" None (name ++ "();") (0, c0) (0, c0 + 4)
    [ mkNode "call_expression" None (name ++ "()") (0, c0) (0, c0 + 3)
        [ leaf "identifier" (Some "function") name 0 c0 (c0 + 1);
          mkNode "arguments" (Some "arguments") "()" (0, c0 + 1) (0, c0 + 3)
            [ token "(" 0 (c0 + 1) (c0 + 2); token ")" 0 (c0 + 2) (c0 + 3) ] ];
      token ";" 0 (c0 + 3) (c0 + 4) ].

Definition js_calls_source : string := "function f() { g(); h(); g(); }".

Definition js_calls_tree : Node :=
  mkNode "program" None js_calls_source (0, 0) (0, 31)
    [ mkNode "function_declaration" None js_calls_source (0, 0) (0, 31)
        [ token "function" 0 0 8;
          leaf "identifier" (Some "name") "f" 0 9 10;
          mkNode "formal_parameters" (Some "parameters") "()" (0, 10) (0, 12)
            [ token "(" 0 10 11; token ")" 0 11 12 ];
          mkNode "statement_block" (Some "body") "{ g(); h(); g(); }"
            (0, 13) (0, 31)
            [ token "{" 0 13 14;
              js_call_statement "g" 15; js_call_statement "h" 20;
              js_call_statement "g" 25;
              token "}" 0 30 31 ] ] ].

(** * Properties *)

(** ** Folding a traversal over the children of a node *)

Lemma fold_bind_raise {A S : Type} (f : A -> S -> result S) (l : list A) e :
  fold_left (fun acc c => st <- acc ;; f c st) l (Raise e) = Raise e.
Proof. induction l as [|c l IH]; [reflexivity|exact IH]. Qed.

Lemma fold_bind_id {A S : Type} (f : A -> S -> result S) (l : list A) :
  Forall (fun c => forall st, f c st = Ok st) l ->
  forall st, fold_left (fun acc c => st <- acc ;; f c st) l (Ok st) = Ok st.
Proof.
  induction 1 as [|c l Hc _ IH]; intros st; [reflexivity|].
  simpl. rewrite Hc. apply IH.
Qed.

Lemma fold_bind_inv {A S : Type} (Inv : S -> Prop) (f : A -> S -> result S)
  (l : list A) :
  Forall (fun c => forall st st', Inv st -> f c st = Ok st' -> Inv st') l ->
  forall st st',
    Inv st ->
    fold_left (fun acc c => st <- acc ;; f c st) l (Ok st) = Ok st' ->
    Inv st'.
Proof.
  induction 1 as [|c l Hc _ IH]; intros st st' Hst Hfold.
  - injection Hfold as <-. exact Hst.
  - simpl in Hfold. destruct (f c st) as [st1|e] eqn:E.
    + apply (IH st1 st'); [eapply Hc; eauto|exact Hfold].
    + rewrite fold_bind_raise in Hfold. discriminate.
Qed.

Lemma Forall_snoc {A} (P : A -> Prop) (l : list A) (x : A) :
  Forall P l -> P x -> Forall P (l ++ [x]).
Proof. intros Hl Hx. apply Forall_app. split; [exact Hl|]. constructor; auto. Qed.

Lemma fold_bind_measure {A S : Type} (m : S -> nat) (w : A -> nat)
  (f : A -> S -> result S) (l : list A) :
  Forall (fun c => forall st st', f c st = Ok st' -> m st' <= m st + w c) l ->
  forall st st',
    fold_left (fun acc c => st <- acc ;; f c st) l (Ok st) = Ok st' ->
    m st' <= m st + fold_right (fun c acc => w c + acc) 0 l.
Proof.
  induction 1 as [|c l Hc _ IH]; intros st st' Hfold.
  - injection Hfold as <-. simpl. lia.
  - simpl in Hfold. destruct (f c st) as [st1|e] eqn:E.
    + specialize (Hc _ _ E). specialize (IH _ _ Hfold). simpl. lia.
    + rewrite fold_bind_raise in Hfold. discriminate.
Qed.

(** ** Counting nodes *)

Lemma count_nodes_eq p ty fn tx sp ep ch :
  count_nodes p (mkNode ty fn tx sp ep ch)
  = (if p ty then 1 else 0) + sum_counts p ch.
Proof. reflexivity. Qed.

Lemma count_nodes_split (p q : string -> bool) :
  (forall ty, p ty && q ty = false) ->
  forall n, count_nodes (fun ty => p ty || q ty) n
            = count_nodes p n + count_nodes q n.
Proof.
  intros disj n. induction n as [ty fn tx sp ep ch IH] using Node_tree_ind.
  rewrite !count_nodes_eq.
  assert (Hch : sum_counts (fun ty => p ty || q ty) ch
                = sum_counts p ch + sum_counts q ch).
  { induction IH as [|c l Hc _ IHl]; simpl; [reflexivity|].
    rewrite Hc, IHl. lia. }
  rewrite Hch. specialize (disj ty).
  destruct (p ty), (q ty); simpl in *; try discriminate; lia.
Qed.

Lemma count_nodes_le (p q : string -> bool) :
  (forall ty, p ty = true -> q ty = true) ->
  forall n, count_nodes p n <= count_nodes q n.
Proof.
  intros sub n. induction n as [ty fn tx sp ep ch IH] using Node_tree_ind.
  rewrite !count_nodes_eq.
  assert (Hch : sum_counts p ch <= sum_counts q ch).
  { induction IH as [|c l Hc _ IHl]; simpl; lia. }
  specialize (sub ty). destruct (p ty); [rewrite sub by reflexivity|]; 
    destruct (q ty); lia.
Qed.

(** ** The Python scorer is an additive count *)

Lemma q_of_nat_add a b : (q_of_nat (a + b) == q_of_nat a + q_of_nat b)%Q.
Proof. unfold q_of_nat. rewrite Nat2Z.inj_add, inject_Z_plus. reflexivity. Qed.

Lemma python_step_weight ty (c : Q) :
  ((if str_in ty ["if_statement"; "for_statement"; "while_statement"; "try_statement"]
    then c + 1
    else if String.eqb ty "elif_clause" then c + (1 # 2)
    else if String.eqb ty "except_clause" then c + 1
    else if str_in ty ["and_expression"; "or_expression"] then c + 1
    else c) == c + python_weight ty)%Q.
Proof.
  unfold python_weight, is_control_flow, is_elif, is_except, is_bool_op, str_in.
  simpl existsb.
  repeat match goal with
  | |- context [String.eqb ty ?s] =>
      let E := fresh "E" in
      destruct (String.eqb ty s) eqn:E;
      [apply String.eqb_eq in E; subst ty; simpl; ring|]
  end.
  simpl. ring.
Qed.

Lemma python_formula_eq ty fn tx sp ep ch :
  (python_formula (mkNode ty fn tx sp ep ch)
   == python_weight ty + fold_right (fun c acc => python_formula c + acc) 0 ch)%Q.
Proof.
  unfold python_formula at 1. rewrite !count_nodes_eq, !q_of_nat_add.
  assert (Hch :
    (q_of_nat (sum_counts is_control_flow ch)
     + (1 # 2) * q_of_nat (sum_counts is_elif ch)
     + q_of_nat (sum_counts is_except ch)
     + q_of_nat (sum_counts is_bool_op ch)
     == fold_right (fun c acc => python_formula c + acc) 0 ch)%Q).
  { induction ch as [|c l IHl]; simpl.
    - unfold q_of_nat; simpl. ring.
    - rewrite <- IHl. unfold python_formula. rewrite !q_of_nat_add. ring. }
  rewrite <- Hch. unfold python_weight.
  destruct (is_control_flow ty), (is_elif ty), (is_except ty), (is_bool_op ty);
    unfold q_of_nat; simpl inject_Z; ring.
Qed.

Lemma count_complexity_constructs_spec (n : Node) :
  forall c, (count_complexity_constructs n c == c + python_formula n)%Q.
Proof.
  induction n as [ty fn tx sp ep ch IH] using Node_tree_ind. intros c.
  rewrite python_formula_eq. cbn [count_complexity_constructs].
  pose proof (python_step_weight ty c) as Hc'.
  set (c' := if str_in ty _ then _ else _) in *.
  assert (Hch : forall a,
    (fold_left (fun acc x => count_complexity_constructs x acc) ch a
     == a + fold_right (fun x acc => python_formula x + acc) 0 ch)%Q).
  { clearbody c'. clear Hc'. induction IH as [|x l Hx _ IHl]; intros a; simpl.
    - ring.
    - rewrite IHl, Hx. ring. }
  rewrite Hch, Hc'. ring.
Qed.

Lemma counted_split (n : Node) :
  count_nodes is_counted n
  = count_nodes is_control_flow n + count_nodes is_elif n
    + count_nodes is_except n + count_nodes is_bool_op n.
Proof.
  unfold is_counted.
  rewrite (count_nodes_split (fun ty => is_control_flow ty || is_elif ty || is_except ty) is_bool_op).
  2:{ intros ty. unfold is_control_flow, is_elif, is_except, is_bool_op, str_in; simpl.
      repeat match goal with
      | |- context [String.eqb ty ?s] =>
          let E := fresh "E" in
          destruct (String.eqb ty s) eqn:E;
          [apply String.eqb_eq in E; subst ty; reflexivity|]
      end. reflexivity. }
  rewrite (count_nodes_split (fun ty => is_control_flow ty || is_elif ty) is_except).
  2:{ intros ty. unfold is_control_flow, is_elif, is_except, str_in; simpl.
      repeat match goal with
      | |- context [String.eqb ty ?s] =>
          let E := fresh "E" in
          destruct (String.eqb ty s) eqn:E;
          [apply String.eqb_eq in E; subst ty; reflexivity|]
      end. reflexivity. }
  rewrite (count_nodes_split is_control_flow is_elif).
  2:{ intros ty. unfold is_control_flow, is_elif, str_in; simpl.
      repeat match goal with
      | |- context [String.eqb ty ?s] =>
          let E := fresh "E" in
          destruct (String.eqb ty s) eqn:E;
          [apply String.eqb_eq in E; subst ty; reflexivity|]
      end. reflexivity. }
  reflexivity.
Qed.

Lemma python_complexity_closed_form (body : Node) :
  (calculate_python_complexity (Some body)
   == 1 + q_of_nat (count_nodes is_control_flow body)
      + (1 # 2) * q_of_nat (count_nodes is_elif body)
      + q_of_nat (count_nodes is_except body)
      + q_of_nat (count_nodes is_bool_op body))%Q.
Proof.
  unfold calculate_python_complexity.
  rewrite count_complexity_constructs_spec. unfold python_formula. ring.
Qed.

(** C1. The Python scorer returns 1.0 plus 1.0 for every
    if/for/while/try statement, 0.5 for every elif clause and 1.0 for every
    except clause of the body subtree, but the and/or expressions add
    nothing: the scorer looks for nodes of type [and_expression] and
    [or_expression], and a tree of the Python grammar has none, its and/or
    expressions being [boolean_operator] nodes. So on a body without those
    two node types the score is the sum over the statements and clauses
    alone, however many and/or expressions there are, and a function whose
    body holds one if statement and one and expression and no other counted
    node gets 2.0, not the 3.0 of the specification. *)
Theorem C1_and_or_expressions_are_not_counted :
  forall (fn body : Node) (file_path : string) (element_id : nat)
         (el : CodeElement),
    extract_python_function fn file_path element_id = Ok el ->
    child_by_field_name fn "body" = Some body ->
    count_nodes is_bool_op body = 0 ->
    (e_complexity el
     == 1 + q_of_nat (count_nodes is_control_flow body)
        + (1 # 2) * q_of_nat (count_nodes is_elif body)
        + q_of_nat (count_nodes is_except body))%Q
    /\ (count_nodes (String.eqb "if_statement") body = 1 ->
        count_nodes is_counted body = 1 ->
        (e_complexity el == 2)%Q /\ ~ (e_complexity el == 3)%Q).
Proof.
  intros fn body file_path element_id el Hel Hbody Hnone.
  unfold extract_python_function in Hel.
  destruct (extract_python_docstring fn); [|discriminate].
  destruct (extract_python_dependencies fn); [|discriminate].
  simpl in Hel. injection Hel as <-. simpl e_complexity.
  rewrite Hbody.
  pose proof (python_complexity_closed_form body) as gen.
  rewrite Hnone in gen.
  split.
  - rewrite gen. change (q_of_nat 0) with 0%Q. ring.
  - intros Hif Hall.
    pose proof (count_nodes_le (String.eqb "if_statement") is_control_flow) as Lif.
    specialize (Lif ltac:(intros ty E; apply String.eqb_eq in E; subst ty; reflexivity) body).
    rewrite counted_split in Hall.
    assert (E1 : count_nodes is_control_flow body = 1) by lia.
    assert (E2 : count_nodes is_elif body = 0) by lia.
    assert (E3 : count_nodes is_except body = 0) by lia.
    rewrite E1, E2, E3 in gen.
    split.
    + rewrite gen. reflexivity.
    + rewrite gen. intros H. vm_compute in H. discriminate.
Qed.

Lemma C1_and_or_witness :
  count_nodes (String.eqb "if_statement") branch_body = 1
  /\ count_nodes is_boolean_operator branch_body = 1
  /\ exists el : CodeElement,
       extract_python_function branch_function "a.py" 0 = Ok el
       /\ (e_complexity el == 2)%Q /\ ~ (e_complexity el == 3)%Q.
Proof.
  split; [reflexivity|]. split; [reflexivity|].
  eexists. split; [reflexivity|].
  apply (proj2 (C1_and_or_expressions_are_not_counted branch_function
                  branch_body "a.py" 0 _ eq_refl eq_refl eq_refl));
    reflexivity.
Defined.

(** ** Every element's complexity is at least 1.0 *)

Lemma fold_left_ge (f : Node -> Q -> Q) (l : list Node) :
  Forall (fun x => forall c, (c <= f x c)%Q) l ->
  forall c, (c <= fold_left (fun acc x => f x acc) l c)%Q.
Proof.
  induction 1 as [|x l Hx _ IH]; intros c; simpl.
  - apply Qle_refl.
  - eapply Qle_trans; [apply Hx|apply IH].
Qed.

Lemma count_complexity_constructs_ge (n : Node) :
  forall c, (c <= count_complexity_constructs n c)%Q.
Proof.
  induction n as [ty fn tx sp ep ch IH] using Node_tree_ind. intros c.
  cbn [count_complexity_constructs].
  eapply Qle_trans; [|apply (fold_left_ge count_complexity_constructs ch IH)].
  repeat match goal with
         | |- context [if ?b then _ else _] => destruct b
         end; lra.
Qed.

Lemma count_js_complexity_ge (n : Node) :
  forall c, (c <= count_js_complexity n c)%Q.
Proof.
  induction n as [ty fn tx sp ep ch IH] using Node_tree_ind. intros c.
  cbn [count_js_complexity].
  eapply Qle_trans; [|apply (fold_left_ge count_js_complexity ch IH)].
  repeat match goal with
         | |- context [if ?b then _ else _] => destruct b
         end; lra.
Qed.

Lemma calculate_python_complexity_ge (body : option Node) :
  (1 <= calculate_python_complexity body)%Q.
Proof.
  destruct body as [n|]; simpl;
    [apply count_complexity_constructs_ge|apply Qle_refl].
Qed.

Lemma calculate_js_complexity_ge (body : option Node) :
  (1 <= calculate_js_complexity body)%Q.
Proof.
  destruct body as [n|]; simpl;
    [apply count_js_complexity_ge|apply Qle_refl].
Qed.

(** The nodes that make elements, for a node and its children. *)
Lemma declaration_nodes_node language ty fn tx sp ep ch :
  declaration_nodes language (mkNode ty fn tx sp ep ch)
  = ((if makes_element language ty then [mkNode ty fn tx sp ep ch] else [])
     ++ flat_map (declaration_nodes language) ch)%list.
Proof.
  unfold declaration_nodes. cbn [subtree_nodes filter type].
  assert (E : filter (fun n => makes_element language (type n))
                (flat_map subtree_nodes ch)
              = flat_map
                  (fun c => filter (fun n => makes_element language (type n))
                              (subtree_nodes c)) ch).
  { induction ch as [|c l IH]; [reflexivity|].
    cbn [flat_map]. rewrite filter_app, IH. reflexivity. }
  rewrite E. destruct (makes_element language ty); reflexivity.
Qed.

Lemma fold_bind_Forall2 {A S B C : Type} (m : S -> list B) (w : A -> list C)
  (R : C -> B -> Prop) (f : A -> S -> result S) (l : list A) :
  Forall (fun c => forall st st',
            f c st = Ok st' ->
            exists new, m st' = (m st ++ new)%list /\ Forall2 R (w c) new) l ->
  forall st st',
    fold_left (fun acc c => st <- acc ;; f c st) l (Ok st) = Ok st' ->
    exists new, m st' = (m st ++ new)%list /\ Forall2 R (flat_map w l) new.
Proof.
  induction 1 as [|c l Hc _ IH]; intros st st' Hfold.
  - injection Hfold as <-. exists []. split; [symmetry; apply app_nil_r|].
    constructor.
  - simpl in Hfold. destruct (f c st) as [st1|e] eqn:E.
    + destruct (Hc _ _ E) as [new1 [E1 F1]].
      destruct (IH _ _ Hfold) as [new2 [E2 F2]].
      exists (new1 ++ new2)%list. split.
      * rewrite E2, E1. symmetry. apply app_assoc.
      * cbn [flat_map]. apply Forall2_app; assumption.
    + rewrite fold_bind_raise in Hfold. discriminate.
Qed.

Lemma traverse_tree_made (language file_path : string) (n : Node) :
  forall st st',
    traverse_tree language file_path n st = Ok st' ->
    exists new,
      fst st' = (fst st ++ new)%list
      /\ Forall2 (made_from language file_path) (declaration_nodes language n) new.
Proof.
  induction n as [ty fn tx sp ep ch IH] using Node_tree_ind.
  intros [elements counter] st' H. cbn [traverse_tree] in H.
  match type of H with
  | bind ?m _ = _ => destruct m as [st1|e] eqn:E; [|discriminate]
  end.
  cbn [bind] in H.
  destruct (fold_bind_Forall2 (fun st => fst st) (declaration_nodes language)
              (made_from language file_path)
              (traverse_tree language file_path) ch IH st1 st' H)
    as [new2 [E2 F2]].
  rewrite declaration_nodes_node.
  assert (H1 : exists new1,
             fst st1 = (elements ++ new1)%list
             /\ Forall2 (made_from language file_path)
                  (if makes_element language ty
                   then [mkNode ty fn tx sp ep ch] else []) new1).
  { assert (one : forall el,
               makes_element language ty = true ->
               element_of language file_path (mkNode ty fn tx sp ep ch) counter
               = Some (Ok el) ->
               Forall2 (made_from language file_path)
                 (if makes_element language ty
                  then [mkNode ty fn tx sp ep ch] else []) [el]).
    { intros el M X. rewrite M. constructor; [|constructor].
      exists counter. exact X. }
    assert (none : makes_element language ty = false ->
               Forall2 (made_from language file_path)
                 (if makes_element language ty
                  then [mkNode ty fn tx sp ep ch] else []) []).
    { intros M. rewrite M. constructor. }
    revert one none.
    unfold element_of, makes_element, is_python_declaration,
      is_js_declaration, str_in.
    cbn [existsb type].
    destruct (String.eqb language "python") eqn:Lp.
    - apply String.eqb_eq in Lp. subst language.
      cbn [String.eqb Ascii.eqb Bool.eqb andb orb].
      destruct (String.eqb ty "function_definition") eqn:T1.
      + destruct (extract_python_function _ _ _) as [el|] eqn:X; [|discriminate].
        injection E as <-. intros one _. exists [el]. split; [reflexivity|].
        apply one; reflexivity.
      + destruct (String.eqb ty "class_definition") eqn:T2.
        * destruct (extract_python_class _ _ _) as [el|] eqn:X; [|discriminate].
          injection E as <-. intros one _. eexists [el]. split; [reflexivity|].
          apply one; reflexivity.
        * destruct (String.eqb ty "assignment") eqn:T3.
          -- injection E as <-. intros one _. eexists [_].
             split; [reflexivity|]. apply one; reflexivity.
          -- injection E as <-. intros _ none. exists [].
             split; [symmetry; apply app_nil_r|].
             apply none. reflexivity.
    - cbn [andb orb].
      destruct (String.eqb language "javascript"); cbn [andb].
      + destruct (String.eqb ty "function_declaration") eqn:T1.
        * injection E as <-. intros one _. eexists [_].
          split; [reflexivity|]. apply one; reflexivity.
        * destruct (String.eqb ty "class_declaration") eqn:T2.
          -- injection E as <-. intros one _. eexists [_].
             split; [reflexivity|]. apply one; reflexivity.
          -- destruct (String.eqb ty "variable_declaration") eqn:T3.
             ++ injection E as <-. intros one _. eexists [_].
                split; [reflexivity|]. apply one; reflexivity.
             ++ injection E as <-. intros _ none. exists [].
                split; [symmetry; apply app_nil_r|]. apply none. reflexivity.
      + injection E as <-. intros _ none. exists [].
        split; [symmetry; apply app_nil_r|]. apply none. reflexivity. }
  destruct H1 as [new1 [E1 F1]].
  exists (new1 ++ new2)%list. split.
  - rewrite E2, E1. cbn [fst]. symmetry. apply app_assoc.
  - apply Forall2_app; assumption.
Qed.

Lemma extract_code_elements_made (tree : Node) (language file_path : string)
  (elements : list CodeElement) :
  extract_code_elements tree language file_path = Ok elements ->
  Forall2 (made_from language file_path) (declaration_nodes language tree)
    elements.
Proof.
  intros H. unfold extract_code_elements in H.
  destruct (traverse_tree language file_path tree ([], 0)) as [st|] eqn:E;
    [|discriminate].
  injection H as <-.
  destruct (traverse_tree_made language file_path tree _ _ E) as [new [E1 F]].
  cbn [fst app] in E1. rewrite E1. exact F.
Qed.

(** What the extractors give one element for its complexity. *)
Lemma made_from_complexity (language file_path : string) (node : Node)
  (e : CodeElement) :
  made_from language file_path node e ->
  (1 <= e_complexity e)%Q
  /\ (child_by_field_name node "body" = None -> e_complexity e = 1%Q)
  /\ (e_type e = "variable" -> e_complexity e = 1%Q)
  /\ (language = "javascript" -> e_type e = "class" -> e_complexity e = 1%Q).
Proof.
  intros [id X]. unfold element_of in X.
  destruct (String.eqb language "python") eqn:Lp.
  - apply String.eqb_eq in Lp. subst language.
    destruct (String.eqb (type node) "function_definition").
    + injection X as X. unfold extract_python_function in X.
      destruct (extract_python_docstring node); [|discriminate].
      destruct (extract_python_dependencies node); [|discriminate].
      injection X as <-. cbn [e_complexity e_type].
      split; [apply calculate_python_complexity_ge|].
      split; [intros ->; reflexivity|].
      split; [discriminate|discriminate].
    + destruct (String.eqb (type node) "class_definition").
      * injection X as X. unfold extract_python_class in X.
        destruct (extract_python_docstring node); [|discriminate].
        injection X as <-. cbn [e_complexity e_type].
        split; [apply calculate_python_complexity_ge|].
        split; [intros ->; reflexivity|].
        split; [discriminate|discriminate].
      * destruct (String.eqb (type node) "assignment"); [|discriminate].
        injection X as <-. cbn [extract_python_variable e_complexity e_type].
        split; [apply Qle_refl|]. split; [reflexivity|].
        split; [reflexivity|discriminate].
  - destruct (String.eqb language "javascript"); [|discriminate].
    destruct (String.eqb (type node) "function_declaration").
    + injection X as <-. cbn [extract_js_function e_complexity e_type].
      split; [apply calculate_js_complexity_ge|].
      split; [intros ->; reflexivity|].
      split; [discriminate|discriminate].
    + destruct (String.eqb (type node) "class_declaration").
      * injection X as <-. cbn [extract_js_class e_complexity e_type].
        split; [apply Qle_refl|]. split; [reflexivity|].
        split; [reflexivity|reflexivity].
      * destruct (String.eqb (type node) "variable_declaration");
          [|discriminate].
        injection X as <-. cbn [extract_js_variable e_complexity e_type].
        split; [apply Qle_refl|]. split; [reflexivity|].
        split; [reflexivity|discriminate].
Qed.

Lemma append_matches_Forall (P : CodeElement -> Prop)
  prefix kind return_type trailer pattern source_code file_path
  (elements : list CodeElement) :
  (forall els m,
      P (regex_element prefix kind return_type trailer source_code file_path
           els m)) ->
  Forall P elements ->
  Forall P
    (append_matches prefix kind return_type trailer pattern source_code
       file_path elements).
Proof.
  intros HP. unfold append_matches. generalize (finditer pattern source_code).
  intros ms. revert elements.
  induction ms as [|m ms IH]; intros elements H; [exact H|].
  simpl. apply IH. apply Forall_snoc; [exact H|apply HP].
Qed.

(** C9. Every element extracted, in structured mode and in regex mode, has
    a complexity of at least 1.0, and an element without a body subtree has
    exactly 1.0. In structured mode the elements are, one for one, the
    nodes that make elements: the element of a node that has no [body]
    child has exactly 1.0, and so has every variable element and every
    JavaScript class element, which are given 1.0 without a look at any
    subtree. In regex mode no element has a subtree and every element has
    exactly 1.0. Both scorers return 1.0 when they are given no body. *)
Theorem C9_complexity_at_least_one :
  (forall (tree : Node) (language file_path : string)
          (elements : list CodeElement),
      extract_code_elements tree language file_path = Ok elements ->
      Forall2
        (fun node e =>
           (1 <= e_complexity e)%Q
           /\ (child_by_field_name node "body" = None ->
               e_complexity e = 1%Q)
           /\ (e_type e = "variable" -> e_complexity e = 1%Q)
           /\ (language = "javascript" -> e_type e = "class" ->
               e_complexity e = 1%Q))
        (declaration_nodes language tree) elements)
  /\ (forall source_code language file_path : string,
         Forall (fun e => e_complexity e = 1%Q /\ (1 <= e_complexity e)%Q)
           (extract_elements_with_regex source_code language file_path))
  /\ calculate_python_complexity None = 1%Q
  /\ calculate_js_complexity None = 1%Q.
Proof.
  split; [|split; [|split]]; try reflexivity.
  - intros tree language file_path elements H.
    apply extract_code_elements_made in H.
    induction H as [|node e nodes els M _ IH]; constructor; [|exact IH].
    exact (made_from_complexity language file_path node e M).
  - intros source_code language file_path.
    unfold extract_elements_with_regex.
    destruct (String.eqb language "python");
      [|destruct (String.eqb language "javascript")];
      repeat (apply append_matches_Forall;
              [intros els m; split; [reflexivity|apply Qle_refl]|]);
      constructor.
Qed.

Lemma C9_complexity_witness :
  (exists elements : list CodeElement,
      extract_code_elements assignments_tree "python" "a.py" = Ok elements
      /\ map e_type elements = ["variable"; "class"; "variable"]
      /\ map e_complexity elements = [1%Q; 1%Q; 1%Q]
      /\ Forall2
           (fun node e =>
              (1 <= e_complexity e)%Q
              /\ (child_by_field_name node "body" = None ->
                  e_complexity e = 1%Q)
              /\ (e_type e = "variable" -> e_complexity e = 1%Q)
              /\ ("python" = "javascript" -> e_type e = "class" ->
                  e_complexity e = 1%Q))
           (declaration_nodes "python" assignments_tree) elements)
  /\ (exists elements : list CodeElement,
         extract_code_elements js_class_tree "javascript" "a.js" = Ok elements
         /\ map e_type elements = ["class"]
         /\ Forall2
              (fun node e =>
                 (1 <= e_complexity e)%Q
                 /\ (child_by_field_name node "body" = None ->
                     e_complexity e = 1%Q)
                 /\ (e_type e = "variable" -> e_complexity e = 1%Q)
                 /\ ("javascript" = "javascript" -> e_type e = "class" ->
                     e_complexity e = 1%Q))
              (declaration_nodes "javascript" js_class_tree) elements)
  /\ Forall (fun e => e_complexity e = 1%Q /\ (1 <= e_complexity e)%Q)
       (extract_elements_with_regex foo_source "python" "foo.py").
Proof.
  split; [|split].
  - eexists. split; [vm_compute; reflexivity|].
    split; [reflexivity|]. split; [reflexivity|].
    apply (proj1 C9_complexity_at_least_one assignments_tree "python" "a.py").
    vm_compute. reflexivity.
  - eexists. split; [vm_compute; reflexivity|]. split; [reflexivity|].
    apply (proj1 C9_complexity_at_least_one js_class_tree "javascript" "a.js").
    vm_compute. reflexivity.
  - apply (proj1 (proj2 C9_complexity_at_least_one)).
Defined.

(** ** Languages without extraction rules *)

Lemma traverse_tree_other (language file_path : string) :
  String.eqb language "python" = false ->
  String.eqb language "javascript" = false ->
  forall n st, traverse_tree language file_path n st = Ok st.
Proof.
  intros Hp Hj n. induction n as [ty fn tx sp ep ch IH] using Node_tree_ind.
  intros [elements counter]. cbn [traverse_tree]. rewrite Hp, Hj.
  cbn [bind]. apply fold_bind_id. exact IH.
Qed.

Lemma traverse_for_relationships_other (language file_path : string) :
  String.eqb language "python" = false ->
  String.eqb language "javascript" = false ->
  forall n cur rels,
    traverse_for_relationships language file_path n cur rels = Ok rels.
Proof.
  intros Hp Hj n. induction n as [ty fn tx sp ep ch IH] using Node_tree_ind.
  intros cur rels. cbn [traverse_for_relationships]. rewrite Hp, Hj.
  cbn [bind].
  apply (fold_bind_id
           (fun c rels => traverse_for_relationships language file_path c cur rels)).
  eapply Forall_impl; [|exact IH]. intros c Hc st. apply Hc.
Qed.

(** C10. For a language other than python and javascript, structured
    element extraction and relationship extraction return empty lists on
    every syntax tree; typescript, java, cpp and c, for which
    [initialize_parsers] sets up parsers, are such languages. *)
Theorem C10_other_languages_extract_nothing :
  (forall (tree : Node) (language file_path : string),
      language <> "python" -> language <> "javascript" ->
      extract_code_elements tree language file_path = Ok []
      /\ extract_relationships tree language file_path = Ok [])
  /\ (forall language : string,
         In language ["typescript"; "java"; "cpp"; "c"] ->
         In language parser_languages
         /\ forall (tree : Node) (file_path : string),
             extract_code_elements tree language file_path = Ok []
             /\ extract_relationships tree language file_path = Ok []).
Proof.
  assert (gen : forall (tree : Node) (language file_path : string),
      language <> "python" -> language <> "javascript" ->
      extract_code_elements tree language file_path = Ok []
      /\ extract_relationships tree language file_path = Ok []).
  { intros tree language file_path Hp Hj.
    apply String.eqb_neq in Hp, Hj.
    unfold extract_code_elements, extract_relationships.
    rewrite traverse_tree_other, traverse_for_relationships_other by assumption.
    split; reflexivity. }
  split; [exact gen|].
  intros language Hin. simpl in Hin.
  destruct Hin as [<-|[<-|[<-|[<-|[]]]]];
    (split; [simpl; tauto | intros; apply gen; discriminate]).
Qed.

Lemma C10_other_languages_witness :
  extract_code_elements call_tree "typescript" "a.ts" = Ok []
  /\ extract_relationships call_tree "typescript" "a.ts" = Ok [].
Proof.
  apply (proj1 C10_other_languages_extract_nothing); discriminate.
Defined.

(** ** The parsers set up by [initialize_parsers] *)

Lemma initialize_fold_languages
  (make_parser : string -> string -> result Parser)
  (grammars : list (string * string)) :
  (forall grammar language, exists p, make_parser grammar language = Ok p) ->
  forall acc : list (string * Parser),
    map fst
      (fold_left
         (fun acc lg =>
            match make_parser (snd lg) (fst lg) with
            | Ok p => (acc ++ [(fst lg, p)])%list
            | Raise _ => acc
            end) grammars acc)
    = (map fst acc ++ map fst grammars)%list.
Proof.
  intros Hok. induction grammars as [|lg l IH]; intros acc.
  - simpl. rewrite app_nil_r. reflexivity.
  - cbn [fold_left]. destruct (Hok (snd lg) (fst lg)) as [p Hp].
    rewrite Hp, IH, map_app, <- app_assoc. reflexivity.
Qed.

(** When tree-sitter is available and every grammar loads, parsers exist
    for python, javascript, typescript, java, cpp and c. *)
Lemma initialize_parsers_languages
  (make_parser : string -> string -> result Parser)
  (old : list (string * Parser)) :
  (forall grammar language, exists p, make_parser grammar language = Ok p) ->
  map fst (fst (initialize_parsers true make_parser old)) = parser_languages
  /\ snd (initialize_parsers true make_parser old) = "success".
Proof.
  intros Hok. unfold initialize_parsers. cbn [negb fst snd].
  split; [|reflexivity].
  rewrite (initialize_fold_languages make_parser parser_grammars Hok).
  reflexivity.
Qed.

(** ** Imports and calls in structured mode *)

Lemma count_imports_snoc rels r :
  count_imports (rels ++ [r]) = count_imports rels + (if is_imports r then 1 else 0).
Proof.
  unfold count_imports. rewrite filter_app, length_app. simpl.
  destruct (is_imports r); reflexivity.
Qed.

(** In Python trees an imports relationship comes from a node of type
    import_from_statement only. *)
Lemma python_imports_bounded (file_path : string) (cur : option string)
  (n : Node) :
  forall rels rels',
    traverse_for_relationships "python" file_path n cur rels = Ok rels' ->
    count_imports rels'
    <= count_imports rels + count_nodes (String.eqb "import_from_statement") n.
Proof.
  induction n as [ty fn tx sp ep ch IH] using Node_tree_ind.
  intros rels rels' H. cbn [traverse_for_relationships] in H.
  match type of H with
  | bind ?m _ = _ => destruct m as [rels1|e] eqn:E; [|discriminate]
  end.
  cbn [bind] in H. rewrite count_nodes_eq.
  assert (H1 : count_imports rels1
               <= count_imports rels
                  + (if String.eqb "import_from_statement" ty then 1 else 0)).
  { cbn [String.eqb Ascii.eqb Bool.eqb] in E.
    destruct (String.eqb ty "call") eqn:Ec.
    - destruct (extract_call_name _); [|discriminate]. cbn [bind] in E.
      injection E as <-. destruct (truthy a); [|lia].
      rewrite count_imports_snoc. cbn. lia.
    - destruct (String.eqb ty "import_from_statement") eqn:Ei.
      + rewrite String.eqb_sym, Ei.
        destruct (extract_import_module _); [|discriminate]. cbn [bind] in E.
        injection E as <-. destruct (truthy a); [|lia].
        rewrite count_imports_snoc. cbn. lia.
      + destruct (String.eqb ty "attribute").
        * destruct (extract_attribute_name _); [|discriminate]. cbn [bind] in E.
          injection E as <-.
          destruct (truthy a && truthy_opt cur); [|lia].
          rewrite count_imports_snoc. cbn. lia.
        * injection E as <-. lia. }
  pose proof (fold_bind_measure count_imports
                (count_nodes (String.eqb "import_from_statement"))
                (fun c rels => traverse_for_relationships "python" file_path c cur rels)
                ch) as F.
  specialize (F ltac:(eapply Forall_impl; [|exact IH]; intros c Hc st st'; apply Hc)
                rels1 rels' H).
  unfold sum_counts. lia.
Qed.

(** Structured extraction on a Python tree with at most one from-import
    node yields at most one imports relationship. *)
Lemma one_from_import_one_relationship (tree : Node) (file_path : string)
  (rels : list CodeRelationship) :
  count_nodes (String.eqb "import_from_statement") tree <= 1 ->
  extract_relationships tree "python" file_path = Ok rels ->
  count_imports rels <= 1.
Proof.
  intros Hn H. unfold extract_relationships in H.
  apply python_imports_bounded in H.
  change (count_imports []) with 0 in H. lia.
Qed.

(** C2. For the text [import os] / [from sys import path] the regex
    fallback yields the two imports relationships with targets os and sys
    and confidence 0.9, while structured extraction on the syntax tree of
    the same text yields no relationship at all. *)
Theorem C2_imports_regex_two_structured_none :
  forall file_path : string,
    extract_relationships_with_regex imports_source "python" file_path
    = [ {| r_type := "imports"; r_source := Some file_path; r_target := "os";
           r_line := 1; r_context := "import os";
           r_confidence := (9 # 10)%Q; r_is_direct := true |};
        {| r_type := "imports"; r_source := Some file_path; r_target := "sys";
           r_line := 2; r_context := "from sys import path";
           r_confidence := (9 # 10)%Q; r_is_direct := true |} ]
    /\ extract_relationships imports_tree "python" file_path = Ok [].
Proof. intros file_path. split; vm_compute; reflexivity. Qed.

Lemma traverse_for_relationships_sources (language file_path : string)
  (cur : option string) (n : Node) :
  forall rels rels',
    Forall (source_as_recorded file_path cur) rels ->
    traverse_for_relationships language file_path n cur rels = Ok rels' ->
    Forall (source_as_recorded file_path cur) rels'.
Proof.
  induction n as [ty fn tx sp ep ch IH] using Node_tree_ind.
  intros rels rels' Hrels H. cbn [traverse_for_relationships] in H.
  match type of H with
  | bind ?m _ = _ => destruct m as [rels1|e] eqn:E; [|discriminate]
  end.
  cbn [bind] in H.
  assert (H1 : Forall (source_as_recorded file_path cur) rels1).
  { repeat match type of E with
           | context [if ?b then _ else _] => destruct b
           | context [bind ?m _] => destruct m; cbn [bind] in E
           end;
      try discriminate; injection E as <-; try exact Hrels;
      (apply Forall_snoc; [exact Hrels|]);
      (repeat split; cbn [r_type r_source]; intros; first [reflexivity|discriminate]). }
  revert H1 H.
  apply (fold_bind_inv (Forall (source_as_recorded file_path cur))
           (fun c rels => traverse_for_relationships language file_path c cur rels)).
  eapply Forall_impl; [|exact IH]. intros c Hc st st'. apply Hc.
Qed.

(** Whatever the tree, a calls relationship of structured mode has no
    source, and an imports relationship has the file path as its source. *)
Lemma extract_relationships_sources (tree : Node) (language file_path : string)
  (rels : list CodeRelationship) :
  extract_relationships tree language file_path = Ok rels ->
  Forall (fun r => (r_type r = "calls" -> r_source r = None)
                   /\ (r_type r = "imports" -> r_source r = Some file_path))
    rels.
Proof.
  intros H. unfold extract_relationships in H.
  apply traverse_for_relationships_sources in H; [|constructor].
  eapply Forall_impl; [|exact H]. intros r (Hc & Hi & _). split; assumption.
Qed.

(** C4. For [def f():] with the body [g()], the call of g lies inside the
    function f, whose element id is func_0_<file path>; the calls
    relationship recorded for it has no source element. *)
Theorem C4_call_inside_function_has_no_source :
  forall file_path : string,
    (exists el : CodeElement,
        extract_code_elements call_tree "python" file_path = Ok [el]
        /\ e_id el = "func_0_" ++ file_path
        /\ e_name el = "f" /\ e_start_line el = 1 /\ e_end_line el = 2)
    /\ extract_relationships call_tree "python" file_path
       = Ok [ {| r_type := "calls"; r_source := None; r_target := "g";
                 r_line := 2; r_context := "g()";
                 r_confidence := (8 # 10)%Q; r_is_direct := true |} ].
Proof.
  intros file_path. split.
  - eexists. split; [vm_compute; reflexivity|]. repeat split.
  - vm_compute. reflexivity.
Qed.

(** ** File-level complexity *)

Lemma analyze_node_fold_other (ch : list Node) :
  Forall (fun c => forall st,
              count_nodes (fun ty => str_in ty ["function_definition"; "class_definition"]) c = 0 ->
              fst (analyze_node c st) = fst st) ch ->
  forall st,
    sum_counts (fun ty => str_in ty ["function_definition"; "class_definition"]) ch = 0 ->
    fst (fold_left (fun acc c => analyze_node c acc) ch st) = fst st.
Proof.
  induction 1 as [|c l Hc _ IH]; intros st Hsum; [reflexivity|].
  change (sum_counts ?p (c :: l))
    with (count_nodes p c + sum_counts p l) in Hsum.
  cbn [fold_left]. rewrite IH by lia. apply Hc. lia.
Qed.

(** On a tree without function_definition and class_definition nodes, as
    every JavaScript tree is, the total stays 0.0. *)
Lemma analyze_node_other (n : Node) :
  forall st,
    count_nodes (fun ty => str_in ty ["function_definition"; "class_definition"]) n = 0 ->
    fst (analyze_node n st) = fst st.
Proof.
  induction n as [ty fn tx sp ep ch IH] using Node_tree_ind.
  intros [total count] Hn. rewrite count_nodes_eq in Hn.
  cbn [analyze_node].
  rewrite (analyze_node_fold_other ch IH) by (unfold sum_counts in *; lia).
  unfold str_in in *. cbn [existsb] in *.
  destruct (String.eqb ty "function_definition"); [simpl in Hn; lia|].
  destruct (String.eqb ty "class_definition"); [simpl in Hn; lia|].
  cbn [orb]. destruct (String.eqb ty "method_definition" || false); reflexivity.
Qed.

Lemma file_score_zero_without_definitions (tree : Node) :
  count_nodes (fun ty => str_in ty ["function_definition"; "class_definition"]) tree = 0 ->
  (calculate_complexity_score (Some tree) == 0)%Q.
Proof.
  intros Hn. unfold calculate_complexity_score.
  pose proof (analyze_node_other tree (0%Q, 0) Hn) as H.
  destruct (analyze_node tree (0%Q, 0)) as [total count]. simpl in H.
  subst total. unfold Qdiv. apply Qmult_0_l.
Qed.

(** ** The file-level score of a Python tree *)

Lemma scored_total_snoc (els : list CodeElement) (e : CodeElement) :
  (scored_total (els ++ [e])
   == scored_total els + (if is_scored_element e then e_complexity e else 0))%Q.
Proof.
  unfold scored_total. rewrite filter_app, map_app. cbn [filter].
  induction (map e_complexity (filter is_scored_element els)) as [|x l IH].
  - destruct (is_scored_element e); simpl; ring.
  - simpl. rewrite IH. ring.
Qed.

Lemma scored_count_snoc (els : list CodeElement) (e : CodeElement) :
  scored_count (els ++ [e])
  = scored_count els + (if is_scored_element e then 1 else 0).
Proof.
  unfold scored_count. rewrite filter_app, length_app. cbn [filter].
  destruct (is_scored_element e); reflexivity.
Qed.

Lemma extract_python_function_fields node file_path id el :
  extract_python_function node file_path id = Ok el ->
  e_type el = "function"
  /\ e_complexity el = calculate_python_complexity (child_by_field_name node "body").
Proof.
  unfold extract_python_function. intros H.
  destruct (extract_python_docstring node); [|discriminate].
  destruct (extract_python_dependencies node); [|discriminate].
  injection H as <-. split; reflexivity.
Qed.

Lemma extract_python_class_fields node file_path id el :
  extract_python_class node file_path id = Ok el ->
  e_type el = "class"
  /\ e_complexity el = calculate_python_complexity (child_by_field_name node "body").
Proof.
  unfold extract_python_class. intros H.
  destruct (extract_python_docstring node); [|discriminate].
  injection H as <-. split; reflexivity.
Qed.

Lemma agrees_fold (file_path : string) (ch : list Node) :
  Forall (fun c => forall st st' a,
              count_nodes (String.eqb "method_definition") c = 0 ->
              agrees (fst st) a ->
              traverse_tree "python" file_path c st = Ok st' ->
              agrees (fst st') (analyze_node c a)) ch ->
  forall st st' a,
    sum_counts (String.eqb "method_definition") ch = 0 ->
    agrees (fst st) a ->
    fold_left (fun acc c => st <- acc ;; traverse_tree "python" file_path c st)
      ch (Ok st) = Ok st' ->
    agrees (fst st') (fold_left (fun acc c => analyze_node c acc) ch a).
Proof.
  induction 1 as [|c l Hc _ IH]; intros st st' a Hsum Ha Hfold.
  - injection Hfold as <-. exact Ha.
  - change (sum_counts ?p (c :: l))
      with (count_nodes p c + sum_counts p l) in Hsum.
    cbn [fold_left bind] in *.
    destruct (traverse_tree "python" file_path c st) as [st1|e] eqn:E.
    + apply (IH st1 st' (analyze_node c a)); [lia| |exact Hfold].
      apply (Hc st st1 a); [lia|exact Ha|exact E].
    + rewrite fold_bind_raise in Hfold. discriminate.
Qed.

Lemma agrees_traverse (file_path : string) (n : Node) :
  forall st st' a,
    count_nodes (String.eqb "method_definition") n = 0 ->
    agrees (fst st) a ->
    traverse_tree "python" file_path n st = Ok st' ->
    agrees (fst st') (analyze_node n a).
Proof.
  induction n as [ty fn tx sp ep ch IH] using Node_tree_ind.
  intros [elements counter] st' [total count] Hn Ha H.
  rewrite count_nodes_eq in Hn.
  assert (Hm : String.eqb ty "method_definition" = false).
  { rewrite String.eqb_sym.
    destruct (String.eqb "method_definition" ty); [simpl in Hn; lia|reflexivity]. }
  cbn [traverse_tree] in H. cbn [analyze_node].
  match type of H with
  | bind ?m _ = _ => destruct m as [st1|e] eqn:E; [|discriminate]
  end.
  cbn [bind] in H.
  refine (agrees_fold file_path ch IH st1 st' _ ltac:(lia) _ H).
  clear H. cbn [String.eqb Ascii.eqb Bool.eqb] in E.
  destruct Ha as [Ht Hc]. cbn [fst snd] in Ht, Hc.
  unfold str_in. cbn [existsb]. rewrite Hm.
  destruct (String.eqb ty "function_definition") eqn:Ef.
  - destruct (extract_python_function _ _ _) as [el|] eqn:F; [|discriminate].
    injection E as <-. apply extract_python_function_fields in F as [Fty Fc].
    cbn [orb fst]. split; cbn [fst snd].
    + rewrite scored_total_snoc. unfold is_scored_element. rewrite Fty, Fc.
      cbn. rewrite Ht. reflexivity.
    + rewrite scored_count_snoc. unfold is_scored_element. rewrite Fty, Hc.
      cbn. lia.
  - destruct (String.eqb ty "class_definition") eqn:Ec.
    + destruct (extract_python_class _ _ _) as [el|] eqn:F; [|discriminate].
      injection E as <-. apply extract_python_class_fields in F as [Fty Fc].
      cbn [orb fst]. split; cbn [fst snd].
      * rewrite scored_total_snoc. unfold is_scored_element. rewrite Fty, Fc.
        cbn. rewrite Ht. reflexivity.
      * rewrite scored_count_snoc. unfold is_scored_element. rewrite Fty, Hc.
        cbn. lia.
    + cbn [orb]. destruct (String.eqb ty "assignment").
      * injection E as <-. split; cbn [fst snd].
        -- rewrite scored_total_snoc. cbn. rewrite Ht. ring.
        -- rewrite scored_count_snoc. cbn. lia.
      * injection E as <-. split; assumption.
Qed.

(** On a Python tree, which has no method_definition node, the file-level
    score is the mean over the function and class elements. *)
Lemma python_file_score_is_mean (tree : Node) (file_path : string)
  (elements : list CodeElement) :
  count_nodes (String.eqb "method_definition") tree = 0 ->
  extract_code_elements tree "python" file_path = Ok elements ->
  (calculate_complexity_score (Some tree) == mean_complexity elements)%Q.
Proof.
  intros Hn H. unfold extract_code_elements in H.
  destruct (traverse_tree "python" file_path tree ([], 0)) as [st|] eqn:E;
    [|discriminate].
  injection H as <-.
  pose proof (agrees_traverse file_path tree ([], 0) st (0%Q, 0) Hn) as A.
  specialize (A ltac:(split; reflexivity) E).
  unfold calculate_complexity_score, mean_complexity.
  destruct (analyze_node tree (0%Q, 0)) as [total count].
  destruct A as [At Ac]. cbn [fst snd] in At, Ac.
  fold (scored_total (fst st)). fold (scored_count (fst st)).
  rewrite At, Ac. reflexivity.
Qed.

(** C6. For the JavaScript text [function foo() { if (x) {} }] the one
    element extracted is the function foo with complexity 2.0, so the mean
    over the function, class and method elements is 2.0, while the
    file-level score computed from the same tree is 0.0. For
    [class A { m() { if (x) {} } }] the one element is the class A with
    complexity 1.0, and the file-level score, which counts the
    method_definition node but adds nothing for it, is again 0.0. *)
Theorem C6_javascript_file_score_is_zero :
  forall file_path : string,
    (exists el : CodeElement,
        extract_code_elements js_tree "javascript" file_path = Ok [el]
        /\ e_type el = "function"
        /\ (e_complexity el == 2)%Q
        /\ (mean_complexity [el] == 2)%Q
        /\ (calculate_complexity_score (Some js_tree) == 0)%Q
        /\ ~ (calculate_complexity_score (Some js_tree) == mean_complexity [el])%Q)
    /\ (exists el : CodeElement,
           extract_code_elements js_class_tree "javascript" file_path = Ok [el]
           /\ e_type el = "class"
           /\ (mean_complexity [el] == 1)%Q
           /\ analyze_node js_class_tree (0%Q, 0) = (0%Q, 1)
           /\ (calculate_complexity_score (Some js_class_tree) == 0)%Q).
Proof.
  intros file_path. split.
  - eexists. split; [vm_compute; reflexivity|].
    repeat split; try (vm_compute; reflexivity).
    vm_compute. discriminate.
  - eexists. split; [vm_compute; reflexivity|].
    repeat split; vm_compute; reflexivity.
Qed.

(** ** The matcher: repetitions never run short of rounds *)

(** A match attempt hands to its continuation only states that have no
    more text ahead than the state it started from. *)
Lemma star_rounds_ext
  (body : mstate -> (mstate -> option mstate) -> option mstate) :
  (forall s k1 k2,
      (forall s1, length (after s1) <= length (after s) -> k1 s1 = k2 s1) ->
      body s k1 = body s k2) ->
  forall n s k1 k2,
    (forall s1, length (after s1) <= length (after s) -> k1 s1 = k2 s1) ->
    star_rounds body k1 n s = star_rounds body k2 n s.
Proof.
  intros Hbody. induction n as [|n IH]; intros s k1 k2 Hk; cbn [star_rounds].
  - apply Hk. lia.
  - rewrite (Hk s) by lia.
    rewrite (Hbody s _ (fun s1 =>
               if (length (after s1) <? length (after s))%nat
               then star_rounds body k2 n s1 else None)).
    + reflexivity.
    + intros s1 H1. destruct (Nat.ltb_spec (length (after s1)) (length (after s)));
        [|reflexivity].
      apply IH. intros s2 H2. apply Hk. lia.
Qed.

Lemma mtch_ext (r : regex) :
  forall s k1 k2,
    (forall s1, length (after s1) <= length (after s) -> k1 s1 = k2 s1) ->
    mtch r s k1 = mtch r s k2.
Proof.
  induction r as [|p|r1 IH1 r2 IH2|r1 IH1 r2 IH2|r1 IH1|n r1 IH1|];
    intros s k1 k2 Hk; cbn [mtch].
  - apply Hk. lia.
  - destruct (after s) as [|c rest] eqn:E; [reflexivity|].
    destruct (p c); [|reflexivity]. apply Hk. cbn [after length]. lia.
  - apply IH1. intros s1 H1. apply IH2. intros s2 H2. apply Hk. lia.
  - rewrite (IH1 s k1 k2 Hk), (IH2 s k1 k2 Hk). reflexivity.
  - apply star_rounds_ext; [exact IH1|exact Hk].
  - apply IH1. intros s1 H1. apply Hk. cbn [after]. exact H1.
  - rewrite (Hk s) by lia. reflexivity.
Qed.

Lemma star_rounds_none
  (body : mstate -> (mstate -> option mstate) -> option mstate) :
  (forall s, body s (fun _ => None) = None) ->
  (forall s k1 k2,
      (forall s1, length (after s1) <= length (after s) -> k1 s1 = k2 s1) ->
      body s k1 = body s k2) ->
  forall n s, star_rounds body (fun _ => None) n s = None.
Proof.
  intros Hnone Hext. induction n as [|n IH]; intros s; cbn [star_rounds];
    [reflexivity|].
  rewrite (Hext s _ (fun _ => None)); [rewrite Hnone; reflexivity|].
  intros s1 _. destruct (_ <? _)%nat; [apply IH|reflexivity].
Qed.

Lemma mtch_none (r : regex) : forall s, mtch r s (fun _ => None) = None.
Proof.
  induction r as [|p|r1 IH1 r2 IH2|r1 IH1 r2 IH2|r1 IH1|n r1 IH1|];
    intros s; cbn [mtch].
  - reflexivity.
  - destruct (after s); [reflexivity|]. destruct (p a); reflexivity.
  - rewrite (mtch_ext r1 s _ (fun _ => None)); [apply IH1|].
    intros s1 _. apply IH2.
  - rewrite IH1. apply IH2.
  - apply star_rounds_none; [exact IH1|apply mtch_ext].
  - apply IH1.
  - destruct (at_boundary s); reflexivity.
Qed.

(** Any two bounds that are at least the length of the text ahead give the
    same result. *)
Lemma star_rounds_enough (r : regex) (k : mstate -> option mstate) :
  forall n m s,
    length (after s) <= n -> length (after s) <= m ->
    star_rounds (mtch r) k n s = star_rounds (mtch r) k m s.
Proof.
  assert (zero : forall m s, length (after s) = 0 ->
                             star_rounds (mtch r) k m s = k s).
  { intros [|m] s Hs; cbn [star_rounds]; [reflexivity|].
    rewrite (mtch_ext r s _ (fun _ => None)); [rewrite mtch_none; reflexivity|].
    intros s1 _. rewrite Hs. reflexivity. }
  induction n as [|n IH]; intros m s Hn Hm.
  - rewrite (zero m s) by lia. reflexivity.
  - destruct m as [|m]; [rewrite (zero (S n) s) by lia; reflexivity|].
    cbn [star_rounds].
    rewrite (mtch_ext r s _ (fun s1 =>
               if (length (after s1) <? length (after s))%nat
               then star_rounds (mtch r) k m s1 else None)); [reflexivity|].
    intros s1 _.
    destruct (Nat.ltb_spec (length (after s1)) (length (after s)));
      [|reflexivity].
    apply IH; lia.
Qed.

(** The defining equation of a greedy repetition: one more round of the
    body that reads something, followed by the repetition again; failing
    that, the rest of the pattern. *)
Lemma mtch_Star (r : regex) (s : mstate) (k : mstate -> option mstate) :
  mtch (Star r) s k
  = match mtch r s
            (fun s1 =>
               if (length (after s1) <? length (after s))%nat
               then mtch (Star r) s1 k else None) with
    | Some s' => Some s'
    | None => k s
    end.
Proof.
  cbn [mtch]. destruct (length (after s)) as [|n] eqn:E.
  - cbn [star_rounds].
    rewrite (mtch_ext r s _ (fun _ => None)); [rewrite mtch_none; reflexivity|].
    intros s1 _. reflexivity.
  - cbn [star_rounds].
    rewrite (mtch_ext r s _ (fun s1 =>
               if (length (after s1) <? S n)%nat
               then star_rounds (mtch r) k (length (after s1)) s1 else None));
      [reflexivity|].
    intros s1 _. rewrite E.
    destruct (Nat.ltb_spec (length (after s1)) (S n)); [|reflexivity].
    apply star_rounds_enough; lia.
Qed.

(** ** The keyword patterns of the regex scorer *)

Lemma mtch_LitL (w : list ascii) :
  forall b a g k,
    mtch (LitL w) (mkState b a g) k
    = if starts_with w a
      then k (mkState (rev_append w b) (skipn (length w) a) g)
      else None.
Proof.
  induction w as [|c w IH]; intros b a g k.
  - reflexivity.
  - destruct a as [|d a]; [reflexivity|].
    cbn [LitL mtch Lit1 after before groups starts_with].
    destruct (Ascii.eqb c d) eqn:E; [|reflexivity].
    apply Ascii.eqb_eq in E. subst d.
    rewrite IH. reflexivity.
Qed.

Lemma word_behind_rev_append (w b : list ascii) :
  w <> [] -> forallb is_word w = true ->
  word_behind (rev_append w b) = true.
Proof.
  revert b. induction w as [|c w IH]; intros b Hne Hall; [congruence|].
  simpl in Hall. apply andb_true_iff in Hall as [Hc Hall].
  destruct w as [|d w].
  - simpl. exact Hc.
  - simpl rev_append. apply (IH (c :: b)); [discriminate|exact Hall].
Qed.

Lemma starts_with_word_ahead (w a : list ascii) :
  w <> [] -> forallb is_word w = true -> starts_with w a = true ->
  word_ahead a = true.
Proof.
  intros Hne Hall Hsw. destruct w as [|c w]; [congruence|].
  destruct a as [|d a]; [discriminate|].
  simpl in *. apply andb_true_iff in Hall as [Hc _].
  apply andb_true_iff in Hsw as [E _]. apply Ascii.eqb_eq in E. subst d.
  exact Hc.
Qed.

Lemma starts_with_firstn (w a : list ascii) :
  starts_with w a = true -> firstn (length w) a = w.
Proof.
  revert a. induction w as [|c w IH]; intros a H; [reflexivity|].
  destruct a as [|d a]; [discriminate|].
  simpl in H. apply andb_true_iff in H as [E H].
  apply Ascii.eqb_eq in E. subst d. simpl. f_equal. apply IH, H.
Qed.

Lemma rev_append_length {A} (w b : list A) :
  length (rev_append w b) = length w + length b.
Proof. rewrite rev_append_rev, length_app, length_rev. reflexivity. Qed.

(** One attempt of [\bword\b] succeeds exactly on a whole-word occurrence,
    and then spans the word. *)
Lemma match_here_keyword (w : string) (b a : list ascii) :
  chars w <> [] -> forallb is_word (chars w) = true ->
  match match_here (keyword_pattern w) b a with
  | Some m =>
      whole_word_here (chars w) b a = true
      /\ m_start m = length b /\ m_end m = length (chars w) + length b
  | None => whole_word_here (chars w) b a = false
  end.
Proof.
  intros Hne Hall. unfold match_here, keyword_pattern, Lit, whole_word_here.
  cbn [mtch]. unfold at_boundary at 1. cbn [before after].
  destruct (starts_with (chars w) a) eqn:Hsw.
  - rewrite (starts_with_word_ahead _ _ Hne Hall Hsw).
    destruct (word_behind b); cbn [xorb negb andb]; [reflexivity|].
    rewrite mtch_LitL, Hsw. unfold at_boundary. cbn [before after].
    rewrite (word_behind_rev_append _ _ Hne Hall).
    destruct (word_ahead (skipn (length (chars w)) a)); cbn [xorb negb andb].
    + reflexivity.
    + cbn [m_start m_end before]. rewrite rev_append_length. auto.
  - destruct (xorb (word_behind b) (word_ahead a)); [|reflexivity].
    rewrite mtch_LitL, Hsw. reflexivity.
Qed.

Lemma whole_word_here_nil (w b : list ascii) :
  w <> [] -> whole_word_here w b [] = false.
Proof. destruct w; [congruence|reflexivity]. Qed.

Lemma whole_word_here_behind (w b a : list ascii) :
  word_behind b = true -> whole_word_here w b a = false.
Proof.
  intros H. unfold whole_word_here. rewrite H.
  destruct (starts_with w a); reflexivity.
Qed.

(** The scan finds every whole-word occurrence, each once. *)
Lemma scan_keyword (w : string) :
  chars w <> [] -> forallb is_word (chars w) = true ->
  forall a b skip,
    (skip = 0 \/ (word_behind b = true
                  /\ forallb is_word (firstn skip a) = true)) ->
    length (scan (keyword_pattern w) b a skip)
    = occurrences_from (chars w) b a.
Proof.
  intros Hne Hall. induction a as [|c a IH]; intros b skip Hinv.
  - destruct skip; [|reflexivity]. cbn [scan occurrences_from].
    pose proof (match_here_keyword w b [] Hne Hall) as Hm.
    destruct (match_here (keyword_pattern w) b []) as [m|]; [|reflexivity].
    destruct Hm as [Hm _]. rewrite whole_word_here_nil in Hm by exact Hne.
    discriminate.
  - destruct skip as [|skip].
    + cbn [scan occurrences_from].
      pose proof (match_here_keyword w b (c :: a) Hne Hall) as Hm.
      destruct (match_here (keyword_pattern w) b (c :: a)) as [m|].
      * destruct Hm as (Hw & Hs & He). rewrite Hw, Hs, He.
        cbn [length Nat.add]. f_equal. apply IH.
        unfold whole_word_here in Hw.
        apply andb_true_iff in Hw as [Hw _]. apply andb_true_iff in Hw as [Hsw _].
        pose proof (starts_with_firstn _ _ Hsw) as Hf.
        destruct (chars w) as [|c0 w']; [congruence|].
        right. simpl in Hsw, Hall, Hf.
        apply andb_true_iff in Hsw as [E Hsw]. apply Ascii.eqb_eq in E. subst c0.
        apply andb_true_iff in Hall as [Hc Hall]. split; [exact Hc|].
        replace (Nat.pred (length (c :: w') + length b - length b)) with (length w')
          by (cbn [length]; lia).
        injection Hf as Hf. rewrite Hf. exact Hall.
      * rewrite Hm. simpl. apply IH. left; reflexivity.
    + cbn [scan occurrences_from].
      destruct Hinv as [Hinv|[Hb Hf]]; [discriminate|].
      rewrite (whole_word_here_behind _ _ _ Hb). simpl plus.
      apply IH. simpl in Hf. apply andb_true_iff in Hf as [Hc Hf].
      right. split; [exact Hc|exact Hf].
Qed.

Lemma word_ahead_skipn (a : list ascii) (n : nat) :
  word_ahead (skipn n a) = word_char_at a n.
Proof.
  revert a. induction n as [|n IH]; intros a.
  - destruct a; reflexivity.
  - destruct a as [|c a]; [reflexivity|]. simpl skipn. rewrite IH. reflexivity.
Qed.

Lemma word_char_at_app (b a : list ascii) (n : nat) :
  word_char_at (b ++ a) (length b + n) = word_char_at a n.
Proof.
  unfold word_char_at. rewrite nth_error_app2 by lia.
  replace (length b + n - length b) with n by lia. reflexivity.
Qed.

Lemma whole_word_here_at (w b a : list ascii) :
  whole_word_here w b a = whole_word_at w (rev b ++ a) (length b).
Proof.
  unfold whole_word_here, whole_word_at.
  assert (Hs : skipn (length b) (rev b ++ a) = a).
  { rewrite <- (length_rev b). rewrite skipn_app, Nat.sub_diag, skipn_all.
    reflexivity. }
  rewrite Hs. f_equal; [f_equal|].
  - f_equal. destruct b as [|x b]; [reflexivity|].
    cbn [length word_behind rev]. unfold word_char_at.
    rewrite <- app_assoc. rewrite nth_error_app2 by (rewrite length_rev; lia).
    rewrite length_rev, Nat.sub_diag. reflexivity.
  - f_equal. rewrite word_ahead_skipn.
    rewrite <- (length_rev b) at 1. rewrite word_char_at_app. reflexivity.
Qed.

Lemma occurrences_from_filter (w : list ascii) :
  forall a b,
    occurrences_from w b a
    = length (filter (whole_word_at w (rev b ++ a)) (seq (length b) (length a))).
Proof.
  induction a as [|c a IH]; intros b; [reflexivity|].
  cbn [occurrences_from length seq filter].
  rewrite whole_word_here_at, (IH (c :: b)).
  cbn [rev length]. rewrite <- app_assoc. cbn [app].
  destruct (whole_word_at w (rev b ++ c :: a) (length b)); reflexivity.
Qed.

Lemma findall_len_keyword (w source_code : string) :
  chars w <> [] -> forallb is_word (chars w) = true ->
  findall_len (keyword_pattern w) source_code = count_whole_word w source_code.
Proof.
  intros Hne Hall. unfold findall_len, finditer, count_whole_word.
  rewrite (scan_keyword w Hne Hall) by (left; reflexivity).
  rewrite occurrences_from_filter. reflexivity.
Qed.

(** C7. In regex fallback mode the complexity of a text is exactly 1.0 plus
    the number of whole-word occurrences of if, for, while, try, and, or
    anywhere in it; the scorer sees characters only, so an occurrence inside
    a string literal or a comment counts like one in code. *)
Theorem C7_regex_complexity_counts_keywords :
  (forall source_code : string,
      (calculate_complexity_with_regex source_code
       == 1 + q_of_nat (list_sum (map (fun w => count_whole_word w source_code)
                                    complexity_keywords)))%Q)
  /\ (calculate_complexity_with_regex "s = 'try'  # if x or y" == 4)%Q.
Proof.
  split; [|vm_compute; reflexivity].
  intros source_code. unfold calculate_complexity_with_regex.
  rewrite !findall_len_keyword by (first [discriminate | reflexivity]).
  unfold complexity_keywords. cbn [map list_sum].
  rewrite <- Qplus_assoc, <- q_of_nat_add.
  apply Qplus_comp; [reflexivity|].
  match goal with |- (q_of_nat ?x == q_of_nat ?y)%Q =>
    replace y with x by (cbn [list_sum fold_right]; lia) end.
  reflexivity.
Qed.

(** C8. The regex fallback on [def foo(a, b):] followed by an indented
    [pass] yields exactly one element: the function foo, starting at line 1,
    with the placeholder end line 0. *)
Theorem C8_regex_def_foo :
  forall file_path : string,
    extract_elements_with_regex foo_source "python" file_path
    = [ {| e_id := "func_0_" ++ file_path;
           e_type := "function";
           e_name := "foo";
           e_start_line := 1;
           e_end_line := 0;
           e_signature := "def foo(a, b)";
           e_documentation := EmptyString;
           e_complexity := 1%Q;
           e_dependencies := [];
           e_parameters := [];
           e_return_type := "Any";
           e_decorators := [];
           e_visibility := "public";
           e_is_async := false;
           e_is_deprecated := false;
           e_source_code := "def foo(a, b):" |} ].
Proof. intros file_path. vm_compute. reflexivity. Qed.

(** ** Parsing one file: failures and languages without rules *)




(** C5. A file whose language has neither a structured parser
    nor regex rules, such as one with the extension .xyz, is analysed
    without raising and no element and no relationship is found, but the
    parsing status recorded in its FileAnalysis is success: the value
    unsupported, which the class FileAnalysis lists among the values of
    the field, is assigned nowhere. *)
Theorem C5_unsupported_is_recorded_as_success :
  forall (ts : bool) (parsers : list (string * Parser)) (sexp : Node -> string)
         (now : nat) (read : string -> result string)
         (file_path language source_code : string),
    read file_path = Ok source_code ->
    ts && has_parser parsers language = false ->
    language <> "python" -> language <> "javascript" ->
    exists fa : FileAnalysis,
      parse_file ts parsers sexp now read file_path language
      = Success file_path language fa [] []
          (calculate_complexity_with_regex source_code)
      /\ fa_parsing_status fa = "success"
      /\ fa_parsing_status fa <> "unsupported"
      /\ fa_error_message fa = EmptyString
      /\ fa_elements_found fa = 0
      /\ fa_relationships_found fa = 0.
Proof.
  intros ts parsers sexp now read file_path language source_code
    Hread Hno Hp Hj.
  apply String.eqb_neq in Hp, Hj.
  unfold parse_file. rewrite Hread, Hno.
  unfold _parse_with_fallback, extract_elements_with_regex,
    extract_relationships_with_regex. rewrite Hp, Hj.
  eexists. split; [reflexivity|]. cbn [fa_parsing_status fa_error_message
    fa_elements_found fa_relationships_found length].
  repeat split. discriminate.
Qed.

Lemma C5_unsupported_witness :
  detect_language_from_extension ".xyz" = "Unknown"
  /\ exists fa : FileAnalysis,
       parse_file false [] sample_sexp 0 (fun _ => Ok "hello") "data.xyz"
         (detect_language_from_extension ".xyz")
       = Success "data.xyz" (detect_language_from_extension ".xyz") fa [] []
           (calculate_complexity_with_regex "hello")
       /\ fa_parsing_status fa = "success"
       /\ fa_parsing_status fa <> "unsupported"
       /\ fa_error_message fa = EmptyString
       /\ fa_elements_found fa = 0
       /\ fa_relationships_found fa = 0.
Proof.
  split; [reflexivity|].
  apply (C5_unsupported_is_recorded_as_success false [] sample_sexp 0
           (fun _ => Ok "hello") "data.xyz"
           (detect_language_from_extension ".xyz") "hello");
    [reflexivity | reflexivity | vm_compute; discriminate
    | vm_compute; discriminate].
Defined.

(** * Further properties of the analyzer *)

(** ** What a successful parse reports *)

(** X1. Whenever [parse_file] returns the success form, by the structured
    or by the regex path, its file path and language are the arguments, the
    FileAnalysis has parsing status success, its counts are the lengths of
    the element and relationship lists returned beside it, and its
    complexity is the complexity returned beside it. *)
Theorem X1_parse_success_is_consistent :
  forall (ts : bool) (parsers : list (string * Parser)) (sexp : Node -> string)
         (now : nat) (read : string -> result string)
         (file_path language p l : string) (fa : FileAnalysis)
         (elements : list CodeElement) (relationships : list CodeRelationship)
         (c : Q),
    parse_file ts parsers sexp now read file_path language
    = Success p l fa elements relationships c ->
    p = file_path /\ l = language
    /\ fa_file_path fa = file_path /\ fa_language fa = language
    /\ fa_parsing_status fa = "success"
    /\ fa_error_message fa = EmptyString
    /\ fa_elements_found fa = length elements
    /\ fa_relationships_found fa = length relationships
    /\ fa_complexity_score fa = c.
Proof.
  intros ts parsers sexp now read file_path language p l fa elements
    relationships c H.
  unfold parse_file in H.
  destruct (read file_path) as [source_code|e]; [|discriminate].
  destruct (ts && has_parser parsers language).
  - unfold _parse_with_tree_sitter in H.
    destruct (lookup_parser parsers language) as [parser|];
      [|discriminate].
    cbn [bind] in H.
    destruct (parser source_code) as [root|e]; [|discriminate].
    cbn [bind] in H.
    destruct (extract_code_elements root language file_path) as [els|e];
      [|discriminate].
    cbn [bind] in H.
    destruct (extract_relationships root language file_path) as [rels|e];
      [|discriminate].
    cbn [bind] in H. injection H as <- <- <- <- <- <-.
    repeat split.
  - unfold _parse_with_fallback in H. injection H as <- <- <- <- <- <-.
    repeat split.
Qed.

Lemma X1_parse_success_witness :
  exists (fa : FileAnalysis) (elements : list CodeElement),
    parse_file false [] sample_sexp 0 (fun _ => Ok foo_source) "foo.py" "python"
    = Success "foo.py" "python" fa elements [] 1%Q
    /\ length elements = 1
    /\ fa_file_path fa = "foo.py" /\ fa_language fa = "python"
    /\ fa_parsing_status fa = "success"
    /\ fa_error_message fa = EmptyString
    /\ fa_elements_found fa = length elements
    /\ fa_relationships_found fa = 0
    /\ fa_complexity_score fa = 1%Q.
Proof.
  eexists. eexists. split; [vm_compute; reflexivity|].
  split; [reflexivity|].
  refine (proj2 (proj2 (X1_parse_success_is_consistent false [] sample_sexp 0
                          (fun _ => Ok foo_source) "foo.py" "python"
                          "foo.py" "python" _ _ [] 1%Q _))).
  vm_compute. reflexivity.
Defined.

(** ** Setting up the parsers *)

Lemma initialize_fold_filter
  (make_parser : string -> string -> result Parser)
  (grammars : list (string * string)) :
  forall acc : list (string * Parser),
    map fst
      (fold_left
         (fun acc lg =>
            match make_parser (snd lg) (fst lg) with
            | Ok p => (acc ++ [(fst lg, p)])%list
            | Raise _ => acc
            end) grammars acc)
    = (map fst acc
       ++ map fst (filter (fun lg => is_ok (make_parser (snd lg) (fst lg)))
                     grammars))%list.
Proof.
  induction grammars as [|lg l IH]; intros acc.
  - simpl. rewrite app_nil_r. reflexivity.
  - cbn [fold_left filter].
    destruct (make_parser (snd lg) (fst lg)) as [p|e]; cbn [is_ok].
    + rewrite IH, map_app, <- app_assoc. reflexivity.
    + apply IH.
Qed.

(** X2. [initialize_parsers] tries every language on its own: with
    tree-sitter available, the languages that get a parser are exactly those
    of the six whose grammar loads, in the order of the source, whatever
    parsers were held before, and the reported status is success even when
    none loads. Without tree-sitter the parsers held before stay as they are
    and the status is warning. *)
Theorem X2_initialize_parsers_per_language :
  forall (make_parser : string -> string -> result Parser)
         (old : list (string * Parser)),
    map fst (fst (initialize_parsers true make_parser old))
    = map fst (filter (fun lg => is_ok (make_parser (snd lg) (fst lg)))
                 parser_grammars)
    /\ snd (initialize_parsers true make_parser old) = "success"
    /\ initialize_parsers false make_parser old = (old, "warning").
Proof.
  intros make_parser old. split; [|split; reflexivity].
  unfold initialize_parsers. cbn [negb fst].
  rewrite initialize_fold_filter. reflexivity.
Qed.

(** ** Element ids *)

Lemma string_length_app (s t : string) :
  String.length (s ++ t) = String.length s + String.length t.
Proof. induction s as [|c s IH]; simpl; [reflexivity|rewrite IH; reflexivity]. Qed.

Lemma string_app_inv_tail (s1 s2 t : string) :
  s1 ++ t = s2 ++ t -> s1 = s2.
Proof.
  revert s2. induction s1 as [|c s1 IH]; intros [|d s2] H.
  - reflexivity.
  - exfalso. apply (f_equal String.length) in H.
    simpl in H. rewrite string_length_app in H. lia.
  - exfalso. apply (f_equal String.length) in H.
    simpl in H. rewrite string_length_app in H. lia.
  - simpl in H. injection H as -> H. f_equal. apply IH, H.
Qed.

Lemma str_of_nat_inj (i j : nat) : str_of_nat i = str_of_nat j -> i = j.
Proof.
  unfold str_of_nat. intros H.
  apply (f_equal NilEmpty.uint_of_string) in H.
  rewrite !NilEmpty.usu in H. injection H as H.
  apply (f_equal Nat.of_uint) in H.
  rewrite !DecimalNat.Unsigned.of_to in H. exact H.
Qed.

Lemma id_at_inj (file_path : string) (i j : nat) (e1 e2 : CodeElement) :
  In (e_type e1) ["function"; "class"; "variable"] ->
  In (e_type e2) ["function"; "class"; "variable"] ->
  id_at file_path i e1 = id_at file_path j e2 -> i = j.
Proof.
  unfold id_at. intros H1 H2.
  cbn [In] in H1, H2.
  destruct H1 as [<-|[<-|[<-|[]]]]; destruct H2 as [<-|[<-|[<-|[]]]];
    cbn [id_prefix String.eqb Ascii.eqb Bool.eqb append]; intros H;
    try discriminate;
    repeat (injection H as H);
    apply string_app_inv_tail in H; apply str_of_nat_inj, H.
Qed.

Lemma ids_by_position_NoDup (file_path : string) (elements : list CodeElement) :
  ids_by_position file_path elements -> NoDup (map e_id elements).
Proof.
  intros H. apply (proj2 (NoDup_nth_error (map e_id elements))).
  intros i j Hi Hij. rewrite length_map in Hi.
  rewrite !nth_error_map in Hij.
  destruct (nth_error elements i) as [e1|] eqn:E1;
    [|apply nth_error_None in E1; lia].
  destruct (nth_error elements j) as [e2|] eqn:E2; [|discriminate].
  cbn [option_map] in Hij. injection Hij as Hij.
  destruct (H i e1 E1) as [I1 T1]. destruct (H j e2 E2) as [I2 T2].
  rewrite I1, I2 in Hij. exact (id_at_inj file_path i j e1 e2 T1 T2 Hij).
Qed.

Lemma ids_by_position_snoc (file_path : string) (elements : list CodeElement)
  (e : CodeElement) :
  ids_by_position file_path elements ->
  e_id e = id_at file_path (length elements) e ->
  In (e_type e) ["function"; "class"; "variable"] ->
  ids_by_position file_path (elements ++ [e]).
Proof.
  intros H He Ht i x Hx.
  destruct (Nat.lt_ge_cases i (length elements)) as [L|G].
  - rewrite nth_error_app1 in Hx by exact L. apply H, Hx.
  - rewrite nth_error_app2 in Hx by exact G.
    destruct (i - length elements) as [|k] eqn:K.
    + cbn in Hx. injection Hx as <-.
      replace i with (length elements) by lia. split; assumption.
    + cbn in Hx. destruct k; discriminate.
Qed.

Lemma extract_python_function_id node file_path id el :
  extract_python_function node file_path id = Ok el ->
  e_id el = "func_" ++ str_of_nat id ++ "_" ++ file_path /\ e_type el = "function".
Proof.
  unfold extract_python_function. intros H.
  destruct (extract_python_docstring node); [|discriminate].
  destruct (extract_python_dependencies node); [|discriminate].
  injection H as <-. split; reflexivity.
Qed.

Lemma extract_python_class_id node file_path id el :
  extract_python_class node file_path id = Ok el ->
  e_id el = "class_" ++ str_of_nat id ++ "_" ++ file_path /\ e_type el = "class".
Proof.
  unfold extract_python_class. intros H.
  destruct (extract_python_docstring node); [|discriminate].
  injection H as <-. split; reflexivity.
Qed.

(** The counter of [traverse_tree] is the number of elements found so far,
    and every element found has the id of its position. *)
Lemma traverse_tree_ids (language file_path : string) (n : Node) :
  forall st st',
    snd st = length (fst st) /\ ids_by_position file_path (fst st) ->
    traverse_tree language file_path n st = Ok st' ->
    snd st' = length (fst st') /\ ids_by_position file_path (fst st').
Proof.
  induction n as [ty fn tx sp ep ch IH] using Node_tree_ind.
  intros [elements counter] st' [Hc Hids] H. cbn [traverse_tree] in H.
  cbn [fst snd] in Hc, Hids. subst counter.
  match type of H with
  | bind ?m _ = _ => destruct m as [st1|e] eqn:E; [|discriminate]
  end.
  cbn [bind] in H.
  assert (H1 : snd st1 = length (fst st1)
               /\ ids_by_position file_path (fst st1)).
  { repeat match type of E with
           | context [if ?b then _ else _] => destruct b
           end;
      lazymatch type of E with
      | context [extract_python_function ?n ?p ?k] =>
          destruct (extract_python_function n p k) as [el|] eqn:F;
          [|discriminate];
          apply extract_python_function_id in F as [Fi Ft]
      | context [extract_python_class ?n ?p ?k] =>
          destruct (extract_python_class n p k) as [el|] eqn:F;
          [|discriminate];
          apply extract_python_class_id in F as [Fi Ft]
      | _ => idtac
      end;
      injection E as <-; cbn [fst snd];
      first [ split; [reflexivity|exact Hids]
            | split;
              [ rewrite length_app; cbn [length]; lia
              | apply ids_by_position_snoc;
                [ exact Hids
                | first [ rewrite Fi; unfold id_at; rewrite Ft; reflexivity
                        | reflexivity ]
                | first [ rewrite Ft; cbn [In]; tauto | cbn; tauto ] ] ] ]. }
  revert H1 H.
  apply (fold_bind_inv
           (fun st => snd st = length (fst st)
                      /\ ids_by_position file_path (fst st))
           (traverse_tree language file_path)).
  exact IH.
Qed.

(** X3. In structured mode the element at position i of the result, counted
    from 0, has the id made of the head for its type (func_, class_ or
    var_), the number i, an underscore and the file path; so the ids of one
    file are pairwise distinct. *)
Theorem X3_structured_ids_follow_position :
  forall (tree : Node) (language file_path : string)
         (elements : list CodeElement),
    extract_code_elements tree language file_path = Ok elements ->
    ids_by_position file_path elements /\ NoDup (map e_id elements).
Proof.
  intros tree language file_path elements H.
  unfold extract_code_elements in H.
  destruct (traverse_tree language file_path tree ([], 0)) as [st|] eqn:E;
    [|discriminate].
  injection H as <-.
  assert (I : ids_by_position file_path (fst st)).
  { apply (traverse_tree_ids language file_path tree ([], 0) st); [|exact E].
    split; [reflexivity|]. intros i e Hi. destruct i; discriminate. }
  split; [exact I|apply (ids_by_position_NoDup file_path), I].
Qed.

Lemma X3_structured_ids_witness :
  exists elements : list CodeElement,
    extract_code_elements call_tree "python" "a.py" = Ok elements
    /\ length elements = 1
    /\ ids_by_position "a.py" elements /\ NoDup (map e_id elements).
Proof.
  eexists. split; [vm_compute; reflexivity|]. split; [reflexivity|].
  apply (X3_structured_ids_follow_position call_tree "python" "a.py").
  vm_compute. reflexivity.
Defined.

Lemma append_matches_ids prefix kind return_type trailer pattern source_code
  file_path (elements : list CodeElement) :
  prefix = id_prefix kind -> In kind ["function"; "class"; "variable"] ->
  ids_by_position file_path elements ->
  ids_by_position file_path
    (append_matches prefix kind return_type trailer pattern source_code
       file_path elements).
Proof.
  intros Hp Hk. unfold append_matches. generalize (finditer pattern source_code).
  intros ms. revert elements.
  induction ms as [|m ms IH]; intros elements H; [exact H|].
  cbn [fold_left]. apply IH. apply ids_by_position_snoc; [exact H| |exact Hk].
  unfold id_at. cbn [regex_element e_id e_type]. rewrite Hp. reflexivity.
Qed.

(** X4. In regex mode too the element at position i has the id made of the
    head for its type, the number i and the file path, the classes counting
    on from the functions; so the ids of one file are pairwise distinct. *)
Theorem X4_regex_ids_follow_position :
  forall source_code language file_path : string,
    ids_by_position file_path
      (extract_elements_with_regex source_code language file_path)
    /\ NoDup (map e_id
                (extract_elements_with_regex source_code language file_path)).
Proof.
  intros source_code language file_path.
  assert (I : ids_by_position file_path
                (extract_elements_with_regex source_code language file_path)).
  { assert (N : ids_by_position file_path [])
      by (intros i e Hi; destruct i; discriminate).
    unfold extract_elements_with_regex.
    destruct (String.eqb language "python");
      [|destruct (String.eqb language "javascript")];
      try exact N;
      repeat (apply append_matches_ids;
              [reflexivity|cbn [In]; tauto|]); exact N. }
  split; [exact I|apply (ids_by_position_NoDup file_path), I].
Qed.

(** ** The shape of relationships *)

Lemma traverse_for_relationships_shape (language file_path : string) (n : Node) :
  forall rels rels',
    Forall (structured_shape file_path) rels ->
    traverse_for_relationships language file_path n None rels = Ok rels' ->
    Forall (structured_shape file_path) rels'.
Proof.
  induction n as [ty fn tx sp ep ch IH] using Node_tree_ind.
  intros rels rels' Hrels H. cbn [traverse_for_relationships] in H.
  match type of H with
  | bind ?m _ = _ => destruct m as [rels1|e] eqn:E; [|discriminate]
  end.
  cbn [bind] in H.
  assert (H1 : Forall (structured_shape file_path) rels1).
  { repeat match type of E with
           | context [if ?b then _ else _] => destruct b eqn:?
           | context [bind ?m _] => destruct m; cbn [bind] in E
           end;
      try discriminate;
      try match goal with
          | B : _ && truthy_opt None = true |- _ =>
              cbn [truthy_opt] in B; rewrite andb_false_r in B; discriminate
          end;
      injection E as <-; try exact Hrels;
      (apply Forall_snoc; [exact Hrels|]);
      unfold structured_shape, start_line;
      cbn [r_is_direct r_line r_target r_type r_source r_confidence];
      (split; [reflexivity|]); (split; [lia|]); (split; [assumption|]);
      first [left; repeat split; reflexivity | right; repeat split; reflexivity]. }
  revert H1 H.
  apply (fold_bind_inv (Forall (structured_shape file_path))
           (fun c rels => traverse_for_relationships language file_path c None rels)).
  eapply Forall_impl; [|exact IH]. intros c Hc st st'. apply Hc.
Qed.

Lemma regex_relationships_shape (source_code language file_path : string) :
  Forall (regex_shape file_path)
    (extract_relationships_with_regex source_code language file_path).
Proof.
  assert (shape : forall (target : rmatch -> string) (ms : list rmatch),
             Forall (regex_shape file_path)
               (map (fun m => regex_import source_code file_path (target m) m)
                  ms)).
  { intros target ms. apply Forall_forall. intros r Hr.
    apply in_map_iff in Hr as (m & <- & _).
    unfold regex_shape.
    cbn [regex_import r_is_direct r_line r_type r_source r_confidence].
    repeat split. unfold line_of_match. lia. }
  unfold extract_relationships_with_regex.
  destruct (String.eqb language "python");
    [|destruct (String.eqb language "javascript")];
    [apply shape|apply shape|constructor].
Qed.

(** X5. Every relationship extracted in structured mode is direct, lies on
    a line from 1 on, has a non-empty target, and is either a calls
    relationship without source and with confidence 0.8 or an imports
    relationship whose source is the file path and whose confidence is 0.9;
    no uses relationship is ever recorded. Every relationship of the regex
    fallback is a direct imports relationship with the file path as source
    and confidence 0.9. *)
Theorem X5_relationship_shape :
  forall language file_path : string,
    (forall (tree : Node) (rels : list CodeRelationship),
        extract_relationships tree language file_path = Ok rels ->
        Forall (structured_shape file_path) rels
        /\ Forall (fun r => r_type r <> "uses") rels)
    /\ (forall source_code : string,
           Forall (regex_shape file_path)
             (extract_relationships_with_regex source_code language file_path)).
Proof.
  intros language file_path. split.
  - intros tree rels H. unfold extract_relationships in H.
    apply traverse_for_relationships_shape in H; [|constructor].
    split; [exact H|].
    eapply Forall_impl; [|exact H].
    intros r (_ & _ & _ & [(T & _)|(T & _)]); rewrite T; discriminate.
  - intros source_code. apply regex_relationships_shape.
Qed.

Lemma X5_relationship_shape_witness :
  exists rels : list CodeRelationship,
    extract_relationships call_tree "python" "a.py" = Ok rels
    /\ length rels = 1
    /\ Forall (structured_shape "a.py") rels
    /\ Forall (fun r => r_type r <> "uses") rels.
Proof.
  eexists. split; [vm_compute; reflexivity|]. split; [reflexivity|].
  apply (proj1 (X5_relationship_shape "python" "a.py") call_tree).
  vm_compute. reflexivity.
Defined.

(** ** How many relationships a Python tree can give *)

Lemma length_snoc {A} (l : list A) (x : A) : length (l ++ [x]) = S (length l).
Proof. rewrite length_app. simpl. lia. Qed.

Lemma python_relationships_bounded (file_path : string) (cur : option string)
  (n : Node) :
  forall rels rels',
    traverse_for_relationships "python" file_path n cur rels = Ok rels' ->
    length rels'
    <= length rels
       + count_nodes (fun ty => str_in ty ["call"; "import_from_statement"; "attribute"]) n.
Proof.
  induction n as [ty fn tx sp ep ch IH] using Node_tree_ind.
  intros rels rels' H. cbn [traverse_for_relationships] in H.
  match type of H with
  | bind ?m _ = _ => destruct m as [rels1|e] eqn:E; [|discriminate]
  end.
  cbn [bind] in H. rewrite count_nodes_eq.
  assert (H1 : length rels1
               <= length rels
                  + (if str_in ty ["call"; "import_from_statement"; "attribute"]
                     then 1 else 0)).
  { cbn [String.eqb Ascii.eqb Bool.eqb] in E. unfold str_in. cbn [existsb].
    destruct (String.eqb ty "call").
    - destruct (extract_call_name _); [|discriminate]. cbn [bind] in E.
      injection E as <-. destruct (truthy a); rewrite ?length_snoc; cbn; lia.
    - destruct (String.eqb ty "import_from_statement").
      + destruct (extract_import_module _); [|discriminate]. cbn [bind] in E.
        injection E as <-. destruct (truthy a); rewrite ?length_snoc; cbn; lia.
      + destruct (String.eqb ty "attribute").
        * destruct (extract_attribute_name _); [|discriminate]. cbn [bind] in E.
          injection E as <-.
          destruct (truthy a && truthy_opt cur); rewrite ?length_snoc; cbn; lia.
        * injection E as <-. cbn. lia. }
  pose proof (fold_bind_measure (@length CodeRelationship)
                (count_nodes (fun ty => str_in ty ["call"; "import_from_statement"; "attribute"]))
                (fun c rels => traverse_for_relationships "python" file_path c cur rels)
                ch) as F.
  specialize (F ltac:(eapply Forall_impl; [|exact IH]; intros c Hc st st'; apply Hc)
                rels1 rels' H).
  unfold sum_counts. lia.
Qed.

(** X6. In structured mode a Python tree gives at most one imports
    relationship per import_from_statement node, and at most one
    relationship per call, import_from_statement or attribute node; a tree
    without import_from_statement nodes, however many plain import
    statements it has, gives no imports relationship. *)
Theorem X6_python_relationships_bounded_by_nodes :
  forall (tree : Node) (file_path : string) (rels : list CodeRelationship),
    extract_relationships tree "python" file_path = Ok rels ->
    count_imports rels
    <= count_nodes (String.eqb "import_from_statement") tree
    /\ length rels
       <= count_nodes (fun ty => str_in ty ["call"; "import_from_statement"; "attribute"]) tree
    /\ (count_nodes (String.eqb "import_from_statement") tree = 0 ->
        Forall (fun r => r_type r <> "imports") rels).
Proof.
  intros tree file_path rels H. unfold extract_relationships in H.
  pose proof (python_imports_bounded _ _ _ _ _ H) as B1.
  pose proof (python_relationships_bounded _ _ _ _ _ H) as B2.
  change (count_imports []) with 0 in B1. cbn [length] in B2.
  split; [lia|]. split; [lia|].
  intros Z. rewrite Z in B1. unfold count_imports in B1.
  apply Forall_forall. intros r Hr T.
  assert (In r (filter is_imports rels)) as Hin.
  { apply filter_In. split; [exact Hr|]. unfold is_imports. rewrite T. reflexivity. }
  destruct (filter is_imports rels); [exact Hin|simpl in B1; lia].
Qed.

Lemma X6_python_relationships_witness :
  exists rels : list CodeRelationship,
    extract_relationships imports_tree "python" "a.py" = Ok rels
    /\ count_nodes (String.eqb "import_from_statement") imports_tree = 1
    /\ count_nodes (String.eqb "import_statement") imports_tree = 1
    /\ count_imports rels <= 1.
Proof.
  eexists. split; [vm_compute; reflexivity|].
  split; [reflexivity|]. split; [reflexivity|].
  apply (X6_python_relationships_bounded_by_nodes imports_tree "a.py").
  vm_compute. reflexivity.
Defined.

(** ** The file-level score, for every tree *)

(** X7. On a Python tree, which has no method_definition node, from which
    element extraction succeeds, the file-level score is the arithmetic mean
    of the complexities of the function and class elements extracted, the
    denominator floored at 1. *)
Theorem X7_python_file_score_is_the_mean :
  forall (tree : Node) (file_path : string) (elements : list CodeElement),
    count_nodes (String.eqb "method_definition") tree = 0 ->
    extract_code_elements tree "python" file_path = Ok elements ->
    (calculate_complexity_score (Some tree) == mean_complexity elements)%Q.
Proof.
  intros tree file_path elements Hn H.
  unfold extract_code_elements in H.
  destruct (traverse_tree "python" file_path tree ([], 0)) as [st|] eqn:E;
    [|discriminate].
  injection H as <-.
  destruct (agrees_traverse file_path tree ([], 0) st (0%Q, 0) Hn
              ltac:(split; reflexivity) E) as [At Ac].
  unfold calculate_complexity_score, mean_complexity.
  destruct (analyze_node tree (0%Q, 0)) as [total count].
  cbn [fst snd] in At, Ac.
  fold (scored_total (fst st)). fold (scored_count (fst st)).
  rewrite At, Ac. reflexivity.
Qed.

Lemma X7_python_file_score_witness :
  (calculate_complexity_score (Some branch_function) == 2)%Q
  /\ exists elements : list CodeElement,
       extract_code_elements branch_function "python" "a.py" = Ok elements
       /\ (calculate_complexity_score (Some branch_function)
           == mean_complexity elements)%Q.
Proof.
  split; [vm_compute; reflexivity|].
  eexists. split; [vm_compute; reflexivity|].
  apply (X7_python_file_score_is_the_mean branch_function "a.py");
    vm_compute; reflexivity.
Defined.

(** X8. On a tree without function_definition and class_definition nodes
    the file-level score is 0.0, whatever else the tree holds; the trees of
    JavaScript files, whose functions and classes are function_declaration
    and class_declaration nodes, are such trees. *)
Theorem X8_file_score_zero_without_python_definitions :
  forall tree : Node,
    count_nodes (fun ty => str_in ty ["function_definition"; "class_definition"])
      tree = 0 ->
    (calculate_complexity_score (Some tree) == 0)%Q.
Proof.
  intros tree Hn. unfold calculate_complexity_score.
  pose proof (analyze_node_other tree (0%Q, 0) Hn) as H.
  destruct (analyze_node tree (0%Q, 0)) as [total count]. cbn [fst] in H.
  subst total. unfold Qdiv. apply Qmult_0_l.
Qed.

Lemma X8_file_score_zero_witness :
  count_nodes is_js_declaration js_class_tree = 1
  /\ (calculate_complexity_score (Some js_class_tree) == 0)%Q.
Proof.
  split; [reflexivity|].
  apply (X8_file_score_zero_without_python_definitions js_class_tree).
  reflexivity.
Defined.

(** ** Dependencies and calls relationships *)

Lemma call_targets_app (a b : list CodeRelationship) :
  call_targets (a ++ b) = (call_targets a ++ call_targets b)%list.
Proof. unfold call_targets. rewrite filter_app, map_app. reflexivity. Qed.

Lemma calls_agree_fold (file_path : string) (cur : option string)
  (ch : list Node) :
  Forall (fun c => forall rels rels',
              traverse_for_relationships "python" file_path c cur rels = Ok rels' ->
              exists new,
                rels' = (rels ++ new)%list
                /\ forall deps, find_calls c deps
                                = Ok (deps ++ call_targets new)%list) ch ->
  forall rels rels',
    fold_left
      (fun acc c =>
         rels <- acc ;;
         traverse_for_relationships "python" file_path c cur rels)
      ch (Ok rels) = Ok rels' ->
    exists new,
      rels' = (rels ++ new)%list
      /\ forall deps,
          fold_left (fun acc c => deps <- acc ;; find_calls c deps) ch (Ok deps)
          = Ok (deps ++ call_targets new)%list.
Proof.
  induction 1 as [|c l Hc _ IH]; intros rels rels' H.
  - injection H as <-. exists []. split; [symmetry; apply app_nil_r|].
    intros deps. cbn. rewrite app_nil_r. reflexivity.
  - cbn [fold_left bind] in H.
    destruct (traverse_for_relationships "python" file_path c cur rels)
      as [rels1|e] eqn:E.
    + destruct (Hc _ _ E) as (new1 & -> & D1).
      destruct (IH _ _ H) as (new2 & -> & D2).
      exists (new1 ++ new2)%list. split; [symmetry; apply app_assoc|].
      intros deps. cbn [fold_left bind]. rewrite D1, D2, call_targets_app.
      rewrite app_assoc. reflexivity.
    + rewrite fold_bind_raise in H. discriminate.
Qed.

Lemma calls_agree (file_path : string) (cur : option string) (n : Node) :
  forall rels rels',
    traverse_for_relationships "python" file_path n cur rels = Ok rels' ->
    exists new,
      rels' = (rels ++ new)%list
      /\ forall deps, find_calls n deps = Ok (deps ++ call_targets new)%list.
Proof.
  induction n as [ty fn tx sp ep ch IH] using Node_tree_ind.
  intros rels rels' H. cbn [traverse_for_relationships] in H.
  match type of H with
  | bind ?m _ = _ => destruct m as [rels1|e] eqn:E; [|discriminate]
  end.
  cbn [bind] in H.
  destruct (calls_agree_fold file_path cur ch IH _ _ H) as (new2 & -> & D2).
  assert (S1 : exists new1,
             rels1 = (rels ++ new1)%list
             /\ forall deps,
                 (if String.eqb ty "call"
                  then func_name <- extract_call_name (mkNode ty fn tx sp ep ch) ;;
                       Ok (if truthy func_name
                           then (deps ++ [func_name])%list else deps)
                  else Ok deps)
                 = Ok (deps ++ call_targets new1)%list).
  { cbn [String.eqb Ascii.eqb Bool.eqb] in E.
    destruct (String.eqb ty "call").
    - destruct (extract_call_name _) as [a|]; [|discriminate]. cbn [bind] in *.
      injection E as <-. destruct (truthy a).
      + eexists. split; [reflexivity|]. intros deps. reflexivity.
      + exists []. split; [symmetry; apply app_nil_r|].
        intros deps. cbn. rewrite app_nil_r. reflexivity.
    - destruct (String.eqb ty "import_from_statement").
      + destruct (extract_import_module _) as [a|]; [|discriminate].
        cbn [bind] in E. injection E as <-. destruct (truthy a).
        * eexists. split; [reflexivity|]. intros deps. cbn.
          rewrite app_nil_r. reflexivity.
        * exists []. split; [symmetry; apply app_nil_r|].
          intros deps. cbn. rewrite app_nil_r. reflexivity.
      + destruct (String.eqb ty "attribute").
        * destruct (extract_attribute_name _) as [a|]; [|discriminate].
          cbn [bind] in E. injection E as <-.
          destruct (truthy a && truthy_opt cur).
          -- eexists. split; [reflexivity|]. intros deps. cbn.
             rewrite app_nil_r. reflexivity.
          -- exists []. split; [symmetry; apply app_nil_r|].
             intros deps. cbn. rewrite app_nil_r. reflexivity.
        * injection E as <-. exists []. split; [symmetry; apply app_nil_r|].
          intros deps. cbn. rewrite app_nil_r. reflexivity. }
  destruct S1 as (new1 & -> & D1).
  exists (new1 ++ new2)%list. split; [symmetry; apply app_assoc|].
  intros deps. cbn [find_calls]. rewrite D1. cbn [bind].
  rewrite D2, call_targets_app, app_assoc. reflexivity.
Qed.

(** [list_of_set] keeps the names and drops the repetitions. *)
Lemma str_in_spec (x : string) (l : list string) :
  str_in x l = true <-> In x l.
Proof.
  unfold str_in. rewrite existsb_exists. split.
  - intros (y & Hy & E). apply String.eqb_eq in E. subst y. exact Hy.
  - intros H. exists x. split; [exact H|apply String.eqb_refl].
Qed.

Lemma insert_sorted_In (x y : string) (s : list string) :
  In y (insert_sorted x s) <-> y = x \/ In y s.
Proof.
  induction s as [|z s IH]; cbn [insert_sorted].
  - cbn [In]. intuition congruence.
  - destruct (String.ltb x z); cbn [In]; [intuition congruence|].
    rewrite IH. intuition congruence.
Qed.

Lemma insert_sorted_NoDup (x : string) (s : list string) :
  ~ In x s -> NoDup s -> NoDup (insert_sorted x s).
Proof.
  induction s as [|z s IH]; cbn [insert_sorted]; intros Hx Hs.
  - constructor; [intros []|constructor].
  - destruct (String.ltb x z); [constructor; assumption|].
    inversion Hs as [|z' s' Hz Hs']; subst.
    constructor.
    + rewrite insert_sorted_In. intros [->|H]; [|exact (Hz H)].
      apply Hx. left. reflexivity.
    + apply IH; [|exact Hs']. intros H. apply Hx. right. exact H.
Qed.

Lemma list_of_set_from (names acc : list string) :
  NoDup acc ->
  NoDup (fold_left set_add names acc)
  /\ forall d, In d (fold_left set_add names acc) <-> In d acc \/ In d names.
Proof.
  revert acc. induction names as [|x names IH]; intros acc Hacc; cbn [fold_left].
  - split; [exact Hacc|]. intros d. cbn [In]. tauto.
  - assert (H1 : NoDup (set_add acc x)
                 /\ forall d, In d (set_add acc x) <-> d = x \/ In d acc).
    { unfold set_add. destruct (str_in x acc) eqn:E.
      - apply str_in_spec in E. split; [exact Hacc|].
        intros d. split; [tauto|]. intros [->|H]; assumption.
      - split.
        + apply insert_sorted_NoDup; [|exact Hacc].
          intros H. apply str_in_spec in H. congruence.
        + intros d. apply insert_sorted_In. }
    destruct H1 as [N1 M1]. destruct (IH _ N1) as [N2 M2].
    split; [exact N2|]. intros d. rewrite M2, M1. cbn [In].
    intuition congruence.
Qed.

Lemma list_of_set_spec (names : list string) :
  NoDup (list_of_set names)
  /\ forall d, In d (list_of_set names) <-> In d names.
Proof.
  destruct (list_of_set_from names [] (NoDup_nil _)) as [N M].
  split; [exact N|]. intros d. unfold list_of_set. rewrite M. cbn [In]. tauto.
Qed.

(** X9. When relationship extraction succeeds on the subtree of a Python
    node, the extraction of the node's dependencies succeeds too, and the
    dependencies are the targets of the calls relationships found in the
    subtree, each name once: no name is listed twice, a name is a
    dependency exactly when it is the target of such a relationship, and
    there are at most as many dependencies as calls relationships. Nothing
    is said of the order of the list, which Python does not fix. *)
Theorem X9_dependencies_are_call_targets :
  forall (node : Node) (file_path : string) (rels : list CodeRelationship),
    extract_relationships node "python" file_path = Ok rels ->
    exists deps : list string,
      extract_python_dependencies node = Ok deps
      /\ NoDup deps
      /\ (forall d : string,
             In d deps <->
             exists r, In r rels /\ r_type r = "calls" /\ r_target r = d)
      /\ length deps <= length (filter is_calls rels).
Proof.
  intros node file_path rels H. unfold extract_relationships in H.
  destruct (calls_agree file_path None node _ _ H) as (new & E & D).
  cbn [app] in E. subst new.
  destruct (list_of_set_spec (call_targets rels)) as [N M].
  exists (list_of_set (call_targets rels)). split; [|split; [|split]].
  - unfold extract_python_dependencies. rewrite D. reflexivity.
  - exact N.
  - intros d. rewrite M. unfold call_targets. rewrite in_map_iff.
    split.
    + intros (r & Ht & Hr). apply filter_In in Hr as [Hr Hc].
      exists r. split; [exact Hr|]. split; [|exact Ht].
      apply String.eqb_eq, Hc.
    + intros (r & Hr & Hc & Ht). exists r. split; [exact Ht|].
      apply filter_In. split; [exact Hr|]. unfold is_calls. rewrite Hc.
      reflexivity.
  - rewrite <- (length_map r_target (filter is_calls rels)).
    apply NoDup_incl_length; [exact N|].
    intros d Hd. apply M in Hd. exact Hd.
Qed.

Lemma X9_dependencies_witness :
  exists (rels : list CodeRelationship),
    extract_relationships repeated_calls_tree "python" "a.py" = Ok rels
    /\ call_targets rels = ["g"; "h"; "g"]
    /\ exists deps : list string,
         extract_python_dependencies repeated_calls_tree = Ok deps
         /\ NoDup deps
         /\ (forall d : string,
                In d deps <->
                exists r, In r rels /\ r_type r = "calls" /\ r_target r = d)
         /\ length deps <= length (filter is_calls rels).
Proof.
  eexists. split; [vm_compute; reflexivity|].
  split; [reflexivity|].
  apply (X9_dependencies_are_call_targets repeated_calls_tree "a.py" _ eq_refl).
Defined.

(** ** Dependencies and calls relationships, JavaScript *)

Lemma js_calls_agree_fold (file_path : string) (cur : option string)
  (ch : list Node) :
  Forall (fun c => forall rels rels',
              traverse_for_relationships "javascript" file_path c cur rels
              = Ok rels' ->
              exists new,
                rels' = (rels ++ new)%list
                /\ forall deps, find_js_calls c deps
                                = (deps ++ call_targets new)%list) ch ->
  forall rels rels',
    fold_left
      (fun acc c =>
         rels <- acc ;;
         traverse_for_relationships "javascript" file_path c cur rels)
      ch (Ok rels) = Ok rels' ->
    exists new,
      rels' = (rels ++ new)%list
      /\ forall deps,
          fold_left (fun acc c => find_js_calls c acc) ch deps
          = (deps ++ call_targets new)%list.
Proof.
  induction 1 as [|c l Hc _ IH]; intros rels rels' H.
  - injection H as <-. exists []. split; [symmetry; apply app_nil_r|].
    intros deps. cbn. rewrite app_nil_r. reflexivity.
  - cbn [fold_left bind] in H.
    destruct (traverse_for_relationships "javascript" file_path c cur rels)
      as [rels1|e] eqn:E.
    + destruct (Hc _ _ E) as (new1 & -> & D1).
      destruct (IH _ _ H) as (new2 & -> & D2).
      exists (new1 ++ new2)%list. split; [symmetry; apply app_assoc|].
      intros deps. cbn [fold_left]. rewrite D1, D2, call_targets_app.
      rewrite app_assoc. reflexivity.
    + rewrite fold_bind_raise in H. discriminate.
Qed.

Lemma js_calls_agree (file_path : string) (cur : option string) (n : Node) :
  forall rels rels',
    traverse_for_relationships "javascript" file_path n cur rels = Ok rels' ->
    exists new,
      rels' = (rels ++ new)%list
      /\ forall deps, find_js_calls n deps = (deps ++ call_targets new)%list.
Proof.
  induction n as [ty fn tx sp ep ch IH] using Node_tree_ind.
  intros rels rels' H. cbn [traverse_for_relationships] in H.
  match type of H with
  | bind ?m _ = _ => destruct m as [rels1|e] eqn:E; [|discriminate]
  end.
  cbn [bind] in H.
  destruct (js_calls_agree_fold file_path cur ch IH _ _ H) as (new2 & -> & D2).
  assert (S1 : exists new1,
             rels1 = (rels ++ new1)%list
             /\ forall deps,
                 (if String.eqb ty "call_expression"
                  then
                    if truthy (extract_js_call_name (mkNode ty fn tx sp ep ch))
                    then (deps ++ [extract_js_call_name
                                     (mkNode ty fn tx sp ep ch)])%list
                    else deps
                  else deps)
                 = (deps ++ call_targets new1)%list).
  { cbn [String.eqb Ascii.eqb Bool.eqb] in E.
    destruct (String.eqb ty "call_expression").
    - injection E as <-. destruct (truthy _).
      + eexists. split; [reflexivity|]. intros deps. reflexivity.
      + exists []. split; [symmetry; apply app_nil_r|].
        intros deps. cbn. rewrite app_nil_r. reflexivity.
    - destruct (String.eqb ty "import_statement").
      + injection E as <-. destruct (truthy _).
        * eexists. split; [reflexivity|]. intros deps. cbn.
          rewrite app_nil_r. reflexivity.
        * exists []. split; [symmetry; apply app_nil_r|].
          intros deps. cbn. rewrite app_nil_r. reflexivity.
      + injection E as <-. exists []. split; [symmetry; apply app_nil_r|].
        intros deps. cbn. rewrite app_nil_r. reflexivity. }
  destruct S1 as (new1 & -> & D1).
  exists (new1 ++ new2)%list. split; [symmetry; apply app_assoc|].
  intros deps. cbn [find_js_calls]. rewrite D1.
  rewrite D2, call_targets_app, app_assoc. reflexivity.
Qed.

(** X20. The same holds of JavaScript. When relationship extraction
    succeeds on the subtree of a JavaScript node, the node's dependencies
    are the targets of the calls relationships found in the subtree, each
    name once: no name is listed twice, a name is a dependency exactly when
    it is the target of such a relationship, and there are at most as many
    dependencies as calls relationships. Nothing is said of the order of
    the list. *)
Theorem X20_js_dependencies_are_call_targets :
  forall (node : Node) (file_path : string) (rels : list CodeRelationship),
    extract_relationships node "javascript" file_path = Ok rels ->
    NoDup (extract_js_dependencies node)
    /\ (forall d : string,
           In d (extract_js_dependencies node) <->
           exists r, In r rels /\ r_type r = "calls" /\ r_target r = d)
    /\ length (extract_js_dependencies node) <= length (filter is_calls rels).
Proof.
  intros node file_path rels H. unfold extract_relationships in H.
  destruct (js_calls_agree file_path None node _ _ H) as (new & E & D).
  cbn [app] in E. subst new.
  unfold extract_js_dependencies. rewrite D. cbn [app].
  destruct (list_of_set_spec (call_targets rels)) as [N M].
  split; [exact N|]. split.
  - intros d. rewrite M. unfold call_targets. rewrite in_map_iff.
    split.
    + intros (r & Ht & Hr). apply filter_In in Hr as [Hr Hc].
      exists r. split; [exact Hr|]. split; [|exact Ht].
      apply String.eqb_eq, Hc.
    + intros (r & Hr & Hc & Ht). exists r. split; [exact Ht|].
      apply filter_In. split; [exact Hr|]. unfold is_calls. rewrite Hc.
      reflexivity.
  - rewrite <- (length_map r_target (filter is_calls rels)).
    apply NoDup_incl_length; [exact N|].
    intros d Hd. apply M in Hd. exact Hd.
Qed.

Lemma X20_js_dependencies_witness :
  exists (rels : list CodeRelationship),
    extract_relationships js_calls_tree "javascript" "a.js" = Ok rels
    /\ call_targets rels = ["g"; "h"; "g"]
    /\ NoDup (extract_js_dependencies js_calls_tree)
    /\ (forall d : string,
           In d (extract_js_dependencies js_calls_tree) <->
           exists r, In r rels /\ r_type r = "calls" /\ r_target r = d)
    /\ length (extract_js_dependencies js_calls_tree)
       <= length (filter is_calls rels).
Proof.
  eexists. split; [vm_compute; reflexivity|].
  split; [reflexivity|].
  apply (X20_js_dependencies_are_call_targets js_calls_tree "a.js" _ eq_refl).
Defined.

(** ** The JavaScript scorer is an additive count *)

Lemma js_step_weight ty (c : Q) :
  ((if str_in ty ["if_statement"; "for_statement"; "while_statement"; "switch_statement"]
    then c + 1
    else if String.eqb ty "case_clause" then c + (1 # 2)
    else if str_in ty ["binary_expression"; "logical_expression"] then c + 1
    else c) == c + js_weight ty)%Q.
Proof.
  unfold js_weight, is_js_control_flow, is_js_case, is_js_operator, str_in.
  simpl existsb.
  repeat match goal with
  | |- context [String.eqb ty ?s] =>
      let E := fresh "E" in
      destruct (String.eqb ty s) eqn:E;
      [apply String.eqb_eq in E; subst ty; simpl; ring|]
  end.
  simpl. ring.
Qed.

Lemma js_formula_eq ty fn tx sp ep ch :
  (js_formula (mkNode ty fn tx sp ep ch)
   == js_weight ty + fold_right (fun c acc => js_formula c + acc) 0 ch)%Q.
Proof.
  unfold js_formula at 1. rewrite !count_nodes_eq, !q_of_nat_add.
  assert (Hch :
    (q_of_nat (sum_counts is_js_control_flow ch)
     + (1 # 2) * q_of_nat (sum_counts is_js_case ch)
     + q_of_nat (sum_counts is_js_operator ch)
     == fold_right (fun c acc => js_formula c + acc) 0 ch)%Q).
  { induction ch as [|c l IHl]; simpl.
    - unfold q_of_nat; simpl. ring.
    - rewrite <- IHl. unfold js_formula. rewrite !q_of_nat_add. ring. }
  rewrite <- Hch. unfold js_weight.
  destruct (is_js_control_flow ty), (is_js_case ty), (is_js_operator ty);
    unfold q_of_nat; simpl inject_Z; ring.
Qed.

Lemma count_js_complexity_spec (n : Node) :
  forall c, (count_js_complexity n c == c + js_formula n)%Q.
Proof.
  induction n as [ty fn tx sp ep ch IH] using Node_tree_ind. intros c.
  rewrite js_formula_eq. cbn [count_js_complexity].
  pose proof (js_step_weight ty c) as Hc'.
  set (c' := if str_in ty _ then _ else _) in *.
  assert (Hch : forall a,
    (fold_left (fun acc x => count_js_complexity x acc) ch a
     == a + fold_right (fun x acc => js_formula x + acc) 0 ch)%Q).
  { clearbody c'. clear Hc'. induction IH as [|x l Hx _ IHl]; intros a; simpl.
    - ring.
    - rewrite IHl, Hx. ring. }
  rewrite Hch, Hc'. ring.
Qed.

(** X11. For every subtree the JavaScript scorer returns 1.0 plus 1.0 for
    every if, for, while and switch statement, 0.5 for every case clause and
    1.0 for every binary or logical expression of the subtree, the root
    included, and nothing for any other node. *)
Theorem X11_js_complexity_additive :
  forall body : Node,
    (calculate_js_complexity (Some body)
     == 1 + q_of_nat (count_nodes is_js_control_flow body)
        + (1 # 2) * q_of_nat (count_nodes is_js_case body)
        + q_of_nat (count_nodes is_js_operator body))%Q.
Proof.
  intros body. unfold calculate_js_complexity.
  rewrite count_js_complexity_spec. unfold js_formula. ring.
Qed.

(** ** Elements of the regex fallback *)

Lemma append_matches_split prefix kind return_type trailer pattern source_code
  file_path (elements : list CodeElement) :
  exists new : list CodeElement,
    append_matches prefix kind return_type trailer pattern source_code
      file_path elements = (elements ++ new)%list
    /\ length new = findall_len pattern source_code
    /\ Forall (fun e => e_type e = kind /\ regex_element_shape e) new.
Proof.
  unfold append_matches, findall_len.
  generalize (finditer pattern source_code). intros ms. revert elements.
  induction ms as [|m ms IH]; intros elements.
  - exists []. split; [symmetry; apply app_nil_r|]. split; constructor.
  - cbn [fold_left].
    destruct (IH (elements ++ [regex_element prefix kind return_type trailer
                                 source_code file_path elements m])%list)
      as (new & E & L & F).
    eexists (_ :: new). split; [rewrite E, <- app_assoc; reflexivity|].
    split; [cbn [length]; rewrite L; reflexivity|].
    constructor; [|exact F].
    split; [reflexivity|].
    unfold regex_element_shape, line_of_match.
    cbn [regex_element e_end_line e_start_line e_complexity e_parameters
           e_dependencies e_documentation].
    repeat split. unfold line_of_match. lia.
Qed.

(** X12. In regex mode every element has the end line 0, a start line from
    1 on, complexity 1.0, no parameters, no dependencies and no
    documentation, for python and javascript texts alike. The result lists
    all functions first and all classes after them, as many of each as the
    function pattern and the class pattern of the language have matches. *)
Theorem X12_regex_elements_functions_then_classes :
  forall source_code language file_path : string,
    exists functions classes : list CodeElement,
      extract_elements_with_regex source_code language file_path
      = (functions ++ classes)%list
      /\ Forall (fun e => e_type e = "function" /\ regex_element_shape e) functions
      /\ Forall (fun e => e_type e = "class" /\ regex_element_shape e) classes
      /\ length functions
         = (if String.eqb language "python"
            then findall_len py_func_pattern source_code
            else if String.eqb language "javascript"
                 then findall_len js_func_pattern source_code else 0)
      /\ length classes
         = (if String.eqb language "python"
            then findall_len py_class_pattern source_code
            else if String.eqb language "javascript"
                 then findall_len js_class_pattern source_code else 0).
Proof.
  intros source_code language file_path. unfold extract_elements_with_regex.
  destruct (String.eqb language "python");
    [|destruct (String.eqb language "javascript")].
  - destruct (append_matches_split "func_" "function" "Any" ":"%char
                py_func_pattern source_code file_path []) as (fs & -> & Lf & Ff).
    destruct (append_matches_split "class_" "class" "class" ":"%char
                py_class_pattern source_code file_path ([] ++ fs))
      as (cs & -> & Lc & Fc).
    exists fs, cs. repeat split; assumption.
  - destruct (append_matches_split "func_" "function" "any" "{"%char
                js_func_pattern source_code file_path []) as (fs & -> & Lf & Ff).
    destruct (append_matches_split "class_" "class" "class" "{"%char
                js_class_pattern source_code file_path ([] ++ fs))
      as (cs & -> & Lc & Fc).
    exists fs, cs. repeat split; assumption.
  - exists [], []. repeat split; constructor.
Qed.

(** ** The regex scorer adds up over the lines of a text *)

Lemma starts_with_before_separator (w a b : list ascii) (sep : ascii) :
  forallb is_word w = true -> is_word sep = false ->
  starts_with w (a ++ sep :: b) = starts_with w a.
Proof.
  intros Hw Hsep. revert a. induction w as [|c w IH]; intros a; [reflexivity|].
  cbn [forallb] in Hw. apply andb_true_iff in Hw as [Hc Hw].
  destruct a as [|d a]; cbn [app starts_with].
  - destruct (Ascii.eqb c sep) eqn:E; [|reflexivity].
    apply Ascii.eqb_eq in E. subst sep. congruence.
  - rewrite (IH Hw). reflexivity.
Qed.

Lemma word_ahead_before_separator (w a b : list ascii) (sep : ascii) :
  is_word sep = false -> starts_with w a = true ->
  word_ahead (skipn (length w) (a ++ sep :: b))
  = word_ahead (skipn (length w) a).
Proof.
  intros Hsep. revert a. induction w as [|c w IH]; intros a H.
  - cbn [length skipn]. destruct a; [exact Hsep|reflexivity].
  - destruct a as [|d a]; [discriminate|].
    cbn [starts_with] in H. apply andb_true_iff in H as [_ H].
    cbn [length skipn app]. apply IH, H.
Qed.

Lemma whole_word_here_before_separator (w b0 a b : list ascii) (sep : ascii) :
  forallb is_word w = true -> is_word sep = false ->
  whole_word_here w b0 (a ++ sep :: b) = whole_word_here w b0 a.
Proof.
  intros Hw Hsep. unfold whole_word_here.
  rewrite (starts_with_before_separator w a b sep Hw Hsep).
  destruct (starts_with w a) eqn:E; [|reflexivity].
  rewrite (word_ahead_before_separator w a b sep Hsep E). reflexivity.
Qed.

Lemma occurrences_from_behind (w : list ascii) :
  forall a b1 b2,
    word_behind b1 = word_behind b2 ->
    occurrences_from w b1 a = occurrences_from w b2 a.
Proof.
  intros a b1 b2 H. destruct a as [|c a]; [reflexivity|].
  cbn [occurrences_from]. unfold whole_word_here. rewrite H. f_equal.
  revert c b1 b2 H. induction a as [|d a IH]; intros c b1 b2 H; [reflexivity|].
  cbn [occurrences_from]. unfold whole_word_here. cbn [word_behind].
  f_equal. apply (IH d (c :: b1) (c :: b2)). reflexivity.
Qed.

Lemma occurrences_from_separator (w : list ascii) (sep : ascii) :
  w <> [] -> forallb is_word w = true -> is_word sep = false ->
  forall a b0 b,
    occurrences_from w b0 (a ++ sep :: b)
    = occurrences_from w b0 a + occurrences_from w [] b.
Proof.
  intros Hne Hw Hsep. induction a as [|c a IH]; intros b0 b.
  - cbn [app occurrences_from].
    change (sep :: b) with (([] ++ sep :: b)%list).
    rewrite (whole_word_here_before_separator w b0 [] b sep Hw Hsep).
    rewrite (whole_word_here_nil w b0 Hne). cbn [Nat.add].
    apply occurrences_from_behind. cbn [word_behind]. exact Hsep.
  - cbn [app occurrences_from].
    change (c :: (a ++ sep :: b)%list) with (((c :: a) ++ sep :: b)%list).
    rewrite (whole_word_here_before_separator w b0 (c :: a) b sep Hw Hsep).
    rewrite IH. lia.
Qed.

Lemma chars_app (s t : string) : chars (s ++ t) = (chars s ++ chars t)%list.
Proof.
  unfold chars. induction s as [|c s IH]; [reflexivity|].
  cbn. rewrite IH. reflexivity.
Qed.

Lemma findall_len_keyword_separator (w a b : string) (sep : ascii) :
  chars w <> [] -> forallb is_word (chars w) = true -> is_word sep = false ->
  findall_len (keyword_pattern w) (a ++ String sep b)
  = findall_len (keyword_pattern w) a + findall_len (keyword_pattern w) b.
Proof.
  intros Hne Hw Hsep. unfold findall_len, finditer.
  rewrite !(scan_keyword w Hne Hw) by (left; reflexivity).
  rewrite chars_app. cbn [chars list_ascii_of_string].
  apply occurrences_from_separator; assumption.
Qed.

(** X13. The regex scorer adds up over the pieces of a text: for two texts
    joined by a character that is not a word character (a newline, a space,
    a bracket), the complexity of the whole is the complexity of the first
    plus the complexity of the second minus 1.0. *)
Theorem X13_regex_complexity_adds_over_separators :
  forall (a b : string) (sep : ascii),
    is_word sep = false ->
    (calculate_complexity_with_regex (a ++ String sep b)
     == calculate_complexity_with_regex a
        + calculate_complexity_with_regex b - 1)%Q.
Proof.
  intros a b sep Hsep. unfold calculate_complexity_with_regex.
  rewrite !findall_len_keyword_separator
    by (first [discriminate | reflexivity | exact Hsep]).
  rewrite !q_of_nat_add. ring.
Qed.

Lemma X13_regex_complexity_witness :
  (calculate_complexity_with_regex ("if a and b:" ++ String newline "for x in y:")
   == calculate_complexity_with_regex "if a and b:"
      + calculate_complexity_with_regex "for x in y:" - 1)%Q
  /\ (calculate_complexity_with_regex "if a and b:" == 3)%Q
  /\ (calculate_complexity_with_regex "for x in y:" == 2)%Q.
Proof.
  split; [|split; vm_compute; reflexivity].
  apply (X13_regex_complexity_adds_over_separators "if a and b:" "for x in y:"
           newline).
  reflexivity.
Defined.

(** ** A subtree never scores more than the tree around it *)

Lemma count_nodes_subtree (p : string -> bool) (n : Node) :
  forall d, In d (subtree_nodes n) -> count_nodes p d <= count_nodes p n.
Proof.
  induction n as [ty fn tx sp ep ch IH] using Node_tree_ind.
  intros d Hd. cbn [subtree_nodes] in Hd. destruct Hd as [<-|Hd]; [lia|].
  rewrite (count_nodes_eq p ty). apply in_flat_map in Hd as (c & Hc & Hd).
  assert (S : count_nodes p d <= sum_counts p ch).
  { clear ty fn tx sp ep. induction IH as [|x l Hx _ IHl]; [destruct Hc|].
    change (sum_counts p (x :: l)) with (count_nodes p x + sum_counts p l).
    destruct Hc as [<-|Hc]; [specialize (Hx d Hd); lia|].
    specialize (IHl Hc). lia. }
  lia.
Qed.

Lemma q_of_nat_le (a b : nat) : a <= b -> (q_of_nat a <= q_of_nat b)%Q.
Proof.
  intros H. unfold q_of_nat. rewrite <- Zle_Qle. apply Nat2Z.inj_le, H.
Qed.

(** X14. Both scorers are monotone in the tree: the complexity computed for
    any node inside a subtree is at most the complexity computed for the
    subtree. In particular the body of a class scores at least as much as
    the body of any function nested in it, whose constructs it counts
    again. *)
Theorem X14_complexity_monotone_in_subtree :
  forall n d : Node,
    In d (subtree_nodes n) ->
    (calculate_python_complexity (Some d) <= calculate_python_complexity (Some n))%Q
    /\ (calculate_js_complexity (Some d) <= calculate_js_complexity (Some n))%Q.
Proof.
  intros n d Hd. unfold calculate_python_complexity, calculate_js_complexity.
  rewrite !count_complexity_constructs_spec, !count_js_complexity_spec.
  unfold python_formula, js_formula.
  pose proof (q_of_nat_le _ _ (count_nodes_subtree is_control_flow n d Hd)).
  pose proof (q_of_nat_le _ _ (count_nodes_subtree is_elif n d Hd)).
  pose proof (q_of_nat_le _ _ (count_nodes_subtree is_except n d Hd)).
  pose proof (q_of_nat_le _ _ (count_nodes_subtree is_bool_op n d Hd)).
  pose proof (q_of_nat_le _ _ (count_nodes_subtree is_js_control_flow n d Hd)).
  pose proof (q_of_nat_le _ _ (count_nodes_subtree is_js_case n d Hd)).
  pose proof (q_of_nat_le _ _ (count_nodes_subtree is_js_operator n d Hd)).
  split; lra.
Qed.

Lemma subtree_nodes_child (n c : Node) :
  In c (children n) -> In c (subtree_nodes n).
Proof.
  destruct n as [ty fn tx sp ep ch]. cbn [children subtree_nodes]. intros H.
  right. apply in_flat_map. exists c. split; [exact H|].
  destruct c. left. reflexivity.
Qed.

Lemma X14_complexity_monotone_witness :
  In branch_body (subtree_nodes branch_function)
  /\ (calculate_python_complexity (Some branch_body)
      <= calculate_python_complexity (Some branch_function))%Q.
Proof.
  assert (H : In branch_body (subtree_nodes branch_function)).
  { apply subtree_nodes_child. cbn [branch_function children In]. tauto. }
  split; [exact H|].
  apply (proj1 (X14_complexity_monotone_in_subtree branch_function branch_body H)).
Defined.

(** ** The module hierarchy *)

Lemma first_failure_some (items : list FsItem) (e : exn) :
  fold_left
    (fun acc it => match acc with Some e => Some e | None => walk_failure it end)
    items (Some e) = Some e.
Proof. induction items as [|x l IH]; [reflexivity|exact IH]. Qed.

Lemma process_items_outcome (rel current_module : string) (items : list FsItem) :
  Forall (fun it => forall rel cm modules,
              match walk_failure it with
              | Some e => process_item it rel cm modules = Raise e
              | None => exists modules', process_item it rel cm modules = Ok modules'
              end) items ->
  forall modules,
    match first_failure items with
    | Some e =>
        fold_left
          (fun acc it =>
             modules <- acc ;; process_item it rel current_module modules)
          items (Ok modules) = Raise e
    | None =>
        exists modules',
          fold_left
            (fun acc it =>
               modules <- acc ;; process_item it rel current_module modules)
            items (Ok modules) = Ok modules'
    end.
Proof.
  unfold first_failure. induction 1 as [|x l Hx _ IH]; intros modules.
  - exists modules. reflexivity.
  - cbn [fold_left bind]. specialize (Hx rel current_module modules).
    destruct (walk_failure x) as [e|].
    + rewrite first_failure_some, Hx. apply fold_bind_raise.
    + destruct Hx as [modules1 ->]. apply IH.
Qed.

Lemma process_item_outcome (item : FsItem) :
  forall rel cm modules,
    match walk_failure item with
    | Some e => process_item item rel cm modules = Raise e
    | None => exists modules', process_item item rel cm modules = Ok modules'
    end.
Proof.
  induction item as [name|name items IH|name e|name|name e] using FsItem_tree_ind;
    intros rel cm modules; cbn [walk_failure process_item].
  - eexists. reflexivity.
  - destruct (str_in name ignored_directories); [eexists; reflexivity|].
    apply (process_items_outcome _ _ items IH).
  - destruct (str_in name ignored_directories); [eexists|]; reflexivity.
  - eexists. reflexivity.
  - reflexivity.
Qed.

Lemma has_module_spec (modules : Modules) (key : string) :
  has_module modules key = true <-> In key (map fst modules).
Proof.
  unfold has_module. rewrite existsb_exists, in_map_iff. split.
  - intros (kv & Hin & E). apply String.eqb_eq in E. exists kv. auto.
  - intros (kv & E & Hin). exists kv. split; [exact Hin|].
    apply String.eqb_eq, E.
Qed.

Lemma append_child_keys (modules : Modules) (key child : string) :
  map fst (append_child modules key child) = map fst modules.
Proof.
  unfold append_child. rewrite map_map. apply map_ext. intros kv.
  destruct (String.eqb (fst kv) key); reflexivity.
Qed.

Lemma append_child_ok (modules : Modules) (key child : string) :
  modules_ok modules -> modules_ok (append_child modules key child).
Proof.
  intros [Hk Hf]. split; [rewrite append_child_keys; exact Hk|].
  unfold append_child. apply Forall_map. eapply Forall_impl; [|exact Hf].
  intros kv H. destruct (String.eqb (fst kv) key); exact H.
Qed.

Lemma add_file_ok (name rel current_module : string) (modules : Modules) :
  modules_ok modules -> modules_ok (add_file name rel current_module modules).
Proof.
  intros H. unfold add_file.
  set (module_name := if truthy current_module then _ else _).
  assert (H1 : modules_ok
                 (if has_module modules module_name then modules
                  else (modules
                        ++ [(module_name,
                             {| mi_name := module_name;
                                mi_path := relative_path rel name;
                                mi_is_package := false;
                                mi_level := count_dots module_name;
                                mi_parent := if has_dot module_name
                                             then Some current_module else None;
                                mi_children := [] |})])%list)).
  { destruct (has_module modules module_name) eqn:M; [exact H|].
    destruct H as [Hk Hf]. split.
    - rewrite map_app. cbn [map fst]. apply NoDup_app.
      + exact Hk.
      + constructor; [intros []|constructor].
      + intros a Ha [<-|[]]. apply has_module_spec in Ha. congruence.
    - apply Forall_snoc; [exact Hf|].
      unfold module_entry_ok. cbn [fst snd mi_name mi_level mi_is_package mi_parent].
      repeat split; destruct (has_dot module_name); congruence. }
  destruct (truthy current_module && has_module _ current_module);
    [apply append_child_ok|]; exact H1.
Qed.

Lemma process_item_ok (item : FsItem) :
  forall rel cm modules modules',
    modules_ok modules ->
    process_item item rel cm modules = Ok modules' ->
    modules_ok modules'.
Proof.
  induction item as [name|name items IH|name e|name|name e] using FsItem_tree_ind;
    intros rel cm modules modules' Hm H; cbn [process_item] in H.
  - injection H as <-.
    match goal with
    | |- modules_ok (if ?b then _ else _) => destruct b
    end; [apply add_file_ok|]; exact Hm.
  - match type of H with
    | (if ?b then _ else _) = _ => destruct b
    end; [injection H as <-; exact Hm|].
    revert Hm H.
    apply (fold_bind_inv modules_ok
             (fun it modules =>
                process_item it (relative_path rel name)
                  (if truthy cm then cm ++ "." ++ name else name) modules)).
    eapply Forall_impl; [|exact IH]. intros it Hit st st'. apply Hit.
  - match type of H with
    | (if ?b then _ else _) = _ => destruct b
    end; [|discriminate].
    injection H as <-. exact Hm.
  - injection H as <-. exact Hm.
  - discriminate.
Qed.

Lemma hierarchy_outcome (root : result (list FsItem)) :
  match root_failure root with
  | Some e =>
      build_module_hierarchy root
      = HierarchyError ("Module hierarchy construction failed: " ++ str_exn e)
  | None =>
      exists modules : Modules,
        build_module_hierarchy root
        = HierarchySuccess (length modules) modules
  end.
Proof.
  destruct root as [items|e]; [|reflexivity].
  unfold root_failure, build_module_hierarchy.
  change (items0 <- Ok items ;;
          process_directory items0 EmptyString EmptyString [])
    with (process_directory items EmptyString EmptyString []).
  unfold process_directory.
  pose proof (process_items_outcome EmptyString EmptyString items) as H.
  specialize (H ltac:(apply Forall_forall; intros it _; apply process_item_outcome) []).
  destruct (first_failure items) as [e|].
  - rewrite H. reflexivity.
  - destruct H as [modules ->]. exists modules. rewrite length_map. reflexivity.
Qed.

(** X15. [build_module_hierarchy] never returns a part of a hierarchy. When
    the walk meets a failure (the repository path or a directory that is
    not ignored cannot be listed, or an entry cannot be examined) the
    result is the error form, with the message of the first failure the
    walk meets and no module at all. A success result is returned only by
    a walk that met no failure, and its modules_created is the number of
    entries of its hierarchy. Ignored directories are never listed, so one
    that cannot be listed does no harm. *)
Theorem X15_module_hierarchy_all_or_nothing :
  forall root : result (list FsItem),
    (forall e : exn,
        root_failure root = Some e ->
        build_module_hierarchy root
        = HierarchyError
            ("Module hierarchy construction failed: " ++ str_exn e))
    /\ (forall (n : nat) (modules : Modules),
           build_module_hierarchy root = HierarchySuccess n modules ->
           root_failure root = None /\ n = length modules).
Proof.
  intros root. pose proof (hierarchy_outcome root) as H. split.
  - intros e E. rewrite E in H. exact H.
  - intros n modules S. destruct (root_failure root) as [e|].
    + rewrite H in S. discriminate.
    + destruct H as [modules' H]. rewrite H in S. injection S as <- <-.
      split; reflexivity.
Qed.

Lemma X15_module_hierarchy_witness :
  build_module_hierarchy (Ok locked_repository)
  = HierarchyError
      ("Module hierarchy construction failed: "
       ++ "[Errno 13] Permission denied")
  /\ root_failure (Ok sample_repository) = None.
Proof.
  split.
  - apply (proj1 (X15_module_hierarchy_all_or_nothing (Ok locked_repository))
             (Exception "[Errno 13] Permission denied")).
    reflexivity.
  - eapply (proj2 (X15_module_hierarchy_all_or_nothing (Ok sample_repository))
              5).
    vm_compute. reflexivity.
Defined.

(** X16. In the hierarchy returned on success the keys are pairwise
    distinct, the number of modules created is the number of keys, and every
    entry carries its key as name, the number of dots of the name as level,
    no parent exactly when the name has no dot, and the package flag false:
    the flag computed from the children is kept only in objects that are
    thrown away. *)
Theorem X16_module_hierarchy_entries :
  forall (root : result (list FsItem)) (n : nat) (modules : Modules),
    build_module_hierarchy root = HierarchySuccess n modules ->
    n = length modules
    /\ NoDup (map fst modules)
    /\ Forall module_entry_ok modules.
Proof.
  intros root n modules H. unfold build_module_hierarchy in H.
  destruct root as [items|e]; cbn [bind] in H; [|discriminate].
  destruct (process_directory items EmptyString EmptyString []) as [ms|e] eqn:E;
    [|discriminate].
  injection H as <- <-. split; [apply length_map|].
  unfold process_directory in E.
  assert (O : modules_ok ms).
  { revert E.
    apply (fold_bind_inv modules_ok
             (fun it modules => process_item it EmptyString EmptyString modules)).
    - apply Forall_forall. intros it _ st st'. apply process_item_ok.
    - split; constructor. }
  exact O.
Qed.

Lemma X16_module_hierarchy_witness :
  exists modules : Modules,
    build_module_hierarchy (Ok sample_repository)
    = HierarchySuccess 5 modules
    /\ 5 = length modules
    /\ NoDup (map fst modules)
    /\ Forall module_entry_ok modules.
Proof.
  eexists. split; [vm_compute; reflexivity|].
  apply (X16_module_hierarchy_entries (Ok sample_repository) 5).
  vm_compute. reflexivity.
Defined.

(** ** The analysis of a repository *)

Lemma initialize_parsers_status (ts : bool)
  (make_parser : string -> string -> result Parser)
  (old : list (string * Parser)) :
  String.eqb (snd (initialize_parsers ts make_parser old)) "error" = false.
Proof. unfold initialize_parsers. destruct ts; reflexivity. Qed.

(** X17. What a success result of [analyze_repository] carries. It is
    returned only when the walk of the module hierarchy met no failure; it
    holds the repository path, the hierarchy of that walk with
    modules_created equal to the number of its entries, and a parser report
    that is not an error: with tree-sitter the languages whose grammar
    loads, in the order of the source, and none of them is needed. Its
    metrics are the same for every repository: zero files, zero elements,
    zero relationships, zero average and maximum complexity, whatever
    modules the hierarchy lists. *)
Theorem X17_analyze_repository_outcome :
  forall (ts : bool) (make_parser : string -> string -> result Parser)
         (now : nat) (repository_path : string) (root : result (list FsItem))
         (path parser_status : string) (languages : list string) (n : nat)
         (modules : Modules) (metrics : Metrics) (timestamp : nat),
    analyze_repository ts make_parser now repository_path root
    = AnalysisDone path parser_status languages n modules metrics timestamp ->
    root_failure root = None
    /\ build_module_hierarchy root = HierarchySuccess n modules
    /\ n = length modules
    /\ path = repository_path
    /\ parser_status = (if ts then "success" else "warning")
    /\ languages
       = (if ts
          then map fst
                 (filter (fun lg => is_ok (make_parser (snd lg) (fst lg)))
                    parser_grammars)
          else [])
    /\ total_files metrics = 0 /\ total_elements metrics = 0
    /\ total_relationships metrics = 0
    /\ avg_complexity metrics = 0%Q /\ max_complexity metrics = 0%Q.
Proof.
  intros ts make_parser now repository_path root path parser_status languages
    n modules metrics timestamp H.
  pose proof (hierarchy_outcome root) as O.
  unfold analyze_repository in H. rewrite initialize_parsers_status in H.
  destruct (root_failure root) as [e|].
  - rewrite O in H. discriminate.
  - destruct O as [modules' O]. rewrite O in H.
    injection H as <- <- <- <- <- <- <-.
    split; [reflexivity|]. split; [exact O|]. split; [reflexivity|].
    split; [reflexivity|]. split.
    { unfold initialize_parsers. destruct ts; reflexivity. }
    split.
    { destruct ts; [|reflexivity].
      unfold initialize_parsers. cbn [negb fst].
      rewrite initialize_fold_filter. reflexivity. }
    repeat split; reflexivity.
Qed.

Lemma X17_analyze_repository_witness :
  exists modules : Modules,
    analyze_repository true (fun _ _ => Raise (Exception "no grammar")) 0
      "repo" (Ok sample_repository)
    = AnalysisDone "repo" "success" [] 5 modules calculate_repository_metrics 0
    /\ root_failure (Ok sample_repository) = None
    /\ build_module_hierarchy (Ok sample_repository)
       = HierarchySuccess 5 modules.
Proof.
  eexists. split; [vm_compute; reflexivity|].
  match goal with
  | |- _ /\ _ = HierarchySuccess 5 ?m =>
      destruct (X17_analyze_repository_outcome true
                  (fun _ _ => Raise (Exception "no grammar")) 0 "repo"
                  (Ok sample_repository) "repo" "success" [] 5 m
                  calculate_repository_metrics 0) as (A & B & _)
  end.
  - vm_compute. reflexivity.
  - split; assumption.
Defined.

(** ** Elements come in document order *)

Lemma fold_bind_app {A S B : Type} (m : S -> list B) (w : A -> list B)
  (f : A -> S -> result S) (l : list A) :
  Forall (fun c => forall st st', f c st = Ok st' -> m st' = (m st ++ w c)%list) l ->
  forall st st',
    fold_left (fun acc c => st <- acc ;; f c st) l (Ok st) = Ok st' ->
    m st' = (m st ++ flat_map w l)%list.
Proof.
  induction 1 as [|c l Hc _ IH]; intros st st' Hfold.
  - injection Hfold as <-. simpl. symmetry. apply app_nil_r.
  - simpl in Hfold. destruct (f c st) as [st1|e] eqn:E.
    + rewrite (IH _ _ Hfold), (Hc _ _ E). cbn [flat_map].
      symmetry. apply app_assoc.
    + rewrite fold_bind_raise in Hfold. discriminate.
Qed.

Lemma places_flat_map (language : string) (ch : list Node) :
  flat_map (fun c => map node_place (declaration_nodes language c)) ch
  = map node_place
      (filter (fun n => makes_element language (type n))
         (flat_map subtree_nodes ch)).
Proof.
  induction ch as [|c l IH]; [reflexivity|].
  cbn [flat_map]. rewrite filter_app, map_app, IH. reflexivity.
Qed.

Lemma extract_python_function_place node file_path id el :
  extract_python_function node file_path id = Ok el ->
  element_place el = ("function", start_line node, end_line node, text node).
Proof.
  unfold extract_python_function. intros H.
  destruct (extract_python_docstring node); [|discriminate].
  destruct (extract_python_dependencies node); [|discriminate].
  injection H as <-. reflexivity.
Qed.

Lemma extract_python_class_place node file_path id el :
  extract_python_class node file_path id = Ok el ->
  element_place el = ("class", start_line node, end_line node, text node).
Proof.
  unfold extract_python_class. intros H.
  destruct (extract_python_docstring node); [|discriminate].
  injection H as <-. reflexivity.
Qed.

Lemma traverse_tree_places (language file_path : string) (n : Node) :
  forall st st',
    traverse_tree language file_path n st = Ok st' ->
    map element_place (fst st')
    = (map element_place (fst st)
       ++ map node_place (declaration_nodes language n))%list.
Proof.
  induction n as [ty fn tx sp ep ch IH] using Node_tree_ind.
  intros [elements counter] st' H. cbn [traverse_tree] in H.
  match type of H with
  | bind ?m _ = _ => destruct m as [st1|e] eqn:E; [|discriminate]
  end.
  cbn [bind] in H.
  pose proof (fold_bind_app (fun st => map element_place (fst st))
                (fun c => map node_place (declaration_nodes language c))
                (traverse_tree language file_path) ch IH st1 st' H) as F.
  cbn beta in F. rewrite F, places_flat_map. cbn [fst].
  unfold declaration_nodes. cbn [subtree_nodes filter type].
  assert (H1 : map element_place (fst st1)
               = (map element_place elements
                  ++ (if makes_element language ty
                      then [node_place (mkNode ty fn tx sp ep ch)] else []))%list).
  { unfold makes_element, is_python_declaration, is_js_declaration, str_in.
    cbn [existsb].
    destruct (String.eqb language "python") eqn:Lp.
    - apply String.eqb_eq in Lp. subst language.
      cbn [String.eqb Ascii.eqb Bool.eqb andb orb].
      destruct (String.eqb ty "function_definition") eqn:T1.
      + apply String.eqb_eq in T1. subst ty.
        destruct (extract_python_function _ _ _) as [el|] eqn:X; [|discriminate].
        injection E as <-. cbn [fst orb]. rewrite map_app. cbn [map].
        rewrite (extract_python_function_place _ _ _ _ X). reflexivity.
      + destruct (String.eqb ty "class_definition") eqn:T2.
        * apply String.eqb_eq in T2. subst ty.
          destruct (extract_python_class _ _ _) as [el|] eqn:X; [|discriminate].
          injection E as <-. cbn [fst orb]. rewrite map_app. cbn [map].
          rewrite (extract_python_class_place _ _ _ _ X). reflexivity.
        * destruct (String.eqb ty "assignment") eqn:T3.
          -- apply String.eqb_eq in T3. subst ty.
             injection E as <-. cbn [fst orb]. rewrite map_app. reflexivity.
          -- injection E as <-. cbn [fst orb]. symmetry. apply app_nil_r.
    - cbn [andb orb].
      destruct (String.eqb language "javascript"); cbn [andb].
      + destruct (String.eqb ty "function_declaration") eqn:T1.
        * apply String.eqb_eq in T1. subst ty.
          injection E as <-. cbn [fst orb]. rewrite map_app. reflexivity.
        * destruct (String.eqb ty "class_declaration") eqn:T2.
          -- apply String.eqb_eq in T2. subst ty.
             injection E as <-. cbn [fst orb]. rewrite map_app. reflexivity.
          -- destruct (String.eqb ty "variable_declaration") eqn:T3.
             ++ apply String.eqb_eq in T3. subst ty.
                injection E as <-. cbn [fst orb]. rewrite map_app. reflexivity.
             ++ injection E as <-. cbn [fst orb]. symmetry. apply app_nil_r.
      + injection E as <-. cbn [fst]. symmetry. apply app_nil_r. }
  rewrite H1, <- app_assoc. f_equal.
  destruct (makes_element language ty); reflexivity.
Qed.

(** X18. Structured mode lists the elements in document order: the
    elements are, one for one and in the same order, the nodes of the tree
    that make elements in the language, taken parents before children and
    earlier siblings first; each element has the type its node stands for,
    the node's first and last line counted from 1, and the node's text as
    source code. *)
Theorem X18_elements_in_document_order :
  forall (tree : Node) (language file_path : string)
         (elements : list CodeElement),
    extract_code_elements tree language file_path = Ok elements ->
    map element_place elements
    = map node_place (declaration_nodes language tree).
Proof.
  intros tree language file_path elements H. unfold extract_code_elements in H.
  destruct (traverse_tree language file_path tree ([], 0)) as [st|] eqn:E;
    [|discriminate].
  injection H as <-. apply traverse_tree_places in E. exact E.
Qed.

Lemma X18_elements_in_document_order_witness :
  exists elements : list CodeElement,
    extract_code_elements js_class_tree "javascript" "a.js" = Ok elements
    /\ map element_place elements = [("class", 1, 1, js_class_source)]
    /\ map element_place elements
       = map node_place (declaration_nodes "javascript" js_class_tree).
Proof.
  eexists. split; [vm_compute; reflexivity|]. split; [reflexivity|].
  apply (X18_elements_in_document_order js_class_tree "javascript" "a.js").
  vm_compute. reflexivity.
Defined.

(** ** Regex elements follow the text *)

Lemma scan_starts (r : regex) :
  forall a b skip,
    Forall (fun m => length b <= m_start m) (scan r b a skip)
    /\ StronglySorted lt (map m_start (scan r b a skip)).
Proof.
  assert (here : forall b a m, match_here r b a = Some m -> m_start m = length b).
  { intros b a m H. unfold match_here in H.
    destruct (mtch r _ Some); [|discriminate]. injection H as <-. reflexivity. }
  assert (weaken : forall (c : ascii) b l,
             Forall (fun m => length (c :: b) <= m_start m) l ->
             Forall (fun m => length b <= m_start m) l).
  { intros c b l H. eapply Forall_impl; [|exact H].
    intros m Hm. cbn [length] in Hm. lia. }
  induction a as [|c a IH]; intros b skip.
  - destruct skip; cbn [scan]; [|split; constructor].
    destruct (match_here r b []) as [m|] eqn:M; [|split; constructor].
    apply here in M. split.
    + constructor; [lia|constructor].
    + cbn [map]. constructor; constructor.
  - destruct skip as [|skip]; cbn [scan].
    + destruct (match_here r b (c :: a)) as [m|] eqn:M.
      * apply here in M.
        destruct (IH (c :: b) (Nat.pred (m_end m - m_start m))) as [F S].
        split.
        -- constructor; [lia|]. eapply weaken, F.
        -- cbn [map]. constructor; [exact S|].
           apply Forall_map. eapply Forall_impl; [|exact F].
           intros x Hx. cbn [length] in Hx. lia.
      * destruct (IH (c :: b) 0) as [F S]. split; [eapply weaken, F|exact S].
    + destruct (IH (c :: b) skip) as [F S]. split; [eapply weaken, F|exact S].
Qed.

Lemma count_newlines_firstn (l : list ascii) (i j : nat) :
  i <= j -> count_newlines (firstn i l) <= count_newlines (firstn j l).
Proof.
  revert i j. unfold count_newlines.
  induction l as [|c l IH]; intros i j H.
  - rewrite !firstn_nil. lia.
  - destruct i as [|i]; [cbn; lia|]. destruct j as [|j]; [lia|].
    cbn [firstn filter]. specialize (IH i j ltac:(lia)).
    destruct (Ascii.eqb newline c); cbn [length]; lia.
Qed.

Lemma lines_sorted (source_code : string) (ms : list rmatch) :
  StronglySorted lt (map m_start ms) ->
  Sorted le (map (line_of_match source_code) ms).
Proof.
  intros H. apply StronglySorted_Sorted.
  induction ms as [|m ms IH]; [constructor|].
  cbn [map] in *. apply StronglySorted_inv in H as [Hs Hf].
  constructor; [apply IH, Hs|].
  apply Forall_map. rewrite Forall_map in Hf.
  eapply Forall_impl; [|exact Hf]. intros x Hx. cbn beta in Hx.
  unfold line_of_match.
  pose proof (count_newlines_firstn (chars source_code) (m_start m) (m_start x)
                ltac:(lia)).
  lia.
Qed.

Lemma append_matches_lines prefix kind return_type trailer pattern source_code
  file_path (elements : list CodeElement) :
  exists new : list CodeElement,
    append_matches prefix kind return_type trailer pattern source_code
      file_path elements = (elements ++ new)%list
    /\ Forall (fun e => e_type e = kind) new
    /\ map e_start_line new
       = map (line_of_match source_code) (finditer pattern source_code).
Proof.
  unfold append_matches.
  generalize (finditer pattern source_code). intros ms. revert elements.
  induction ms as [|m ms IH]; intros elements.
  - exists []. split; [symmetry; apply app_nil_r|]. split; [constructor|reflexivity].
  - cbn [fold_left].
    destruct (IH (elements ++ [regex_element prefix kind return_type trailer
                                 source_code file_path elements m])%list)
      as (new & E & F & L).
    eexists (_ :: new). split; [rewrite E, <- app_assoc; reflexivity|].
    split; [constructor; [reflexivity|exact F]|].
    cbn [map regex_element e_start_line]. rewrite L. reflexivity.
Qed.

Lemma filter_all {A} (p : A -> bool) (l : list A) :
  Forall (fun x => p x = true) l -> filter p l = l.
Proof.
  induction 1 as [|x l Hx _ IH]; [reflexivity|].
  cbn [filter]. rewrite Hx, IH. reflexivity.
Qed.

Lemma filter_none {A} (p : A -> bool) (l : list A) :
  Forall (fun x => p x = false) l -> filter p l = [].
Proof.
  induction 1 as [|x l Hx _ IH]; [reflexivity|].
  cbn [filter]. rewrite Hx, IH. reflexivity.
Qed.

Lemma start_lines_two_loops (source_code file_path : string)
  (return_type : string) (trailer : ascii) (fp cp : regex) :
  let elements :=
    append_matches "class_" "class" "class" trailer cp source_code file_path
      (append_matches "func_" "function" return_type trailer fp source_code
         file_path []) in
  start_lines_of "function" elements
  = map (line_of_match source_code) (finditer fp source_code)
  /\ start_lines_of "class" elements
     = map (line_of_match source_code) (finditer cp source_code).
Proof.
  cbv zeta.
  destruct (append_matches_lines "func_" "function" return_type trailer fp
              source_code file_path []) as (fs & -> & Ff & Lf).
  destruct (append_matches_lines "class_" "class" "class" trailer cp
              source_code file_path ([] ++ fs)) as (cs & -> & Fc & Lc).
  cbn [app]. unfold start_lines_of. rewrite !filter_app, !map_app.
  rewrite (filter_all (fun e => String.eqb (e_type e) "function") fs),
          (filter_none (fun e => String.eqb (e_type e) "function") cs),
          (filter_none (fun e => String.eqb (e_type e) "class") fs),
          (filter_all (fun e => String.eqb (e_type e) "class") cs).
  - cbn [map app]. rewrite app_nil_r. split; assumption.
  - eapply Forall_impl; [|exact Fc]. intros e ->. reflexivity.
  - eapply Forall_impl; [|exact Ff]. intros e ->. reflexivity.
  - eapply Forall_impl; [|exact Fc]. intros e ->. reflexivity.
  - eapply Forall_impl; [|exact Ff]. intros e ->. reflexivity.
Qed.

(** X19. In regex mode the functions are listed in the order in which they
    stand in the text, and so are the classes: along the list the start
    lines of the function elements never decrease, nor do those of the
    class elements. *)
Theorem X19_regex_elements_in_text_order :
  forall source_code language file_path : string,
    Sorted le
      (start_lines_of "function"
         (extract_elements_with_regex source_code language file_path))
    /\ Sorted le
         (start_lines_of "class"
            (extract_elements_with_regex source_code language file_path)).
Proof.
  intros source_code language file_path. unfold extract_elements_with_regex.
  destruct (String.eqb language "python");
    [|destruct (String.eqb language "javascript")].
  - destruct (start_lines_two_loops source_code file_path "Any" ":"%char
                py_func_pattern py_class_pattern) as [-> ->].
    split; apply lines_sorted, scan_starts.
  - destruct (start_lines_two_loops source_code file_path "any" "{"%char
                js_func_pattern js_class_pattern) as [-> ->].
    split; apply lines_sorted, scan_starts.
  - split; constructor.
Qed.
